(** * PLCO documentation build helpers: index aggregation and local build driver

    A shallow embedding of [build_index.py] and [build_local.py].

    Strings are Rocq [string]s.  Python compares [str] values by code point,
    which for text in UTF-8 is the byte order of [String.compare].  A name
    outside ASCII is its UTF-8 bytes; [str.isdigit] and [int] decode them and
    consult the tables of Unicode 14.0, the version of CPython 3.11, whose
    default limit of 4300 digits on the literals of [int] is modelled too.

    Everything the scripts observe of the outside world (the results of
    [glob], the generated documentation tree, the outcome of the external
    WIDOCO run, of the template engine and of file writes) is an explicit
    input of the model. *)

From Stdlib Require Import ZArith String Ascii List Lia Bool Permutation Sorted.
From Stdlib Require Import RelationClasses.
Import ListNotations.
Local Open Scope string_scope.
Local Open Scope list_scope.

(** ** Python primitives *)

Module Py.

(** Exceptions the scripts can meet.  [KeyboardInterrupt] and [SystemExit]
    (raised by [sys.exit]) are outside [Exception]: [except Exception] does
    not catch them. *)
Inductive exn : Type :=
| AttributeError
| ValueError
| IndexError
| NotADirectoryError
| OSError
| FileNotFoundError
| TimeoutExpired
| TemplateError
| KeyboardInterrupt
| SystemExit (code : Z).

(** [isinstance(e, Exception)] *)
Definition is_Exception (e : exn) : bool :=
  match e with
  | KeyboardInterrupt | SystemExit _ => false
  | _ => true
  end.

Inductive result (A : Type) : Type :=
| Ok (a : A)
| Raise (e : exn).
Arguments Ok {A} a.
Arguments Raise {A} e.

Definition bind {A B : Type} (r : result A) (k : A -> result B) : result B :=
  match r with
  | Ok a => k a
  | Raise e => Raise e
  end.

Notation "x <- r ;; k" := (bind r (fun x => k))
  (at level 61, r at next level, right associativity).

(** [for x in xs: st = body st x], stopping at the first exception. *)
Fixpoint for_each {A S : Type} (body : S -> A -> result S) (xs : list A) (st : S)
  : result S :=
  match xs with
  | [] => Ok st
  | x :: xs' => st' <- body st x ;; for_each body xs' st'
  end.

(** [[f(x) for x in xs]], stopping at the first exception. *)
Fixpoint map_result {A B : Type} (f : A -> result B) (xs : list A) : result (list B) :=
  match xs with
  | [] => Ok []
  | x :: xs' => y <- f x ;; ys <- map_result f xs' ;; Ok (y :: ys)
  end.

(** [[x for x in xs if p(x)]], where the test may raise. *)
Fixpoint filter_result {A : Type} (p : A -> result bool) (xs : list A) : result (list A) :=
  match xs with
  | [] => Ok []
  | x :: xs' =>
      b <- p x ;; ys <- filter_result p xs' ;; Ok (if b then x :: ys else ys)
  end.

(** *** Strings *)

Fixpoint strip_prefix (p s : string) : option string :=
  match p with
  | EmptyString => Some s
  | String a p' =>
      match s with
      | String b s' => if Ascii.eqb a b then strip_prefix p' s' else None
      | EmptyString => None
      end
  end.

(** [s.endswith(suffix)] *)
Definition endswith (s suffix : string) : bool :=
  let n := String.length s in
  let k := String.length suffix in
  (k <=? n)%nat && String.eqb (substring (n - k) k s) suffix.

(** The longest prefix without a slash, and what follows it. *)
Fixpoint span_not_slash (s : string) : string * string :=
  match s with
  | EmptyString => (EmptyString, EmptyString)
  | String c s' =>
      if Ascii.eqb c "/" then (EmptyString, s)
      else let (m, r) := span_not_slash s' in (String c m, r)
  end.

(** [re.match] of the pattern ontology/{type}/GROUP/GROUP at the start of
    [source], where GROUP is a greedy run of characters other than the slash:
    groups 1 and 2, or [None] when the pattern does not match.  [type] is
    modules or demo and holds no regex metacharacter. *)
Definition re_match (type source : string) : option (string * string) :=
  match strip_prefix ("ontology/" ++ type ++ "/") source with
  | None => None
  | Some rest =>
      let (g1, rest1) := span_not_slash rest in
      match rest1 with
      | String c rest2 =>
          if Ascii.eqb c "/"
          then let (g2, _) := span_not_slash rest2 in Some (g1, g2)
          else None
      | EmptyString => None
      end
  end.

(** [s.split(sep)] for a one-character separator. *)
Fixpoint split (sep : ascii) (s : string) : list string :=
  match s with
  | EmptyString => [EmptyString]
  | String c s' =>
      if Ascii.eqb c sep then EmptyString :: split sep s'
      else match split sep s' with
           | [] => [String c EmptyString]
           | w :: ws => String c w :: ws
           end
  end.

Definition is_ascii_digit (c : ascii) : bool :=
  let n := nat_of_ascii c in (48 <=? n)%nat && (n <=? 57)%nat.

(** *** Characters

    A [str] is held as its UTF-8 bytes (file names are decoded from UTF-8).
    [decode_first] reads the first character: its code point and the bytes
    after it, or [None] where the bytes are not the UTF-8 form of a character
    (such a byte reaches Python as a lone surrogate, which is no digit, no
    white space and nothing [int] accepts). *)

Definition continuation (c : ascii) : option N :=
  let b := N_of_ascii c in
  if ((128 <=? b) && (b <=? 191))%N then Some (b - 128)%N else None.

Definition decode_first (s : string) : option (N * string) :=
  match s with
  | EmptyString => None
  | String c0 s1 =>
      let b0 := N_of_ascii c0 in
      if (b0 <? 128)%N then Some (b0, s1)
      else if ((194 <=? b0) && (b0 <=? 223))%N then
        match s1 with
        | String c1 s2 =>
            match continuation c1 with
            | Some x1 => Some (((b0 - 192) * 64 + x1)%N, s2)
            | None => None
            end
        | EmptyString => None
        end
      else if ((224 <=? b0) && (b0 <=? 239))%N then
        match s1 with
        | String c1 (String c2 s3) =>
            match continuation c1, continuation c2 with
            | Some x1, Some x2 =>
                let cp := ((b0 - 224) * 4096 + x1 * 64 + x2)%N in
                if ((2048 <=? cp) && negb ((55296 <=? cp) && (cp <=? 57343)))%N
                then Some (cp, s3) else None
            | _, _ => None
            end
        | _ => None
        end
      else if ((240 <=? b0) && (b0 <=? 244))%N then
        match s1 with
        | String c1 (String c2 (String c3 s4)) =>
            match continuation c1, continuation c2, continuation c3 with
            | Some x1, Some x2, Some x3 =>
                let cp := ((b0 - 240) * 262144 + x1 * 4096 + x2 * 64 + x3)%N in
                if ((65536 <=? cp) && (cp <=? 1114111))%N
                then Some (cp, s4) else None
            | _, _, _ => None
            end
        | _ => None
        end
      else None
  end.

Definition in_ranges (cp : N) (table : list (N * N)) : bool :=
  existsb (fun r => ((fst r <=? cp) && (cp <=? snd r))%N) table.

(** The characters for which [str.isdigit] holds: the decimal digits of all
    scripts and the other digit characters such as superscripts (Unicode
    14.0, the database of CPython 3.11), as ranges of code points. *)
Definition digit_ranges : list (N * N) :=
  [(48, 57); (178, 179); (185, 185); (1632, 1641); (1776, 1785);
   (1984, 1993); (2406, 2415); (2534, 2543); (2662, 2671); (2790, 2799);
   (2918, 2927); (3046, 3055); (3174, 3183); (3302, 3311); (3430, 3439);
   (3558, 3567); (3664, 3673); (3792, 3801); (3872, 3881); (4160, 4169);
   (4240, 4249); (4969, 4977); (6112, 6121); (6160, 6169); (6470, 6479);
   (6608, 6618); (6784, 6793); (6800, 6809); (6992, 7001); (7088, 7097);
   (7232, 7241); (7248, 7257); (8304, 8304); (8308, 8313); (8320, 8329);
   (9312, 9320); (9332, 9340); (9352, 9360); (9450, 9450); (9461, 9469);
   (9471, 9471); (10102, 10110); (10112, 10120); (10122, 10130);
   (42528, 42537); (43216, 43225); (43264, 43273); (43472, 43481);
   (43504, 43513); (43600, 43609); (44016, 44025); (65296, 65305);
   (66720, 66729); (68160, 68163); (68912, 68921); (69216, 69224);
   (69714, 69722); (69734, 69743); (69872, 69881); (69942, 69951);
   (70096, 70105); (70384, 70393); (70736, 70745); (70864, 70873);
   (71248, 71257); (71360, 71369); (71472, 71481); (71904, 71913);
   (72016, 72025); (72784, 72793); (73040, 73049); (73120, 73129);
   (92768, 92777); (92864, 92873); (93008, 93017); (120782, 120831);
   (123200, 123209); (123632, 123641); (125264, 125273); (127232, 127242);
   (130032, 130041)]%N.

(** The decimal digits, those that [int] reads; each range holds the digits
    0 to 9 in order, once or several times. *)
Definition decimal_ranges : list (N * N) :=
  [(48, 57); (1632, 1641); (1776, 1785); (1984, 1993); (2406, 2415);
   (2534, 2543); (2662, 2671); (2790, 2799); (2918, 2927); (3046, 3055);
   (3174, 3183); (3302, 3311); (3430, 3439); (3558, 3567); (3664, 3673);
   (3792, 3801); (3872, 3881); (4160, 4169); (4240, 4249); (6112, 6121);
   (6160, 6169); (6470, 6479); (6608, 6617); (6784, 6793); (6800, 6809);
   (6992, 7001); (7088, 7097); (7232, 7241); (7248, 7257); (42528, 42537);
   (43216, 43225); (43264, 43273); (43472, 43481); (43504, 43513);
   (43600, 43609); (44016, 44025); (65296, 65305); (66720, 66729);
   (68912, 68921); (69734, 69743); (69872, 69881); (69942, 69951);
   (70096, 70105); (70384, 70393); (70736, 70745); (70864, 70873);
   (71248, 71257); (71360, 71369); (71472, 71481); (71904, 71913);
   (72016, 72025); (72784, 72793); (73040, 73049); (73120, 73129);
   (92768, 92777); (92864, 92873); (93008, 93017); (120782, 120831);
   (123200, 123209); (123632, 123641); (125264, 125273); (130032, 130041)]%N.

(** The white space characters, for [int] those outside ASCII. *)
Definition space_ranges : list (N * N) :=
  [(133, 133); (160, 160); (5760, 5760); (8192, 8202); (8232, 8233);
   (8239, 8239); (8287, 8287); (12288, 12288)]%N.

Definition unicode_isdigit (cp : N) : bool := in_ranges cp digit_ranges.

Definition unicode_isspace (cp : N) : bool := in_ranges cp space_ranges.

(** The value of a decimal digit. *)
Definition unicode_decimal (cp : N) : option N :=
  match find (fun r => ((fst r <=? cp) && (cp <=? snd r))%N) decimal_ranges with
  | Some r => Some ((cp - fst r) mod 10)%N
  | None => None
  end.

(** White space that the parser of [int] skips at both ends of an ASCII
    text: tab, LF, VT, FF, CR and the space. *)
Definition is_space (c : ascii) : bool :=
  let n := nat_of_ascii c in
  ((9 <=? n)%nat && (n <=? 13)%nat) || (n =? 32)%nat.

(** [s[0].isdigit()]: indexing the empty string raises. *)
Definition first_isdigit (s : string) : result bool :=
  match s with
  | EmptyString => Raise IndexError
  | String _ _ =>
      Ok (match decode_first s with
          | Some (cp, _) => unicode_isdigit cp
          | None => false
          end)
  end.

Fixpoint lstrip (s : string) : string :=
  match s with
  | String c s' => if is_space c then lstrip s' else s
  | EmptyString => EmptyString
  end.

(** Drops trailing white space. *)
Fixpoint rstrip (s : string) : string :=
  match s with
  | EmptyString => EmptyString
  | String c s' =>
      match rstrip s' with
      | EmptyString => if is_space c then EmptyString else String c EmptyString
      | r => String c r
      end
  end.

Definition digit_value (c : ascii) : Z := Z.of_nat (nat_of_ascii c) - 48.

(** The digits of a base-10 literal: at least one digit, single underscores
    only between digits.  [prev_us] tells that the previous character was an
    underscore, [seen] that a digit has been read, [acc] is the value so
    far. *)
Fixpoint int_digits (s : string) (seen prev_us : bool) (acc : Z) : option Z :=
  match s with
  | EmptyString => if seen && negb prev_us then Some acc else None
  | String c s' =>
      if is_ascii_digit c then int_digits s' true false (10 * acc + digit_value c)
      else if Ascii.eqb c "_"
           then if seen && negb prev_us then int_digits s' seen true acc else None
           else None
  end.

(** The default of [sys.int_max_str_digits] in CPython 3.11: [int] raises
    [ValueError] on a literal of more digits. *)
Definition max_str_digits : N := 4300.

(** The number of digits of a literal; underscores do not count. *)
Definition digit_count (s : string) : N :=
  N.of_nat (List.length (filter is_ascii_digit (list_ascii_of_string s))).

(** The literal after the sign. *)
Definition int_literal (s : string) : option Z :=
  if (digit_count s <=? max_str_digits)%N then int_digits s false false 0
  else None.

(** The parser of [int] on an ASCII text, in base 10: white space at both
    ends, one optional sign, then the digits. *)
Definition int_ascii (s : string) : option Z :=
  match rstrip (lstrip s) with
  | String c s' =>
      if Ascii.eqb c "-" then option_map Z.opp (int_literal s')
      else if Ascii.eqb c "+" then int_literal s'
      else int_literal (String c s')
  | EmptyString => None
  end.

(** What [int] makes of a character before it parses: a character below
    127 stays, white space outside ASCII becomes a space, a decimal digit
    of any script its ASCII digit, and nothing else is accepted. *)
Definition ascii_for_int (cp : N) : option ascii :=
  if (cp <? 127)%N then Some (ascii_of_N cp)
  else if unicode_isspace cp then Some " "%char
  else match unicode_decimal cp with
       | Some d => Some (ascii_of_N (48 + d))
       | None => None
       end.

(** The ASCII text that [int] parses, character by character; [fuel]
    bounds the number of characters, and the number of bytes is enough. *)
Fixpoint int_text (fuel : nat) (s : string) : option string :=
  match s with
  | EmptyString => Some EmptyString
  | String _ _ =>
      match fuel with
      | O => None
      | S fuel' =>
          match decode_first s with
          | Some (cp, rest) =>
              match ascii_for_int cp, int_text fuel' rest with
              | Some c, Some t => Some (String c t)
              | _, _ => None
              end
          | None => None
          end
      end
  end.

(** [int(s)] in base 10.  [None] is [ValueError]. *)
Definition int_opt (s : string) : option Z :=
  match int_text (String.length s) s with
  | Some t => int_ascii t
  | None => None
  end.

Definition int (s : string) : result Z :=
  match int_opt s with
  | Some z => Ok z
  | None => Raise ValueError
  end.

(** *** Sorting

    [list.sort] is a stable sort.  With a total preorder the stable sorted
    arrangement of a list is unique, so insertion from the right stands for
    it: [insert] puts an element before the first one it is not greater
    than, which keeps equal elements in their original order. *)

Section Sort.
Context {A : Type} (le : A -> A -> bool).

Fixpoint insert (x : A) (l : list A) : list A :=
  match l with
  | [] => [x]
  | y :: l' => if le x y then x :: l else y :: insert x l'
  end.

Fixpoint list_sort (l : list A) : list A :=
  match l with
  | [] => []
  | x :: l' => insert x (list_sort l')
  end.

End Sort.

(** [l.sort(reverse=True)]: stable for the reversed order. *)
Definition list_sort_reverse {A : Type} (le : A -> A -> bool) (l : list A) : list A :=
  rev (list_sort le (rev l)).

(** [a <= b] on lists of integers: lexicographic, a proper prefix is
    smaller. *)
Fixpoint list_Z_leb (a b : list Z) : bool :=
  match a, b with
  | [], _ => true
  | _ :: _, [] => false
  | x :: a', y :: b' =>
      if (x <? y)%Z then true
      else if (y <? x)%Z then false
      else list_Z_leb a' b'
  end.

End Py.

Import Py.

(** ** The index data shared by both scripts *)

(** One entry of a bucket: the dict with keys name and versions. *)
Record ontology : Type := mk_ontology {
  name : string;
  versions : list string
}.

(** The dict [data], its keys in insertion order. *)
Record index_data : Type := mk_data {
  core : list ontology;
  other : list ontology;
  demo : list ontology;
  actor : list ontology;
  observation : list ontology;
  process : list ontology;
  resource : list ontology;
  supplementary : list ontology
}.

Definition empty_data : index_data := mk_data [] [] [] [] [] [] [] [].

(** [data.values()] *)
Definition data_values (d : index_data) : list (list ontology) :=
  [core d; other d; demo d; actor d; observation d; process d; resource d;
   supplementary d].

(** A Python dict with string keys, as an association list in insertion
    order (the order [for name in ontologies] iterates in). *)
Definition dict (V : Type) : Type := list (string * V).

Fixpoint dict_get {V : Type} (k : string) (d : dict V) : option V :=
  match d with
  | [] => None
  | (k', v) :: d' => if String.eqb k k' then Some v else dict_get k d'
  end.

(** [d[k] = v]: replaces in place when the key exists, else appends. *)
Fixpoint dict_set {V : Type} (k : string) (v : V) (d : dict V) : dict V :=
  match d with
  | [] => [(k, v)]
  | (k', v') :: d' =>
      if String.eqb k k' then (k', v) :: d' else (k', v') :: dict_set k v d'
  end.

Definition dict_keys {V : Type} (d : dict V) : list string := map fst d.

(** [name in table] *)
Definition in_list (x : string) (l : list string) : bool :=
  existsb (String.eqb x) l.

(** [key=lambda x: x["name"]] with the order of [str]. *)
Definition name_leb (a b : ontology) : bool := String.leb (name a) (name b).

(** The two values of the loop variable [type]. *)
Definition types : list string := ["modules"; "demo"].

(** The pattern handed to [glob] for a type. *)
Definition glob_pattern (type : string) : string :=
  "ontology/" ++ type ++ "/*/*/*".

(** [data[key].append(ontology)], one function per key. *)
Definition append_core (o : ontology) (d : index_data) : index_data :=
  mk_data (core d ++ [o]) (other d) (demo d) (actor d) (observation d)
          (process d) (resource d) (supplementary d).
Definition append_other (o : ontology) (d : index_data) : index_data :=
  mk_data (core d) (other d ++ [o]) (demo d) (actor d) (observation d)
          (process d) (resource d) (supplementary d).
Definition append_demo (o : ontology) (d : index_data) : index_data :=
  mk_data (core d) (other d) (demo d ++ [o]) (actor d) (observation d)
          (process d) (resource d) (supplementary d).
Definition append_actor (o : ontology) (d : index_data) : index_data :=
  mk_data (core d) (other d) (demo d) (actor d ++ [o]) (observation d)
          (process d) (resource d) (supplementary d).
Definition append_observation (o : ontology) (d : index_data) : index_data :=
  mk_data (core d) (other d) (demo d) (actor d) (observation d ++ [o])
          (process d) (resource d) (supplementary d).
Definition append_process (o : ontology) (d : index_data) : index_data :=
  mk_data (core d) (other d) (demo d) (actor d) (observation d)
          (process d ++ [o]) (resource d) (supplementary d).
Definition append_resource (o : ontology) (d : index_data) : index_data :=
  mk_data (core d) (other d) (demo d) (actor d) (observation d)
          (process d) (resource d ++ [o]) (supplementary d).
Definition append_supplementary (o : ontology) (d : index_data) : index_data :=
  mk_data (core d) (other d) (demo d) (actor d) (observation d)
          (process d) (resource d) (supplementary d ++ [o]).

(** What the index step sees of the outside world. *)
Record index_world : Type := mk_index_world {
  glob : string -> list string;
  (** opening and reading the template file *)
  read_template : result string;
  (** [compiler.compile] on the template source *)
  compile_template : string -> result unit;
  (** opening a path for writing, which empties the file *)
  open_output : string -> result unit;
  (** applying the compiled template of a source to the data *)
  render : string -> index_data -> result string;
  (** writing the rendered text to the opened path *)
  write_file : string -> string -> result unit
}.

(** The exit status of the process once [main] has ended, as a POSIX shell
    reports it: [sys.exit(code)] gives the low eight bits of [code], an
    uncaught [KeyboardInterrupt] ends the process by the interrupt signal
    (status 130), any other uncaught exception ends it with a traceback and
    status 1. *)
Definition exit_status (r : result unit) : Z :=
  match r with
  | Ok _ => 0
  | Raise (SystemExit code) => code mod 256
  | Raise KeyboardInterrupt => 130
  | Raise _ => 1
  end.

(** ** build_index.py *)

Module BuildIndex.

Definition template_file : string := "index.hbs".

Definition core_names : list string :=
  ["actorODP"; "observation"; "processODP"; "product"; "resourceODP"; "location"].
Definition core_actor : list string := ["actorODP"].
Definition core_process : list string := ["processODP"].
Definition core_resource : list string := ["resourceODP"; "product"].
Definition core_obsrvation : list string := ["observation"].
Definition core_supplementary : list string := ["location"].

(** Lines 58 to 65: create the entry on first sight of the name, append the
    version, sort the versions in reverse. *)
Definition add_version (ontologies : dict ontology) (n version : string)
  : dict ontology :=
  let o := match dict_get n ontologies with
           | Some o => o
           | None => mk_ontology n []
           end in
  dict_set n
    (mk_ontology (name o) (list_sort_reverse String.leb (versions o ++ [version])))
    ontologies.

(** The body of the loop over [glob]'s results, lines 52 to 65.  A failed
    match leaves [parts] as [None], and [parts.group] raises. *)
Definition scan_source (type : string) (ontologies : dict ontology)
  (source : string) : result (dict ontology) :=
  if negb (endswith source ".ttl") then Ok ontologies
  else match re_match type source with
       | None => Raise AttributeError
       | Some (n, version) => Ok (add_version ontologies n version)
       end.

Definition scan (type : string) (sources : list string) : result (dict ontology) :=
  for_each (scan_source type) sources [].

(** The body of the loop over the names, lines 69 to 90. *)
Definition split_entry (type : string) (d : index_data) (kv : string * ontology)
  : index_data :=
  let n := fst kv in
  let o := mk_ontology n (versions (snd kv)) in
  if String.eqb type "demo" then append_demo o d
  else if in_list n core_names then
    let d := append_core o d in
    let d := if in_list n core_actor then append_actor o d else d in
    let d := if in_list n core_process then append_process o d else d in
    let d := if in_list n core_resource then append_resource o d else d in
    let d := if in_list n core_obsrvation then append_observation o d else d in
    let d := if in_list n core_supplementary then append_supplementary o d else d in
    d
  else append_other o d.

(** One round of the loop over the types, lines 50 to 90. *)
Definition process_type (w : index_world) (d : index_data) (type : string)
  : result index_data :=
  ontologies <- scan type (glob w (glob_pattern type)) ;;
  Ok (fold_left (split_entry type) ontologies d).

(** Lines 92 and 93. *)
Definition sort_buckets (d : index_data) : index_data :=
  mk_data (list_sort name_leb (core d)) (list_sort name_leb (other d))
          (list_sort name_leb (demo d)) (list_sort name_leb (actor d))
          (list_sort name_leb (observation d)) (list_sort name_leb (process d))
          (list_sort name_leb (resource d)) (list_sort name_leb (supplementary d)).

(** Lines 38 to 93: the data handed to the template. *)
Definition build_data (w : index_world) : result index_data :=
  d <- for_each (process_type w) types empty_data ;;
  Ok (sort_buckets d).

(** Lines 96 to 100: the template is read and compiled, then the output is
    opened, and only then is the template applied and the text written. *)
Definition write_index (w : index_world) (index_file : string) (d : index_data)
  : result unit :=
  src <- read_template w ;;
  compiled <- compile_template w src ;;
  opened <- open_output w index_file ;;
  text <- render w src d ;;
  write_file w index_file text.

Definition create_index_file (w : index_world) (index_file : string) : result unit :=
  d <- build_data w ;;
  write_index w index_file d.

(** [main], with [sys.argv[1:]] as [args]; nothing catches what
    [create_index_file] raises. *)
Definition main (w : index_world) (args : list string) : result unit :=
  let index_file := match args with
                    | a :: _ => a
                    | [] => "docs/index.html"
                    end in
  create_index_file w index_file.

End BuildIndex.

(** ** build_local.py *)

(** A [pathlib.Path], as its parts. *)
Definition path : Type := list string.

(** [str(p)] *)
Definition path_str (p : path) : string := String.concat "/" p.

(** [p.relative_to(base)]: raises when [base] is not a prefix of [p]. *)
Fixpoint relative_to (p base : path) : result path :=
  match base with
  | [] => Ok p
  | b :: base' =>
      match p with
      | x :: p' => if String.eqb x b then relative_to p' base' else Raise ValueError
      | [] => Raise ValueError
      end
  end.

(** [p.parent] *)
Definition parent (p : path) : path := removelast p.

(** A directory tree: what [iterdir] lists, in listing order. *)
#[local] Set Warnings "-register-all".
Inductive node : Type :=
| File (content : string)
| Dir (entries : list (string * node)).

Definition is_dir (n : node) : bool :=
  match n with
  | Dir _ => true
  | File _ => false
  end.

Definition lookup (nm : string) (entries : list (string * node)) : option node :=
  dict_get nm entries.

(** The entries without those called [nm]. *)
Definition remove_entry (nm : string) (entries : list (string * node))
  : list (string * node) :=
  filter (fun e => negb (String.eqb (fst e) nm)) entries.

Module BuildLocal.

Definition WIDOCO_VERSION : string := "1.4.25".
Definition WIDOCO_JAR_PATH : string := "tools/widoco-" ++ WIDOCO_VERSION ++ ".jar".
Definition ONTOLOGY_DIR : path := ["ontology"].
Definition DOCS_DIR : path := ["docs"; "dev"].
Definition WIDOCO_OPTIONS : list string :=
  ["-rewriteAll"; "-includeImportedOntologies"; "-webVowl"; "-licensius"].

(** Why a documentation run failed. *)
Inductive failure : Type :=
| ReturnCode (code : Z)
| TimedOut
| Error (e : exn).

(** What the driver prints and does, in order. *)
Inductive event : Type :=
| JavaFound
| JavaMissing
| JarFound
| JarMissing
| NoOntologyFiles
| Found (n : nat)
| Processing (f : path)
| RunWidoco (cmd : list string) (timeout : Z)
| DocGenerated (f : path)
| Renamed (f : path)
| DocFailed (f : path) (why : failure)
| LatestCreated (category module version : string)
| IndexGenerated
| IndexFailed (e : exn)
| IndexWarning
| Summary (total succeeded failed : nat)
| SomeFailed
| AllSucceeded.

(** What the driver sees of the outside world. *)
Record world : Type := mk_world {
  (** running java -version: its stderr, or what [subprocess.run] raises *)
  java_version : result string;
  (** [os.path.exists] of the jar *)
  jar_exists : bool;
  (** the result of [find_ontology_files] *)
  ontology_files : list path;
  (** [mkdir(parents=True, exist_ok=True)] *)
  mkdir : path -> result unit;
  (** [subprocess.run(cmd, timeout=t)]: return code and stderr, or what it
      raises *)
  run : list string -> Z -> result (Z * string);
  exists_file : path -> bool;
  rename : path -> path -> result unit;
  (** the tree under docs/dev when the latest folders are made *)
  docs : node;
  index : index_world
}.

(** Computations that print and may raise: the events so far and the
    result. *)
Definition io (A : Type) : Type := list event * result A.

Definition ret {A : Type} (a : A) : io A := ([], Ok a).
Definition raise {A : Type} (e : exn) : io A := ([], Raise e).
Definition say (ev : event) : io unit := ([ev], Ok tt).
Definition lift {A : Type} (r : result A) : io A := ([], r).

Definition io_bind {A B : Type} (m : io A) (k : A -> io B) : io B :=
  match m with
  | (l1, Ok a) => let (l2, r) := k a in (l1 ++ l2, r)
  | (l1, Raise e) => (l1, Raise e)
  end.

Notation "x <~ m ;; k" := (io_bind m (fun x => k))
  (at level 61, m at next level, right associativity).
Notation "m ;;; k" := (io_bind m (fun _ => k))
  (at level 61, right associativity).

(** [[f(x) for x in xs]] in [io]. *)
Fixpoint io_map {A B : Type} (f : A -> io B) (xs : list A) : io (list B) :=
  match xs with
  | [] => ret []
  | x :: xs' => y <~ f x ;; ys <~ io_map f xs' ;; ret (y :: ys)
  end.

(** [for x in xs: st = body st x] in [io]. *)
Fixpoint io_for {A S : Type} (body : S -> A -> io S) (xs : list A) (st : S) : io S :=
  match xs with
  | [] => ret st
  | x :: xs' => st' <~ body st x ;; io_for body xs' st'
  end.

Definition check_widoco (w : world) : io bool :=
  if jar_exists w then say JarFound ;;; ret true
  else say JarMissing ;;; ret false.

(** Only [FileNotFoundError] is caught. *)
Definition check_java (w : world) : io bool :=
  match java_version w with
  | Ok _ => say JavaFound ;;; ret true
  | Raise FileNotFoundError => say JavaMissing ;;; ret false
  | Raise e => raise e
  end.

(** The two [except] clauses of [generate_documentation]. *)
Definition handle_run_error (f : path) (e : exn) : io bool :=
  match e with
  | TimeoutExpired => say (DocFailed f TimedOut) ;;; ret false
  | _ => if is_Exception e then say (DocFailed f (Error e)) ;;; ret false
         else raise e
  end.

Definition widoco_cmd (ontology_file output_dir : path) : list string :=
  ["java"; "-jar"; WIDOCO_JAR_PATH; "-ontFile"; path_str ontology_file;
   "-outFolder"; path_str output_dir] ++ WIDOCO_OPTIONS.

Definition generate_documentation (w : world) (ontology_file : path) : io bool :=
  say (Processing ontology_file) ;;;
  relative_path <~ lift (relative_to ontology_file ONTOLOGY_DIR) ;;
  let dir_path := parent relative_path in
  let output_dir := DOCS_DIR ++ dir_path in
  lift (mkdir w output_dir) ;;;
  let cmd := widoco_cmd ontology_file output_dir in
  say (RunWidoco cmd 300) ;;;
  match run w cmd 300 with
  | Ok (returncode, _) =>
      if (returncode =? 0)%Z then
        say (DocGenerated ontology_file) ;;;
        let index_en := output_dir ++ ["index-en.html"] in
        let index_html := output_dir ++ ["index.html"] in
        if exists_file w index_en then
          match rename w index_en index_html with
          | Ok _ => say (Renamed ontology_file) ;;; ret true
          | Raise e => handle_run_error ontology_file e
          end
        else ret true
      else say (DocFailed ontology_file (ReturnCode returncode)) ;;; ret false
  | Raise e => handle_run_error ontology_file e
  end.

(** *** Latest folders *)

(** [[int(p) for p in name.split('.')]] *)
Definition version_key (nm : string) : result (list Z) :=
  map_result int (split "." nm).

(** The test of the comprehension at lines 170 to 173; [and] evaluates its
    operands from the left and stops at the first false one. *)
Definition is_version_dir (d : string * node) : result bool :=
  if negb (is_dir (snd d)) then Ok false
  else if String.eqb (fst d) "latest" then Ok false
  else first_isdigit (fst d).

Definition key_leb (a b : list Z * (string * node)) : bool :=
  list_Z_leb (fst a) (fst b).

(** [version_dirs.sort(key=...)]: the keys of all elements are computed
    first, then the list is sorted on them. *)
Definition sort_version_dirs (version_dirs : list (string * node))
  : result (list (string * node)) :=
  keyed <- map_result (fun d => k <- version_key (fst d) ;; Ok (k, d)) version_dirs ;;
  Ok (map snd (list_sort key_leb keyed)).

(** [version_dirs[-1]] after the sort, for a module directory's entries;
    [None] when there is no version directory. *)
Definition latest_version (entries : list (string * node))
  : result (option (string * node)) :=
  version_dirs <- filter_result is_version_dir entries ;;
  match version_dirs with
  | [] => Ok None
  | _ :: _ =>
      sorted <- sort_version_dirs version_dirs ;;
      Ok (Some (last sorted ("", Dir [])))
  end.

(** Lines 186 to 192: [rmtree] of an existing latest (it raises on a plain
    file), then [copytree]. *)
Definition replace_latest (entries : list (string * node)) (latest : node)
  : result (list (string * node)) :=
  match lookup "latest" entries with
  | Some (File _) => Raise NotADirectoryError
  | _ => Ok (remove_entry "latest" entries ++ [("latest", latest)])
  end.

(** The body of the loop over the modules of a category. *)
Definition process_module (category : string) (m : string * node)
  : io (string * node) :=
  match snd m with
  | File _ => ret m
  | Dir entries =>
      latest <~ lift (latest_version entries) ;;
      match latest with
      | None => ret m
      | Some v =>
          entries' <~ lift (replace_latest entries (snd v)) ;;
          say (LatestCreated category (fst m) (fst v)) ;;;
          ret (fst m, Dir entries')
      end
  end.

(** The body of the loop over the categories. *)
Definition process_category (c : string * node) : io (string * node) :=
  match snd c with
  | File _ => ret c
  | Dir modules =>
      if String.eqb (fst c) "dev" then ret c
      else modules' <~ io_map (process_module (fst c)) modules ;;
           ret (fst c, Dir modules')
  end.

(** [create_latest_folders], from the tree under docs/dev to the tree it
    leaves. *)
Definition create_latest_folders (docs_tree : node) : io node :=
  match docs_tree with
  | File _ => raise NotADirectoryError
  | Dir categories =>
      categories' <~ io_map process_category categories ;;
      ret (Dir categories')
  end.

(** *** The index step *)

Definition template_file : string := "index.hbs".
Definition index_file : string := "docs/dev/index.html".

Definition core_names : list string :=
  ["actorODP"; "observation"; "processODP"; "product"; "resourceODP"; "location"].
Definition core_actor : list string := ["actorODP"].
Definition core_process : list string := ["processODP"].
Definition core_resource : list string := ["resourceODP"; "product"].
Definition core_observation : list string := ["observation"].
Definition core_supplementary : list string := ["location"].

(** Lines 235 to 242. *)
Definition add_version (ontologies : dict ontology) (n version : string)
  : dict ontology :=
  let o := match dict_get n ontologies with
           | Some o => o
           | None => mk_ontology n []
           end in
  dict_set n
    (mk_ontology (name o) (list_sort_reverse String.leb (versions o ++ [version])))
    ontologies.

(** Lines 228 to 242. *)
Definition scan_source (type : string) (ontologies : dict ontology)
  (source : string) : result (dict ontology) :=
  if negb (endswith source ".ttl") then Ok ontologies
  else match re_match type source with
       | None => Raise AttributeError
       | Some (n, version) => Ok (add_version ontologies n version)
       end.

Definition scan (type : string) (sources : list string) : result (dict ontology) :=
  for_each (scan_source type) sources [].

(** Lines 246 to 269. *)
Definition split_entry (type : string) (d : index_data) (kv : string * ontology)
  : index_data :=
  let n := fst kv in
  let o := mk_ontology n (versions (snd kv)) in
  if String.eqb type "demo" then append_demo o d
  else if in_list n core_names then
    let d := append_core o d in
    let d := if in_list n core_actor then append_actor o d else d in
    let d := if in_list n core_process then append_process o d else d in
    let d := if in_list n core_resource then append_resource o d else d in
    let d := if in_list n core_observation then append_observation o d else d in
    let d := if in_list n core_supplementary then append_supplementary o d else d in
    d
  else append_other o d.

Definition process_type (w : index_world) (d : index_data) (type : string)
  : result index_data :=
  ontologies <- scan type (glob w (glob_pattern type)) ;;
  Ok (fold_left (split_entry type) ontologies d).

(** Lines 272 and 273. *)
Definition sort_buckets (d : index_data) : index_data :=
  mk_data (list_sort name_leb (core d)) (list_sort name_leb (other d))
          (list_sort name_leb (demo d)) (list_sort name_leb (actor d))
          (list_sort name_leb (observation d)) (list_sort name_leb (process d))
          (list_sort name_leb (resource d)) (list_sort name_leb (supplementary d)).

(** Lines 212 to 273. *)
Definition build_data (w : index_world) : result index_data :=
  d <- for_each (process_type w) types empty_data ;;
  Ok (sort_buckets d).

(** The body of the [try], lines 277 to 281: the template is read and
    compiled, then the output is opened, and only then is the template
    applied and the text written. *)
Definition write_index (w : index_world) (d : index_data) : result unit :=
  src <- read_template w ;;
  compiled <- compile_template w src ;;
  opened <- open_output w index_file ;;
  text <- render w src d ;;
  write_file w index_file text.

(** The data is built outside the [try]; [except Exception] guards only the
    template and the write. *)
Definition create_index_file (w : index_world) : io bool :=
  d <~ lift (build_data w) ;;
  match write_index w d with
  | Ok _ => say IndexGenerated ;;; ret true
  | Raise e =>
      if is_Exception e then say (IndexFailed e) ;;; ret false
      else raise e
  end.

(** *** The driver *)

(** The loop of lines 328 to 332 on the pair of counters. *)
Definition count_file (w : world) (counts : nat * nat) (ontology_file : path)
  : io (nat * nat) :=
  ok <~ generate_documentation w ontology_file ;;
  if ok then ret (S (fst counts), snd counts)
  else ret (fst counts, S (snd counts)).

Definition sys_exit {A : Type} (code : Z) : io A := raise (SystemExit code).

Definition main (w : world) : io unit :=
  java <~ check_java w ;;
  if negb java then sys_exit 1 else
  jar <~ check_widoco w ;;
  if negb jar then sys_exit 1 else
  let files := ontology_files w in
  match files with
  | [] => say NoOntologyFiles ;;; sys_exit 1
  | _ :: _ =>
      say (Found (length files)) ;;;
      counts <~ io_for (count_file w) files (0, 0)%nat ;;
      let success_count := fst counts in
      let fail_count := snd counts in
      (if (0 <? success_count)%nat then
         create_latest_folders (docs w) ;;;
         indexed <~ create_index_file (index w) ;;
         if negb indexed then say IndexWarning else ret tt
       else ret tt) ;;;
      say (Summary (length files) success_count fail_count) ;;;
      if (0 <? fail_count)%nat then say SomeFailed ;;; sys_exit 1
      else say AllSucceeded
  end.

(** *** Discovery of the ontology files *)

(** [p.exists()] and what is there, for a path relative to the working
    directory [cwd]; a plain file has nothing below it. *)
Fixpoint lookup_path (cwd : node) (p : path) : option node :=
  match p with
  | [] => Some cwd
  | nm :: p' =>
      match cwd with
      | Dir entries =>
          match lookup nm entries with
          | Some child => lookup_path child p'
          | None => None
          end
      | File _ => None
      end
  end.

(** [fnmatch] for the patterns of [extensions]: a star, then literal text,
    compared with regard to case as on POSIX systems. *)
Definition fnmatch (nm pattern : string) : bool :=
  match pattern with
  | String c suffix => if Ascii.eqb c "*" then endswith nm suffix else String.eqb nm pattern
  | EmptyString => String.eqb nm pattern
  end.

(** [here.rglob(pattern)] for the directory [n] at [here]: every entry
    below it, at any depth, file or directory, whose name matches.  The order
    of the walk is of no account, the caller sorts. *)
Fixpoint rglob (pattern : string) (here : path) (n : node) {struct n} : list path :=
  match n with
  | File _ => []
  | Dir entries =>
      flat_map (fun e =>
                  match e with
                  | (nm, child) =>
                      (if fnmatch nm pattern then [here ++ [nm]] else []) ++
                      rglob pattern (here ++ [nm]) child
                  end) entries
  end.

(** [a <= b] on paths: the order of the lists of their parts. *)
Fixpoint path_leb (a b : path) : bool :=
  match a, b with
  | [], _ => true
  | _ :: _, [] => false
  | x :: a', y :: b' =>
      match String.compare x y with
      | Lt => true
      | Gt => false
      | Eq => path_leb a' b'
      end
  end.

Definition extensions : list string := ["*.owl"; "*.ttl"; "*.rdf"].

(** The search of one of the two folders, lines 76 to 83. *)
Definition search_folder (cwd : node) (folder : path) : list path :=
  match lookup_path cwd folder with
  | Some n => flat_map (fun ext => rglob ext folder n) extensions
  | None => []
  end.

Definition find_ontology_files (cwd : node) : list path :=
  let ontology_path := ONTOLOGY_DIR in
  match lookup_path cwd ontology_path with
  | None => []
  | Some _ =>
      let modules_path := ontology_path ++ ["modules"] in
      let demo_path := ontology_path ++ ["demo"] in
      list_sort path_leb (search_folder cwd modules_path ++ search_folder cwd demo_path)
  end.

End BuildLocal.

(** ** Vocabulary of the statements *)

(** The relations a sort with order [le] establishes between neighbours:
    ascending for [list.sort], descending for [reverse=True]. *)
Definition ascending {A : Type} (le : A -> A -> bool) (a b : A) : Prop :=
  le a b = true.
Definition descending {A : Type} (le : A -> A -> bool) (a b : A) : Prop :=
  le b a = true.

(** The (name, version) pairs that the sources with the indexable extension
    give, in the order of the sources. *)
Definition triples (type : string) (sources : list string) : list (string * string) :=
  flat_map (fun source =>
              if endswith source ".ttl" then
                match re_match type source with
                | Some p => [p]
                | None => []
                end
              else []) sources.

(** The versions paired with a name, in order, with their repetitions. *)
Definition versions_of (n : string) (pairs : list (string * string)) : list string :=
  map snd (filter (fun p => String.eqb (fst p) n) pairs).

(** The loop over the sources, seen on the pairs it extracts. *)
Definition accumulate (pairs : list (string * string)) (ontologies : dict ontology)
  : dict ontology :=
  fold_left (fun o p => BuildIndex.add_version o (fst p) (snd p)) pairs ontologies.

(** The bucket entry made from an item of the dict of a type. *)
Definition entry_of (kv : string * ontology) : ontology :=
  mk_ontology (fst kv) (versions (snd kv)).

(** The entries of the items whose name passes a test, in dict order. *)
Definition select (p : string -> bool) (ontologies : dict ontology) : list ontology :=
  map entry_of (filter (fun kv => p (fst kv)) ontologies).

(** The membership test of a secondary tag: the name is in the core table
    and in the tag's table. *)
Definition tagged (table : list string) (n : string) : bool :=
  in_list n BuildIndex.core_names && in_list n table.

(** The data before the final sort, from the dicts of the two types. *)
Definition classify (modules_dict demo_dict : dict ontology) : index_data :=
  mk_data
    (select (fun n => in_list n BuildIndex.core_names) modules_dict)
    (select (fun n => negb (in_list n BuildIndex.core_names)) modules_dict)
    (map entry_of demo_dict)
    (select (tagged BuildIndex.core_actor) modules_dict)
    (select (tagged BuildIndex.core_obsrvation) modules_dict)
    (select (tagged BuildIndex.core_process) modules_dict)
    (select (tagged BuildIndex.core_resource) modules_dict)
    (select (tagged BuildIndex.core_supplementary) modules_dict).

(** The data with lists appended to its buckets. *)
Definition data_app (d e : index_data) : index_data :=
  mk_data (core d ++ core e) (other d ++ other e) (demo d ++ demo e)
          (actor d ++ actor e) (observation d ++ observation e)
          (process d ++ process e) (resource d ++ resource e)
          (supplementary d ++ supplementary e).

(** A (name, version) pair found on disk for a type: some source listed by
    [glob] has the indexable extension and yields the pair. *)
Definition found (w : index_world) (type n v : string) : Prop :=
  exists source,
    In source (glob w (glob_pattern type)) /\
    endswith source ".ttl" = true /\
    re_match type source = Some (n, v).

(** The bucket holds an entry of that name listing that version. *)
Definition placed (n v : string) (bucket : list ontology) : Prop :=
  exists o, In o bucket /\ name o = n /\ In v (versions o).

(** The bucket holds no entry of that name. *)
Definition absent (n : string) (bucket : list ontology) : Prop :=
  forall o, In o bucket -> name o <> n.

(** The secondary buckets, each with its membership table. *)
Definition tag_buckets (d : index_data) : list (list string * list ontology) :=
  [(BuildIndex.core_actor, actor d);
   (BuildIndex.core_process, process d);
   (BuildIndex.core_resource, resource d);
   (BuildIndex.core_obsrvation, observation d);
   (BuildIndex.core_supplementary, supplementary d)].

(** An outside world for the index step in which only [glob] matters. *)
Definition world_of_glob (g : string -> list string) : index_world :=
  mk_index_world g (Ok "") (fun _ => Ok tt) (fun _ => Ok tt)
                 (fun _ _ => Ok "") (fun _ _ => Ok tt).

(** Modules actorODP (versions 0.1 and 0.2) and widgetX (version 0.1), and a
    file without the indexable extension. *)
Definition example_world : index_world :=
  world_of_glob (fun pattern =>
    if String.eqb pattern "ontology/modules/*/*/*" then
      ["ontology/modules/widgetX/0.1/widgetX.ttl";
       "ontology/modules/actorODP/0.1/actorODP.ttl";
       "ontology/modules/actorODP/0.2/actorODP.ttl";
       "ontology/modules/actorODP/0.2/README.md"]
    else []).

(** One module with the version directories 0.2, 0.10 and 1.0. *)
Definition versions_world : index_world :=
  world_of_glob (fun pattern =>
    if String.eqb pattern "ontology/modules/*/*/*" then
      ["ontology/modules/m/0.2/m.ttl";
       "ontology/modules/m/0.10/m.ttl";
       "ontology/modules/m/1.0/m.ttl"]
    else []).

(** A bucket after the final sort: the selected entries of the dict that the
    pairs accumulate to. *)
Definition bucket_of (p : string -> bool) (pairs : list (string * string))
  : list ontology :=
  list_sort name_leb (select p (accumulate pairs [])).

(** The data of the worked example: actorODP is a core name tagged actor,
    widgetX is in no table. *)
Definition example_data : index_data :=
  mk_data [mk_ontology "actorODP" ["0.2"; "0.1"]]
          [mk_ontology "widgetX" ["0.1"]]
          []
          [mk_ontology "actorODP" ["0.2"; "0.1"]]
          [] [] [] [].

(** The driver found Java, the jar and a batch that is not empty, and the
    loop over the batch returned, having printed [l], with [s] successes and
    [fl] failures. *)
Definition documented (w : BuildLocal.world) (l : list BuildLocal.event) (s fl : nat)
  : Prop :=
  (exists ver, BuildLocal.java_version w = Ok ver) /\
  BuildLocal.jar_exists w = true /\
  BuildLocal.ontology_files w <> [] /\
  BuildLocal.io_for (BuildLocal.count_file w) (BuildLocal.ontology_files w) (0, 0)%nat
    = (l, Ok (s, fl)).

(** What [main] has printed when the index step begins. *)
Definition before_index (w : BuildLocal.world) (l l2 : list BuildLocal.event)
  : list BuildLocal.event :=
  [BuildLocal.JavaFound; BuildLocal.JarFound;
   BuildLocal.Found (length (BuildLocal.ontology_files w))] ++ l ++ l2.

(** What [main] prints from the summary on, and how it ends. *)
Definition summary_events (w : BuildLocal.world) (s fl : nat) : list BuildLocal.event :=
  [BuildLocal.Summary (length (BuildLocal.ontology_files w)) s fl] ++
  (if (0 <? fl)%nat then [BuildLocal.SomeFailed] else [BuildLocal.AllSucceeded]).

Definition summary_result (fl : nat) : result unit :=
  if (0 <? fl)%nat then Raise (SystemExit 1) else Ok tt.

(** Some source with the indexable extension is not matched by the
    pattern of its type. *)
Definition malformed (w : index_world) : Prop :=
  exists type source,
    In type types /\ In source (glob w (glob_pattern type)) /\
    endswith source ".ttl" = true /\ re_match type source = None.

(** A listing with backslash separators, which the pattern does not
    match. *)
Definition malformed_world : index_world :=
  world_of_glob (fun pattern =>
    if String.eqb pattern "ontology/modules/*/*/*" then
      ["ontology/modules/m/0.1/README.md"; "ontology/modules\m\0.1\m.ttl"]
    else []).

(** The index world of the worked example with a template engine that
    raises. *)
Definition failing_template_world : index_world :=
  mk_index_world (glob example_world) (Ok "{{#each data.core}}")
                 (fun _ => Ok tt) (fun _ => Ok tt)
                 (fun _ _ => Raise TemplateError) (fun _ _ => Ok tt).

(** A driver world with Java and the jar, the given batch and index world,
    in which directories can be made, the external tool returns the code
    [code file] for the ontology file at position 4 of its command line, and
    the generated tree holds one module with three versions. *)
Definition driver_world (files : list path) (code : string -> Z) (iw : index_world)
  : BuildLocal.world :=
  BuildLocal.mk_world
    (Ok "openjdk version 17") true files
    (fun _ => Ok tt)
    (fun cmd _ => Ok (code (nth 4 cmd ""), ""))
    (fun _ => true)
    (fun _ _ => Ok tt)
    (Dir [("modules",
           Dir [("m", Dir [("0.2", Dir [("index.html", File "a")]);
                           ("0.10", Dir [("index.html", File "b")]);
                           ("1.0", Dir [("index.html", File "c")])])])])
    iw.

Definition one_file : list path := [["ontology"; "modules"; "m"; "0.1"; "m.ttl"]].

(** The output directory [generate_documentation] computes for a file. *)
Definition output_dir_of (f : path) : result path :=
  relative_path <- relative_to f BuildLocal.ONTOLOGY_DIR ;;
  Ok (BuildLocal.DOCS_DIR ++ parent relative_path).

(** The external tool exits with code 0 for the file, and renaming the
    generated page, when there is one, does not raise. *)
Definition doc_ok (w : BuildLocal.world) (f : path) : bool :=
  match output_dir_of f with
  | Ok out =>
      match BuildLocal.run w (BuildLocal.widoco_cmd f out) 300 with
      | Ok (code, _) =>
          (code =? 0)%Z &&
          (if BuildLocal.exists_file w (out ++ ["index-en.html"]) then
             match BuildLocal.rename w (out ++ ["index-en.html"]) (out ++ ["index.html"]) with
             | Ok _ => true
             | Raise _ => false
             end
           else true)
      | Raise _ => false
      end
  | Raise _ => false
  end.

(** Nothing but the external tool fails for the file: its output directory
    can be computed and made, and what the tool or the rename raise is
    an [Exception]. *)
Definition well_behaved (w : BuildLocal.world) (f : path) : Prop :=
  exists out,
    output_dir_of f = Ok out /\
    BuildLocal.mkdir w out = Ok tt /\
    (forall e, BuildLocal.run w (BuildLocal.widoco_cmd f out) 300 = Raise e ->
               is_Exception e = true) /\
    (forall e, BuildLocal.rename w (out ++ ["index-en.html"]) (out ++ ["index.html"])
               = Raise e -> is_Exception e = true).

(** The invocations of the external tool among the events, with their
    timeouts. *)
Definition runs (l : list BuildLocal.event) : list (list string * Z) :=
  flat_map (fun ev => match ev with
                      | BuildLocal.RunWidoco cmd timeout => [(cmd, timeout)]
                      | _ => []
                      end) l.

(** The one invocation a file is due: its command line, 300 seconds. *)
Definition expected_run (f : path) : list (list string * Z) :=
  match output_dir_of f with
  | Ok out => [(BuildLocal.widoco_cmd f out, 300%Z)]
  | Raise _ => []
  end.

(** The files the driver has begun to process, from the events. *)
Definition processed (l : list BuildLocal.event) : list path :=
  flat_map (fun ev => match ev with
                      | BuildLocal.Processing f => [f]
                      | _ => []
                      end) l.

Definition two_files : list path :=
  [["ontology"; "modules"; "m"; "0.1"; "m.ttl"];
   ["ontology"; "modules"; "m"; "0.2"; "m.ttl"]].

(** The tool fails on version 0.1 only. *)
Definition fails_on_first (file : string) : Z :=
  if String.eqb file "ontology/modules/m/0.1/m.ttl" then 1%Z else 0%Z.

(** Java, the jar, and no ontology file. *)
Definition empty_batch_world : BuildLocal.world :=
  driver_world [] (fun _ => 0%Z) example_world.

(** Java and the jar are there. *)
Definition prerequisites (w : BuildLocal.world) : Prop :=
  (exists ver, BuildLocal.java_version w = Ok ver) /\ BuildLocal.jar_exists w = true.

(** The steps after the loop over the batch both return. *)
Definition steps_return (w : BuildLocal.world) : Prop :=
  (exists l2 t, BuildLocal.create_latest_folders (BuildLocal.docs w) = (l2, Ok t)) /\
  (exists l3 b, BuildLocal.create_index_file (BuildLocal.index w) = (l3, Ok b)).

(** No Java on the path: [subprocess.run] raises [FileNotFoundError]. *)
Definition no_java_world : BuildLocal.world :=
  BuildLocal.mk_world
    (Raise FileNotFoundError) true one_file
    (fun _ => Ok tt) (fun _ _ => Ok (0%Z, "")) (fun _ => true) (fun _ _ => Ok tt)
    (Dir []) example_world.


(** A generated tree whose only version directory is not numeric. *)
Definition release_candidate_world : BuildLocal.world :=
  BuildLocal.mk_world
    (Ok "openjdk version 17") true
    [["ontology"; "modules"; "m"; "1.0-rc"; "m.ttl"]]
    (fun _ => Ok tt) (fun _ _ => Ok (0%Z, "")) (fun _ => true) (fun _ _ => Ok tt)
    (Dir [("modules", Dir [("m", Dir [("1.0-rc", Dir [("index.html", File "a")])])])])
    example_world.



(** ** Vocabulary of the further properties *)

(** No character of the string is a slash. *)
Definition slash_free (s : string) : bool :=
  forallb (fun c => negb (Ascii.eqb c "/")) (list_ascii_of_string s).

(** The string is empty or begins with a slash: where a path component
    ends. *)
Definition component_end (s : string) : bool :=
  match s with
  | EmptyString => true
  | String c _ => Ascii.eqb c "/"
  end.

(** The text of a path below the directory of a type: the name and version
    components and what follows them. *)
Definition source_of (type n v rest : string) : string :=
  ("ontology/" ++ type ++ "/" ++ n ++ "/" ++ v ++ rest)%string.

(** Every source listed for a type has the shape the glob pattern lists:
    the directory of the type, a name, a version and a file name. *)
Definition glob_shaped (w : index_world) : Prop :=
  forall type source,
    In type types -> In source (glob w (glob_pattern type)) ->
    exists n v file,
      slash_free n = true /\ slash_free v = true /\
      source = source_of type n v ("/" ++ file).

(** The data of a run that returns, from what [glob] lists. *)
Definition expected_data (w : index_world) : index_data :=
  let pm := triples "modules" (glob w (glob_pattern "modules")) in
  let pd := triples "demo" (glob w (glob_pattern "demo")) in
  mk_data
    (bucket_of (fun n => in_list n BuildIndex.core_names) pm)
    (bucket_of (fun n => negb (in_list n BuildIndex.core_names)) pm)
    (bucket_of (fun _ => true) pd)
    (bucket_of (tagged BuildIndex.core_actor) pm)
    (bucket_of (tagged BuildIndex.core_obsrvation) pm)
    (bucket_of (tagged BuildIndex.core_process) pm)
    (bucket_of (tagged BuildIndex.core_resource) pm)
    (bucket_of (tagged BuildIndex.core_supplementary) pm).

(** The listing of the worked example in another order. *)
Definition example_world_reordered : index_world :=
  world_of_glob (fun pattern =>
    if String.eqb pattern "ontology/modules/*/*/*" then
      ["ontology/modules/actorODP/0.2/README.md";
       "ontology/modules/actorODP/0.2/actorODP.ttl";
       "ontology/modules/actorODP/0.1/actorODP.ttl";
       "ontology/modules/widgetX/0.1/widgetX.ttl"]
    else []).

(** A listing without any file of the indexable extension. *)
Definition unindexable_world : index_world :=
  world_of_glob (fun pattern =>
    if String.eqb pattern "ontology/modules/*/*/*" then
      ["ontology/modules/m/0.1/m.owl"; "ontology/modules/m/0.1/README.md"]
    else []).

(** The tree has an entry at the end of the path, followed part by part from
    the node: each part names an entry of the directory reached so far. *)
Fixpoint reaches (n : node) (p : path) : Prop :=
  match p with
  | [] => True
  | nm :: p' =>
      match n with
      | Dir entries => exists child, In (nm, child) entries /\ reaches child p'
      | File _ => False
      end
  end.

(** Induction on trees, with the hypothesis for every entry of a
    directory. *)
Fixpoint node_induction (P : node -> Prop)
  (HFile : forall content, P (File content))
  (HDir : forall entries, Forall (fun e => P (snd e)) entries -> P (Dir entries))
  (n : node) : P n :=
  match n with
  | File content => HFile content
  | Dir entries =>
      HDir entries
        ((fix go (es : list (string * node)) : Forall (fun e => P (snd e)) es :=
            match es with
            | [] => Forall_nil _
            | e :: es' =>
                Forall_cons e (node_induction P HFile HDir (snd e)) (go es')
            end) entries)
  end.

(** The name ends with one of the three extensions of ontology files. *)
Definition ontology_extension (nm : string) : bool :=
  endswith nm ".owl" || endswith nm ".ttl" || endswith nm ".rdf".

(** A working directory with ontology files at several depths, a file of
    another kind, and a directory named like an ontology file. *)
Definition example_cwd : node :=
  Dir [("README.md", File "");
       ("ontology",
        Dir [("modules",
              Dir [("m", Dir [("0.2", Dir [("m.ttl", File ""); ("notes.txt", File "")]);
                              ("0.10", Dir [("m.owl", File "")])]);
                   ("top.rdf", File "")]);
             ("demo", Dir [("d.ttl", Dir [])])])].

(** A module without its entries called latest; a plain file as it is. *)
Definition module_without_latest (m : string * node) : string * node :=
  match snd m with
  | Dir entries => (fst m, Dir (remove_entry "latest" entries))
  | File _ => m
  end.

Definition category_without_latest (c : string * node) : string * node :=
  match snd c with
  | Dir modules => (fst c, Dir (map module_without_latest modules))
  | File _ => c
  end.

(** The generated tree without the latest folders of its modules. *)
Definition without_latest (docs_tree : node) : node :=
  match docs_tree with
  | Dir categories => Dir (map category_without_latest categories)
  | File _ => docs_tree
  end.

(** No two version directories of the listing have the same key. *)
Definition distinct_keys (entries : list (string * node)) : Prop :=
  forall d d',
    In d entries -> In d' entries ->
    BuildLocal.is_version_dir d = Ok true -> BuildLocal.is_version_dir d' = Ok true ->
    BuildLocal.version_key (fst d) = BuildLocal.version_key (fst d') -> d = d'.

(** The generated tree of [driver_world]. *)
Definition example_docs : node :=
  Dir [("modules",
        Dir [("m", Dir [("0.2", Dir [("index.html", File "a")]);
                        ("0.10", Dir [("index.html", File "b")]);
                        ("1.0", Dir [("index.html", File "c")])])])].

(** The tool fails on every file. *)
Definition always_fails (file : string) : Z := 2%Z.

(** The output directory of the second file of the batch cannot be made. *)
Definition mkdir_fails_world : BuildLocal.world :=
  BuildLocal.mk_world
    (Ok "openjdk version 17") true two_files
    (fun p => if String.eqb (path_str p) "docs/dev/modules/m/0.2" then Raise OSError
              else Ok tt)
    (fun _ _ => Ok (0%Z, "")) (fun _ => false) (fun _ _ => Ok tt)
    example_docs example_world.

(** The generated page of every file is there and cannot be renamed. *)
Definition rename_fails_world : BuildLocal.world :=
  BuildLocal.mk_world
    (Ok "openjdk version 17") true one_file
    (fun _ => Ok tt) (fun _ _ => Ok (0%Z, "")) (fun _ => true) (fun _ _ => Raise OSError)
    example_docs example_world.

(** The template or the write raises [e]: reading the template, compiling
    it, opening the output file, applying the template to the data or
    writing the text, each step being reached only when those before it have
    returned. *)
Definition index_output_raises (w : index_world) (index_file : string)
  (d : index_data) (e : exn) : Prop :=
  read_template w = Raise e \/
  exists src, read_template w = Ok src /\
    (compile_template w src = Raise e \/
     compile_template w src = Ok tt /\
     (open_output w index_file = Raise e \/
      open_output w index_file = Ok tt /\
      (render w src d = Raise e \/
       exists text, render w src d = Ok text /\
                    write_file w index_file text = Raise e))).

(** The index world of the worked example in which the output cannot be
    opened and the template could not be applied either. *)
Definition unwritable_world : index_world :=
  mk_index_world (glob example_world) (Ok "{{#each data.core}}")
                 (fun _ => Ok tt) (fun _ => Raise OSError)
                 (fun _ _ => Raise TemplateError) (fun _ _ => Ok tt).

(** The first character of the string is one for which [str.isdigit]
    holds. *)
Definition begins_with_digit (s : string) : bool :=
  match decode_first s with
  | Some (cp, _) => unicode_isdigit cp
  | None => false
  end.










(** A listing in no particular order: six modules, three of them core
    names, with up to three version directories each, and two demos. *)
Definition ordering_world : index_world :=
  world_of_glob (fun pattern =>
    if String.eqb pattern "ontology/modules/*/*/*" then
      ["ontology/modules/widgetX/0.1/widgetX.ttl";
       "ontology/modules/product/0.2/product.ttl";
       "ontology/modules/actorODP/0.2/actorODP.ttl";
       "ontology/modules/resourceODP/0.9/resourceODP.ttl";
       "ontology/modules/Zeta/1.0/Zeta.ttl";
       "ontology/modules/actorODP/0.10/actorODP.ttl";
       "ontology/modules/gadget/0.9/gadget.ttl";
       "ontology/modules/actorODP/1.0/actorODP.ttl";
       "ontology/modules/resourceODP/0.10/resourceODP.ttl"]
    else if String.eqb pattern "ontology/demo/*/*/*" then
      ["ontology/demo/showcase/0.1/showcase.ttl";
       "ontology/demo/basics/0.1/basics.ttl";
       "ontology/demo/basics/0.2/basics.ttl"]
    else []).

(** The data of that listing. *)
Definition ordering_data : index_data :=
  mk_data [mk_ontology "actorODP" ["1.0"; "0.2"; "0.10"];
           mk_ontology "product" ["0.2"];
           mk_ontology "resourceODP" ["0.9"; "0.10"]]
          [mk_ontology "Zeta" ["1.0"];
           mk_ontology "gadget" ["0.9"];
           mk_ontology "widgetX" ["0.1"]]
          [mk_ontology "basics" ["0.2"; "0.1"];
           mk_ontology "showcase" ["0.1"]]
          [mk_ontology "actorODP" ["1.0"; "0.2"; "0.10"]]
          [] []
          [mk_ontology "product" ["0.2"];
           mk_ontology "resourceODP" ["0.9"; "0.10"]]
          [].

(** * Properties *)

(** ** The order of strings *)

Lemma string_compare_trans (s1 s2 s3 : string) :
  String.compare s1 s2 <> Gt -> String.compare s2 s3 <> Gt ->
  String.compare s1 s3 <> Gt.
Proof.
  revert s2 s3.
  induction s1 as [|a s1 IH]; intros [|b s2] [|c s3]; simpl; try congruence.
  unfold Ascii.compare.
  destruct (N.compare_spec (N_of_ascii a) (N_of_ascii b));
    destruct (N.compare_spec (N_of_ascii b) (N_of_ascii c));
    destruct (N.compare_spec (N_of_ascii a) (N_of_ascii c));
    try congruence; try lia; eauto.
Qed.

Lemma string_leb_trans (s1 s2 s3 : string) :
  String.leb s1 s2 = true -> String.leb s2 s3 = true -> String.leb s1 s3 = true.
Proof.
  unfold String.leb. intros H12 H23.
  assert (H : String.compare s1 s3 <> Gt).
  { apply (string_compare_trans s1 s2 s3).
    - destruct (String.compare s1 s2); congruence.
    - destruct (String.compare s2 s3); congruence. }
  destruct (String.compare s1 s3); congruence.
Qed.

Lemma string_leb_refl (s : string) : String.leb s s = true.
Proof. destruct (String.leb_total s s); assumption. Qed.

(** ** The order of integer lists *)

Lemma list_Z_leb_total (a b : list Z) : list_Z_leb a b = true \/ list_Z_leb b a = true.
Proof.
  revert b. induction a as [|x a IH]; intros [|y b]; simpl; auto.
  destruct (Z.ltb_spec x y); destruct (Z.ltb_spec y x); auto; lia.
Qed.

Lemma list_Z_leb_trans (a b c : list Z) :
  list_Z_leb a b = true -> list_Z_leb b c = true -> list_Z_leb a c = true.
Proof.
  revert b c.
  induction a as [|x a IH]; intros [|y b] [|z c]; simpl; try congruence.
  destruct (Z.ltb_spec x y); destruct (Z.ltb_spec y x);
    destruct (Z.ltb_spec y z); destruct (Z.ltb_spec z y);
    destruct (Z.ltb_spec x z); destruct (Z.ltb_spec z x);
    try congruence; try lia; eauto.
Qed.

(** ** Sorting *)

Section SortFacts.
Context {A : Type} (le : A -> A -> bool).

Local Abbreviation ascending := (ascending le).
Local Abbreviation descending := (descending le).

Lemma insert_perm (x : A) (l : list A) : Permutation (insert le x l) (x :: l).
Proof.
  induction l as [|y l IH]; simpl; auto.
  destruct (le x y); auto.
  rewrite IH. apply perm_swap.
Qed.

Lemma list_sort_perm (l : list A) : Permutation (list_sort le l) l.
Proof.
  induction l as [|x l IH]; simpl; auto.
  rewrite insert_perm. auto.
Qed.

Lemma list_sort_reverse_perm (l : list A) : Permutation (list_sort_reverse le l) l.
Proof.
  unfold list_sort_reverse.
  rewrite <- Permutation_rev, list_sort_perm, <- Permutation_rev. reflexivity.
Qed.

Lemma In_list_sort (l : list A) (x : A) : In x (list_sort le l) <-> In x l.
Proof.
  split; apply Permutation_in; [|symmetry]; apply list_sort_perm.
Qed.

Hypothesis le_total : forall a b, le a b = true \/ le b a = true.

Lemma insert_sorted (x : A) (l : list A) :
  Sorted ascending l -> Sorted ascending (insert le x l).
Proof.
  induction l as [|y l IH]; simpl; intros Hs.
  - repeat constructor.
  - destruct (le x y) eqn:E.
    + constructor; auto.
    + apply Sorted_inv in Hs as [Hs Hd].
      constructor; auto.
      assert (Hyx : ascending y x) by (destruct (le_total x y); congruence).
      destruct l as [|z l]; simpl in *.
      * constructor; assumption.
      * destruct (le x z); constructor; auto.
        inversion Hd; assumption.
Qed.

Lemma list_sort_sorted (l : list A) : Sorted ascending (list_sort le l).
Proof.
  induction l; simpl; [constructor | apply insert_sorted; assumption].
Qed.

(** Sorting changes nothing in a sorted list. *)
Lemma list_sort_id (l : list A) : Sorted ascending l -> list_sort le l = l.
Proof.
  induction l as [|x l IH]; simpl; intros Hs; auto.
  apply Sorted_inv in Hs as [Hs Hd].
  rewrite IH by assumption.
  destruct Hd as [|y l Hxy]; simpl; auto.
  unfold ascending in Hxy. rewrite Hxy. reflexivity.
Qed.

Lemma list_sort_idem (l : list A) : list_sort le (list_sort le l) = list_sort le l.
Proof. apply list_sort_id, list_sort_sorted. Qed.

Lemma list_sort_reverse_idem (l : list A) :
  list_sort_reverse le (list_sort_reverse le l) = list_sort_reverse le l.
Proof.
  unfold list_sort_reverse. rewrite rev_involutive, list_sort_idem. reflexivity.
Qed.

(** Sorting after each append gives what one sort at the end gives. *)
Lemma list_sort_reverse_app1 (l : list A) (x : A) :
  list_sort_reverse le (list_sort_reverse le l ++ [x]) = list_sort_reverse le (l ++ [x]).
Proof.
  unfold list_sort_reverse.
  rewrite !rev_app_distr, rev_involutive. simpl.
  rewrite list_sort_idem. reflexivity.
Qed.

Hypothesis le_trans : forall a b c, le a b = true -> le b c = true -> le a c = true.

Lemma list_sort_strongly (l : list A) : StronglySorted ascending (list_sort le l).
Proof.
  apply Sorted_StronglySorted.
  - intros a b c. apply le_trans.
  - apply list_sort_sorted.
Qed.

Lemma StronglySorted_snoc (r : list A) (x : A) :
  StronglySorted descending r -> Forall (ascending x) r -> StronglySorted descending (r ++ [x]).
Proof.
  induction 1 as [|y r Hs IH Hall]; simpl; intros Hx.
  - repeat constructor.
  - apply Forall_cons_iff in Hx as [Hxy Hx].
    constructor; auto.
    apply Forall_app. split; auto.
Qed.

Lemma StronglySorted_app_rev (l : list A) :
  StronglySorted ascending l -> StronglySorted descending (rev l).
Proof.
  induction 1 as [|x l Hs IH Hall]; simpl.
  - constructor.
  - apply StronglySorted_snoc; auto.
    apply Forall_rev. assumption.
Qed.

Lemma list_sort_reverse_sorted (l : list A) :
  Sorted descending (list_sort_reverse le l).
Proof.
  apply StronglySorted_Sorted, StronglySorted_app_rev, list_sort_strongly.
Qed.

(** The last element of a sorted list is a greatest one. *)
Lemma last_list_sort_max (l : list A) (d x : A) :
  (forall a, le a a = true) ->
  In x l -> le x (last (list_sort le l) d) = true.
Proof.
  intros le_refl Hin.
  apply In_list_sort in Hin.
  pose proof (list_sort_strongly l) as Hs.
  induction Hs as [|y s Hs IH Hall]; [destruct Hin|].
  destruct s as [|z s].
  - destruct Hin as [->|[]]. simpl. apply le_refl.
  - change (last (y :: z :: s) d) with (last (z :: s) d).
    destruct Hin as [->|Hin]; auto.
    rewrite Forall_forall in Hall. apply Hall.
    clear. revert z. induction s as [|w s IHs]; intros z; [left; reflexivity|].
    change (last (z :: w :: s) d) with (last (w :: s) d). right. apply IHs.
Qed.

End SortFacts.

(** ** Dicts *)

Section DictFacts.
Context {V : Type}.
Implicit Types (d : dict V) (k : string) (v : V).

Lemma dict_get_set_same d k v : dict_get k (dict_set k v d) = Some v.
Proof.
  induction d as [|[k' v'] d IH]; simpl.
  - rewrite String.eqb_refl. reflexivity.
  - destruct (String.eqb k k') eqn:E; simpl; rewrite E; auto.
Qed.

Lemma dict_get_set_other d k k' v :
  k <> k' -> dict_get k' (dict_set k v d) = dict_get k' d.
Proof.
  intros Hne. induction d as [|[k0 v0] d IH]; simpl.
  - apply String.eqb_neq in Hne. rewrite String.eqb_sym, Hne. reflexivity.
  - destruct (String.eqb k k0) eqn:E; simpl.
    + apply String.eqb_eq in E. subst k0.
      apply String.eqb_neq in Hne. rewrite String.eqb_sym, Hne. reflexivity.
    + rewrite IH. reflexivity.
Qed.

Lemma dict_get_None d k : dict_get k d = None <-> ~ In k (dict_keys d).
Proof.
  induction d as [|[k' v'] d IH]; simpl.
  - tauto.
  - destruct (String.eqb_spec k k') as [->|Hne].
    + split; [discriminate | intros H; exfalso; apply H; auto].
    + rewrite IH. intuition congruence.
Qed.

Lemma dict_keys_set d k v :
  dict_keys (dict_set k v d) =
  match dict_get k d with
  | Some _ => dict_keys d
  | None => dict_keys d ++ [k]
  end.
Proof.
  induction d as [|[k' v'] d IH]; simpl; auto.
  destruct (String.eqb k k') eqn:E; simpl; auto.
  rewrite IH. destruct (dict_get k d); reflexivity.
Qed.

Lemma dict_set_NoDup d k v : NoDup (dict_keys d) -> NoDup (dict_keys (dict_set k v d)).
Proof.
  intros Hnd. rewrite dict_keys_set.
  destruct (dict_get k d) eqn:E; auto.
  apply dict_get_None in E.
  apply NoDup_app; repeat split; auto.
  - repeat constructor. intros [].
  - intros x Hx [<-|[]]. contradiction.
Qed.

Lemma dict_get_In d k v : dict_get k d = Some v -> In (k, v) d.
Proof.
  induction d as [|[k' v'] d IH]; simpl; [discriminate|].
  destruct (String.eqb_spec k k') as [->|Hne]; intros H.
  - injection H as ->. auto.
  - auto.
Qed.

Lemma dict_In_get d k v : NoDup (dict_keys d) -> In (k, v) d -> dict_get k d = Some v.
Proof.
  induction d as [|[k' v'] d IH]; simpl; intros Hnd Hin; [contradiction|].
  apply NoDup_cons_iff in Hnd as [Hk Hnd].
  destruct Hin as [[= -> ->]|Hin].
  - rewrite String.eqb_refl. reflexivity.
  - destruct (String.eqb_spec k k') as [->|Hne]; auto.
    exfalso. apply Hk. change k' with (fst (k', v)). apply in_map. assumption.
Qed.

End DictFacts.

(** ** The aggregator *)

Lemma versions_of_app (n : string) (p q : list (string * string)) :
  versions_of n (p ++ q) = versions_of n p ++ versions_of n q.
Proof. unfold versions_of. rewrite filter_app, map_app. reflexivity. Qed.

Lemma In_versions_of (n v : string) (pairs : list (string * string)) :
  In v (versions_of n pairs) <-> In (n, v) pairs.
Proof.
  unfold versions_of. rewrite in_map_iff. split.
  - intros [[n' v'] [Hv Hin]]. simpl in Hv. subst v'.
    apply filter_In in Hin as [Hin Heq]. simpl in Heq.
    apply String.eqb_eq in Heq. subst n'. assumption.
  - intros Hin. exists (n, v). split; auto.
    apply filter_In. split; auto. simpl. apply String.eqb_refl.
Qed.

Lemma In_triples (type : string) (sources : list string) (n v : string) :
  In (n, v) (triples type sources) <->
  exists source, In source sources /\ endswith source ".ttl" = true /\
                 re_match type source = Some (n, v).
Proof.
  unfold triples. rewrite in_flat_map. split.
  - intros [source [Hin Hp]]. exists source. split; auto.
    destruct (endswith source ".ttl"); [|destruct Hp].
    destruct (re_match type source) as [p|]; [|destruct Hp].
    destruct Hp as [->|[]]. auto.
  - intros [source [Hin [He Hm]]]. exists source. split; auto.
    rewrite He, Hm. left. reflexivity.
Qed.

Lemma scan_accumulate (type : string) (sources : list string)
  (st ontologies : dict ontology) :
  for_each (BuildIndex.scan_source type) sources st = Ok ontologies ->
  ontologies = accumulate (triples type sources) st.
Proof.
  revert st. induction sources as [|source sources IH]; simpl; intros st H.
  - injection H as <-. reflexivity.
  - unfold BuildIndex.scan_source in H at 1.
    destruct (endswith source ".ttl"); simpl in H.
    + destruct (re_match type source) as [[n v]|]; simpl in H; [|discriminate].
      unfold accumulate. rewrite fold_left_app. simpl. apply IH. assumption.
    + apply IH. assumption.
Qed.

(** Every source with the extension matched, when the scan returned. *)
Lemma scan_Ok_matches (type : string) (sources : list string)
  (st ontologies : dict ontology) (source : string) :
  for_each (BuildIndex.scan_source type) sources st = Ok ontologies ->
  In source sources -> endswith source ".ttl" = true ->
  exists n v, re_match type source = Some (n, v).
Proof.
  revert st. induction sources as [|s sources IH]; simpl; intros st H Hin He.
  - contradiction.
  - unfold BuildIndex.scan_source in H at 1.
    destruct Hin as [->|Hin].
    + rewrite He in H. simpl in H.
      destruct (re_match type source) as [[n v]|]; [eauto|discriminate].
    + destruct (endswith s ".ttl"); simpl in H; [|eauto].
      destruct (re_match type s) as [[n v]|]; simpl in H; [eauto|discriminate].
Qed.

(** The only exception a scan raises is the one of a failed match. *)
Lemma scan_Raise (type : string) (sources : list string) (st : dict ontology) (e : exn) :
  for_each (BuildIndex.scan_source type) sources st = Raise e -> e = AttributeError.
Proof.
  revert st. induction sources as [|s sources IH]; simpl; intros st H; [discriminate|].
  unfold BuildIndex.scan_source in H at 1.
  destruct (endswith s ".ttl"); simpl in H; [|eauto].
  destruct (re_match type s) as [[n v]|]; simpl in H; [eauto|congruence].
Qed.

Lemma accumulate_snoc (pairs : list (string * string)) (n v : string) :
  accumulate (pairs ++ [(n, v)]) [] = BuildIndex.add_version (accumulate pairs []) n v.
Proof. unfold accumulate. rewrite fold_left_app. reflexivity. Qed.

Lemma accumulate_NoDup (pairs : list (string * string)) :
  NoDup (dict_keys (accumulate pairs [])).
Proof.
  induction pairs as [|[n v] pairs IH] using rev_ind.
  - constructor.
  - rewrite accumulate_snoc. apply dict_set_NoDup. assumption.
Qed.

(** The entry of a name holds the versions paired with it, sorted in
    reverse once. *)
Lemma accumulate_get (pairs : list (string * string)) (n : string) :
  dict_get n (accumulate pairs []) =
  match versions_of n pairs with
  | [] => None
  | _ :: _ =>
      Some (mk_ontology n (list_sort_reverse String.leb (versions_of n pairs)))
  end.
Proof.
  induction pairs as [|[m v] pairs IH] using rev_ind; [reflexivity|].
  rewrite accumulate_snoc, versions_of_app. unfold BuildIndex.add_version.
  assert (E1 : versions_of n [(m, v)] = if String.eqb m n then [v] else [])
    by (unfold versions_of; simpl; destruct (String.eqb m n); reflexivity).
  rewrite E1. clear E1.
  destruct (String.eqb_spec m n) as [->|Hne].
  - rewrite dict_get_set_same, IH.
    destruct (versions_of n pairs) as [|v0 vs] eqn:E.
    + reflexivity.
    + cbn [name versions].
      rewrite list_sort_reverse_app1 by apply String.leb_total.
      reflexivity.
  - rewrite dict_get_set_other by assumption.
    rewrite IH, app_nil_r. reflexivity.
Qed.

Lemma accumulate_In (pairs : list (string * string)) (k : string) (o : ontology) :
  In (k, o) (accumulate pairs []) ->
  versions_of k pairs <> [] /\
  o = mk_ontology k (list_sort_reverse String.leb (versions_of k pairs)).
Proof.
  intros Hin. apply dict_In_get in Hin; [|apply accumulate_NoDup].
  rewrite accumulate_get in Hin.
  destruct (versions_of k pairs); [discriminate|].
  injection Hin as <-. split; [discriminate|reflexivity].
Qed.

(** The loop over the names of the modules type appends to every bucket but
    demo the selected entries. *)
Lemma split_modules (ontologies : dict ontology) (d : index_data) :
  fold_left (BuildIndex.split_entry "modules") ontologies d =
  data_app d (classify ontologies []).
Proof.
  revert d. induction ontologies as [|[k o] ontologies IH]; intros d.
  - destruct d. unfold data_app, classify, select. simpl.
    rewrite !app_nil_r. reflexivity.
  - simpl. rewrite IH. clear IH.
    unfold BuildIndex.split_entry, data_app, classify, select, tagged.
    cbn [fst snd filter map String.eqb Ascii.eqb Bool.eqb].
    destruct (in_list k BuildIndex.core_names);
      destruct (in_list k BuildIndex.core_actor);
      destruct (in_list k BuildIndex.core_process);
      destruct (in_list k BuildIndex.core_resource);
      destruct (in_list k BuildIndex.core_obsrvation);
      destruct (in_list k BuildIndex.core_supplementary);
      destruct d; simpl; rewrite <- ?app_assoc, ?app_nil_r; reflexivity.
Qed.

(** The loop over the names of the demo type appends to the demo bucket
    only. *)
Lemma split_demo (ontologies : dict ontology) (d : index_data) :
  fold_left (BuildIndex.split_entry "demo") ontologies d =
  data_app d (classify [] ontologies).
Proof.
  revert d. induction ontologies as [|[k o] ontologies IH]; intros d.
  - destruct d. unfold data_app, classify, select. simpl.
    rewrite !app_nil_r. reflexivity.
  - simpl. rewrite IH. clear IH.
    unfold BuildIndex.split_entry, data_app, classify, select.
    destruct d; simpl; rewrite <- ?app_assoc, ?app_nil_r; reflexivity.
Qed.

(** What a returning run of the aggregation computes. *)
Lemma build_data_spec (w : index_world) (d : index_data) :
  BuildIndex.build_data w = Ok d ->
  BuildIndex.scan "modules" (glob w (glob_pattern "modules"))
    = Ok (accumulate (triples "modules" (glob w (glob_pattern "modules"))) []) /\
  BuildIndex.scan "demo" (glob w (glob_pattern "demo"))
    = Ok (accumulate (triples "demo" (glob w (glob_pattern "demo"))) []) /\
  d = BuildIndex.sort_buckets
        (classify (accumulate (triples "modules" (glob w (glob_pattern "modules"))) [])
                  (accumulate (triples "demo" (glob w (glob_pattern "demo"))) [])).
Proof.
  unfold BuildIndex.build_data, types. cbn [for_each].
  unfold BuildIndex.process_type at 1.
  destruct (BuildIndex.scan "modules" _) as [om|e] eqn:Em; [|discriminate].
  cbn [bind]. unfold BuildIndex.process_type at 1.
  destruct (BuildIndex.scan "demo" _) as [od|e] eqn:Ed; [|discriminate].
  cbn [bind]. intros H. injection H as <-.
  apply scan_accumulate in Em as Em'. apply scan_accumulate in Ed as Ed'.
  rewrite <- Em', <- Ed'. repeat split.
  rewrite split_modules, split_demo.
  unfold data_app, classify, empty_data, select. simpl.
  rewrite !app_nil_r. reflexivity.
Qed.

(** The two copies of the aggregation are the same function. *)
Lemma add_version_agree (ontologies : dict ontology) (n version : string) :
  BuildLocal.add_version ontologies n version = BuildIndex.add_version ontologies n version.
Proof. reflexivity. Qed.

Lemma scan_source_agree (type : string) (ontologies : dict ontology) (source : string) :
  BuildLocal.scan_source type ontologies source = BuildIndex.scan_source type ontologies source.
Proof. reflexivity. Qed.

Lemma split_entry_agree (type : string) (d : index_data) (kv : string * ontology) :
  BuildLocal.split_entry type d kv = BuildIndex.split_entry type d kv.
Proof. reflexivity. Qed.

Lemma build_data_agree (w : index_world) :
  BuildLocal.build_data w = BuildIndex.build_data w.
Proof. reflexivity. Qed.

(** *** Buckets *)

Lemma name_leb_total (a b : ontology) : name_leb a b = true \/ name_leb b a = true.
Proof. apply String.leb_total. Qed.

Lemma map_entry_of_select (ontologies : dict ontology) :
  map entry_of ontologies = select (fun _ => true) ontologies.
Proof.
  unfold select. f_equal. symmetry.
  induction ontologies as [|kv l IH]; simpl; congruence.
Qed.

Lemma filter_keys_NoDup {V : Type} (f : string * V -> bool) (l : dict V) :
  NoDup (dict_keys l) -> NoDup (dict_keys (filter f l)).
Proof.
  unfold dict_keys. induction l as [|kv l IH]; simpl; intros Hnd; auto.
  apply NoDup_cons_iff in Hnd as [Hk Hnd].
  destruct (f kv); simpl; auto.
  constructor; auto.
  intros Hin. apply Hk.
  apply in_map_iff in Hin as [x [Hx Hin]].
  apply filter_In in Hin as [Hin _].
  rewrite <- Hx. apply in_map. assumption.
Qed.

Section Bucket.
Variables (p : string -> bool) (pairs : list (string * string)).

Local Abbreviation bucket := (bucket_of p pairs).

Lemma bucket_In (o : ontology) :
  In o bucket <->
  p (name o) = true /\ versions_of (name o) pairs <> [] /\
  versions o = list_sort_reverse String.leb (versions_of (name o) pairs).
Proof.
  unfold bucket_of. rewrite In_list_sort. unfold select. rewrite in_map_iff. split.
  - intros [[k o'] [<- Hin]].
    apply filter_In in Hin as [Hin Hp]. simpl in Hp.
    apply accumulate_In in Hin as [Hne ->]. simpl. auto.
  - intros [Hp [Hne Hv]].
    exists (name o, o). split.
    + destruct o; reflexivity.
    + apply filter_In. split; auto.
      apply dict_get_In. rewrite accumulate_get.
      destruct (versions_of (name o) pairs) eqn:E; [congruence|].
      destruct o as [n vs]. simpl in *. congruence.
Qed.

Lemma bucket_placed (n v : string) :
  In (n, v) pairs -> p n = true -> placed n v bucket.
Proof.
  intros Hin Hp.
  exists (mk_ontology n (list_sort_reverse String.leb (versions_of n pairs))).
  apply In_versions_of in Hin.
  split; [|split; [reflexivity|]].
  - apply bucket_In. simpl. repeat split; auto.
    intros E. rewrite E in Hin. destruct Hin.
  - simpl. eapply Permutation_in; [symmetry; apply list_sort_reverse_perm|assumption].
Qed.

Lemma bucket_absent (n : string) : p n = false -> absent n bucket.
Proof.
  intros Hp o Hin <-. apply bucket_In in Hin as [Hp' _]. congruence.
Qed.

Lemma bucket_origin (o : ontology) (v : string) :
  In o bucket -> In v (versions o) -> p (name o) = true /\ In (name o, v) pairs.
Proof.
  intros Hin Hv. apply bucket_In in Hin as [Hp [_ E]]. split; auto.
  rewrite E in Hv. apply In_versions_of.
  eapply Permutation_in; [apply list_sort_reverse_perm|eassumption].
Qed.

Lemma bucket_NoDup : NoDup (map name bucket).
Proof.
  unfold bucket_of.
  eapply Permutation_NoDup.
  - apply Permutation_map. symmetry. apply list_sort_perm.
  - unfold select. rewrite map_map. simpl.
    apply (filter_keys_NoDup (fun kv => p (fst kv))). apply accumulate_NoDup.
Qed.

Lemma bucket_sorted : Sorted (ascending name_leb) bucket.
Proof. apply list_sort_sorted, name_leb_total. Qed.

Lemma bucket_versions_sorted (o : ontology) :
  In o bucket -> Sorted (descending String.leb) (versions o).
Proof.
  intros Hin. apply bucket_In in Hin as [_ [_ ->]].
  apply list_sort_reverse_sorted.
  - apply String.leb_total.
  - apply string_leb_trans.
Qed.

End Bucket.

(** Each bucket of a returning run is the sorted selection of its type's
    pairs. *)
Lemma build_data_buckets (w : index_world) (d : index_data) :
  BuildIndex.build_data w = Ok d ->
  let pm := triples "modules" (glob w (glob_pattern "modules")) in
  let pd := triples "demo" (glob w (glob_pattern "demo")) in
  d = mk_data
        (bucket_of (fun n => in_list n BuildIndex.core_names) pm)
        (bucket_of (fun n => negb (in_list n BuildIndex.core_names)) pm)
        (bucket_of (fun _ => true) pd)
        (bucket_of (tagged BuildIndex.core_actor) pm)
        (bucket_of (tagged BuildIndex.core_obsrvation) pm)
        (bucket_of (tagged BuildIndex.core_process) pm)
        (bucket_of (tagged BuildIndex.core_resource) pm)
        (bucket_of (tagged BuildIndex.core_supplementary) pm).
Proof.
  intros H. apply build_data_spec in H as [_ [_ ->]].
  unfold BuildIndex.sort_buckets, classify, bucket_of. simpl.
  rewrite map_entry_of_select. reflexivity.
Qed.

Lemma build_data_either (w : index_world) (d : index_data) :
  BuildIndex.build_data w = Ok d \/ BuildLocal.build_data w = Ok d ->
  BuildIndex.build_data w = Ok d.
Proof. intros [H|H]; [|rewrite build_data_agree in H]; exact H. Qed.

Lemma found_triples (w : index_world) (type n v : string) :
  found w type n v <-> In (n, v) (triples type (glob w (glob_pattern type))).
Proof. unfold found. rewrite In_triples. reflexivity. Qed.

(** ** Placement in the buckets *)

(** C1.  On a returning run of either script: every source with the
    indexable extension yields a (name, version) pair; a pair of the modules
    type is placed in the core bucket when its name is in the core table and
    in the other bucket when not, never in both, and in a secondary bucket
    exactly when its name is in the core table and in that bucket's table; a
    pair of the demo type is placed in the demo bucket; the demo bucket
    holds nothing but pairs of the demo type and the other buckets nothing
    but pairs of the modules type; no bucket holds two entries of one name.
    In the worked example actorODP lands in core and actor, widgetX in other
    only. *)
Theorem triples_placed_in_buckets :
  (forall (w : index_world) (d : index_data),
    BuildIndex.build_data w = Ok d \/ BuildLocal.build_data w = Ok d ->
    (forall type source,
        In type types -> In source (glob w (glob_pattern type)) ->
        endswith source ".ttl" = true ->
        exists n v, found w type n v /\ re_match type source = Some (n, v)) /\
    (forall n v, found w "modules" n v ->
        (if in_list n BuildIndex.core_names
         then placed n v (core d) /\ absent n (other d)
         else placed n v (other d) /\ absent n (core d)) /\
        (forall table bucket, In (table, bucket) (tag_buckets d) ->
            if in_list n BuildIndex.core_names && in_list n table
            then placed n v bucket else absent n bucket)) /\
    (forall n v, found w "demo" n v -> placed n v (demo d)) /\
    (forall o v, In o (demo d) -> In v (versions o) -> found w "demo" (name o) v) /\
    (forall bucket o v,
        In bucket [core d; other d; actor d; observation d; process d;
                   resource d; supplementary d] ->
        In o bucket -> In v (versions o) -> found w "modules" (name o) v) /\
    (forall bucket, In bucket (data_values d) -> NoDup (map name bucket))) /\
  BuildIndex.build_data example_world = Ok example_data /\
  BuildLocal.build_data example_world = Ok example_data.
Proof.
  split; [|split; reflexivity].
  intros w d H. apply build_data_either in H.
  assert (Hscan := build_data_spec w d H).
  apply build_data_buckets in H. cbv zeta in H.
  destruct Hscan as [Hm [Hd _]].
  set (pm := triples "modules" (glob w (glob_pattern "modules"))) in *.
  set (pd := triples "demo" (glob w (glob_pattern "demo"))) in *.
  subst d. cbn [core other demo actor observation process resource supplementary
                tag_buckets data_values].
  split; [|split; [|split; [|split; [|split]]]].
  - intros type source Ht Hin He.
    assert (Hex : exists n v, re_match type source = Some (n, v)).
    { destruct Ht as [<-|[<-|[]]].
      - eapply scan_Ok_matches; eauto.
      - eapply scan_Ok_matches; eauto. }
    destruct Hex as [n [v Hex]]. exists n, v. split; auto.
    exists source. auto.
  - intros n v Hf. apply found_triples in Hf. fold pm in Hf. split.
    + destruct (in_list n BuildIndex.core_names) eqn:E; split.
      * apply bucket_placed; auto.
      * apply bucket_absent. rewrite E. reflexivity.
      * apply bucket_placed; auto. rewrite E. reflexivity.
      * apply bucket_absent. assumption.
    + intros table bucket Hin.
      change (in_list n BuildIndex.core_names && in_list n table)
        with (tagged table n).
      destruct Hin as [Hin|[Hin|[Hin|[Hin|[Hin|[]]]]]];
        injection Hin as <- <-;
        match goal with
        | |- context [tagged ?t n] =>
            destruct (tagged t n) eqn:E;
              [apply bucket_placed; assumption | apply bucket_absent; assumption]
        end.
  - intros n v Hf. apply found_triples in Hf. apply bucket_placed; auto.
  - intros o v Hin Hv. apply found_triples.
    eapply bucket_origin; eassumption.
  - intros bucket o v Hb Hin Hv. apply found_triples.
    destruct Hb as [<-|[<-|[<-|[<-|[<-|[<-|[<-|[]]]]]]]];
      eapply bucket_origin; eassumption.
  - intros bucket Hb.
    destruct Hb as [<-|[<-|[<-|[<-|[<-|[<-|[<-|[<-|[]]]]]]]]];
      apply bucket_NoDup.
Qed.

Lemma triples_placed_in_buckets_witness :
  placed "actorODP" "0.1" (core example_data) /\
  absent "actorODP" (other example_data) /\
  placed "actorODP" "0.1" (actor example_data) /\
  placed "widgetX" "0.1" (other example_data) /\
  absent "widgetX" (core example_data) /\
  absent "widgetX" (actor example_data).
Proof.
  destruct (proj1 triples_placed_in_buckets example_world example_data
              (or_introl eq_refl)) as [_ [Hm _]].
  assert (Ha : found example_world "modules" "actorODP" "0.1").
  { exists "ontology/modules/actorODP/0.1/actorODP.ttl".
    split; [simpl; tauto | split; reflexivity]. }
  assert (Hw : found example_world "modules" "widgetX" "0.1").
  { exists "ontology/modules/widgetX/0.1/widgetX.ttl".
    split; [simpl; tauto | split; reflexivity]. }
  destruct (Hm _ _ Ha) as [[Ha1 Ha2] Ha3].
  destruct (Hm _ _ Hw) as [[Hw1 Hw2] Hw3].
  specialize (Ha3 BuildIndex.core_actor (actor example_data) (or_introl eq_refl)).
  specialize (Hw3 BuildIndex.core_actor (actor example_data) (or_introl eq_refl)).
  repeat split; assumption.
Defined.

(** ** Orders of the output *)

Lemma Sorted_nth_error_succ {A : Type} (R : A -> A -> Prop) (l : list A) :
  Sorted R l ->
  forall i a b, nth_error l i = Some a -> nth_error l (S i) = Some b -> R a b.
Proof.
  induction 1 as [|x l Hs IH Hhd]; intros i a b Ha Hb.
  - destruct i; discriminate.
  - destruct i as [|i]; simpl in Ha, Hb.
    + injection Ha as <-. destruct l as [|y l]; [discriminate|].
      simpl in Hb. injection Hb as <-. inversion Hhd. assumption.
    + eapply IH; eassumption.
Qed.

Lemma StronglySorted_nth_error {A : Type} (R : A -> A -> Prop) (l : list A) :
  StronglySorted R l ->
  forall i j a b, (i < j)%nat ->
    nth_error l i = Some a -> nth_error l j = Some b -> R a b.
Proof.
  induction 1 as [|x l Hs IH Hall]; intros i j a b Hij Ha Hb.
  - destruct i; discriminate.
  - destruct j as [|j]; [lia|]. simpl in Hb. destruct i as [|i]; simpl in Ha.
    + injection Ha as <-. rewrite Forall_forall in Hall.
      apply Hall. eapply nth_error_In. eassumption.
    + apply (IH i j); [lia | assumption | assumption].
Qed.

Lemma NoDup_map_nth_error {A B : Type} (f : A -> B) (l : list A) :
  NoDup (map f l) ->
  forall i j a b, i <> j ->
    nth_error l i = Some a -> nth_error l j = Some b -> f a <> f b.
Proof.
  intros Hnd i j a b Hij Ha Hb Heq.
  apply Hij. apply (proj1 (NoDup_nth_error (map f l)) Hnd).
  - rewrite length_map. apply nth_error_Some. rewrite Ha. discriminate.
  - rewrite !nth_error_map, Ha, Hb. simpl. congruence.
Qed.

Lemma name_ascending_trans (a b c : ontology) :
  ascending name_leb a b -> ascending name_leb b c -> ascending name_leb a c.
Proof. unfold ascending, name_leb. apply string_leb_trans. Qed.

(** C2.  On a returning run of either script every bucket is sorted
    ascending by name and the versions of every entry are sorted descending
    in the order of strings.  In the order of Python's strings, spelled
    out: the name of each entry of a bucket is at most the name of its
    successor and differs from it, the name at a position is at most the
    name at every later position, and each version of an entry is at least
    its successor.  That order is not the numeric one: 0.2, 0.10, 1.0 come
    out as 1.0, 0.2, 0.10.  A listing of six modules and two demos in no
    particular order gives buckets of several entries in the order of their
    names, upper case before lower case. *)
Theorem buckets_sorted_versions_descending :
  (forall (w : index_world) (d : index_data),
    BuildIndex.build_data w = Ok d \/ BuildLocal.build_data w = Ok d ->
    forall bucket, In bucket (data_values d) ->
      Sorted (ascending name_leb) bucket /\
      forall o, In o bucket -> Sorted (descending String.leb) (versions o)) /\
  (forall (w : index_world) (d : index_data),
    BuildIndex.build_data w = Ok d \/ BuildLocal.build_data w = Ok d ->
    forall bucket, In bucket (data_values d) ->
      (forall i a b,
        nth_error bucket i = Some a -> nth_error bucket (S i) = Some b ->
        String.leb (name a) (name b) = true /\ name a <> name b) /\
      (forall i j a b, (i < j)%nat ->
        nth_error bucket i = Some a -> nth_error bucket j = Some b ->
        String.leb (name a) (name b) = true /\ name a <> name b) /\
      (forall o, In o bucket ->
        forall i u v,
          nth_error (versions o) i = Some u -> nth_error (versions o) (S i) = Some v ->
          String.leb v u = true)) /\
  list_sort_reverse String.leb ["0.2"; "0.10"; "1.0"] = ["1.0"; "0.2"; "0.10"] /\
  BuildIndex.build_data versions_world
    = Ok (mk_data [] [mk_ontology "m" ["1.0"; "0.2"; "0.10"]] [] [] [] [] [] []) /\
  BuildLocal.build_data versions_world
    = Ok (mk_data [] [mk_ontology "m" ["1.0"; "0.2"; "0.10"]] [] [] [] [] [] []) /\
  BuildIndex.build_data ordering_world = Ok ordering_data /\
  BuildLocal.build_data ordering_world = Ok ordering_data.
Proof.
  split; [|split; [|repeat split; reflexivity]].
  - intros w d H bucket Hb.
    apply build_data_either, build_data_buckets in H. cbv zeta in H.
    subst d. cbn [data_values core other demo actor observation process resource
                  supplementary] in Hb.
    destruct Hb as [<-|[<-|[<-|[<-|[<-|[<-|[<-|[<-|[]]]]]]]]];
      (split; [apply bucket_sorted | apply bucket_versions_sorted]).
  - intros w d H bucket Hb.
    apply build_data_either, build_data_buckets in H. cbv zeta in H.
    subst d. cbn [data_values core other demo actor observation process resource
                  supplementary] in Hb.
    assert (Hkey : exists p pairs, bucket = bucket_of p pairs).
    { destruct Hb as [<-|[<-|[<-|[<-|[<-|[<-|[<-|[<-|[]]]]]]]]];
        do 2 eexists; reflexivity. }
    destruct Hkey as [p [pairs ->]].
    pose proof (bucket_sorted p pairs) as Hs.
    pose proof (bucket_NoDup p pairs) as Hnd.
    split; [|split].
    + intros i a b Ha Hb'. split.
      * exact (Sorted_nth_error_succ _ _ Hs i a b Ha Hb').
      * apply (NoDup_map_nth_error name _ Hnd i (S i)); auto.
    + intros i j a b Hij Ha Hb'. split.
      * apply Sorted_StronglySorted in Hs; [|exact name_ascending_trans].
        exact (StronglySorted_nth_error _ _ Hs i j a b Hij Ha Hb').
      * apply (NoDup_map_nth_error name _ Hnd i j); auto. lia.
    + intros o Ho i u v Hu Hv.
      exact (Sorted_nth_error_succ _ _ (bucket_versions_sorted p pairs o Ho) i u v Hu Hv).
Qed.

Lemma buckets_sorted_versions_descending_witness :
  (Sorted (ascending name_leb) (core ordering_data) /\
   forall o, In o (core ordering_data) -> Sorted (descending String.leb) (versions o)) /\
  (String.leb "Zeta" "gadget" = true /\ "Zeta" <> "gadget") /\
  (String.leb "actorODP" "resourceODP" = true /\ "actorODP" <> "resourceODP") /\
  String.leb "0.10" "0.2" = true.
Proof.
  destruct buckets_sorted_versions_descending as [Hsorted [Hnames _]].
  split; [|split; [|split]].
  - apply (Hsorted ordering_world ordering_data).
    + left. reflexivity.
    + simpl. tauto.
  - apply (proj1 (Hnames ordering_world ordering_data (or_intror eq_refl)
                    (other ordering_data) (or_intror (or_introl eq_refl)))
             0%nat (mk_ontology "Zeta" ["1.0"]) (mk_ontology "gadget" ["0.9"]));
      reflexivity.
  - apply (proj1 (proj2 (Hnames ordering_world ordering_data (or_introl eq_refl)
                    (core ordering_data) (or_introl eq_refl)))
             0%nat 2%nat (mk_ontology "actorODP" ["1.0"; "0.2"; "0.10"])
             (mk_ontology "resourceODP" ["0.9"; "0.10"]));
      [lia | reflexivity | reflexivity].
  - apply (proj2 (proj2 (Hnames ordering_world ordering_data (or_introl eq_refl)
                    (core ordering_data) (or_introl eq_refl)))
             (mk_ontology "actorODP" ["1.0"; "0.2"; "0.10"]) (or_introl eq_refl)
             1%nat "0.2" "0.10"); reflexivity.
Defined.

(** ** Accumulation of versions *)

(** C7.  In either script the scan of a type's sources leaves, for each
    name, an entry exactly when some source gives that name; the entry's
    versions are all the versions paired with the name, each as often as it
    occurs (nothing is deduplicated), in the descending string order, and
    sorting them again changes nothing.  Each insertion appends the version
    to the entry's list and sorts the list in reverse; two files in one
    version directory give the version twice. *)
Theorem versions_accumulated_with_duplicates :
  (forall (type : string) (sources : list string) (ontologies : dict ontology)
          (n : string),
    BuildIndex.scan type sources = Ok ontologies \/
    BuildLocal.scan type sources = Ok ontologies ->
    match dict_get n ontologies with
    | None => versions_of n (triples type sources) = []
    | Some o =>
        name o = n /\
        versions o = list_sort_reverse String.leb (versions_of n (triples type sources)) /\
        (forall v, count_occ string_dec (versions o) v
                   = count_occ string_dec (versions_of n (triples type sources)) v) /\
        Sorted (descending String.leb) (versions o) /\
        list_sort_reverse String.leb (versions o) = versions o
    end) /\
  (forall (ontologies : dict ontology) (n v : string),
    exists o,
      dict_get n (BuildIndex.add_version ontologies n v) = Some o /\
      dict_get n (BuildLocal.add_version ontologies n v) = Some o /\
      versions o =
        list_sort_reverse String.leb
          (match dict_get n ontologies with
           | Some o0 => versions o0
           | None => []
           end ++ [v])) /\
  BuildIndex.scan "modules"
    ["ontology/modules/m/0.1/a.ttl"; "ontology/modules/m/0.2/m.ttl";
     "ontology/modules/m/0.1/b.ttl"]
  = Ok [("m", mk_ontology "m" ["0.2"; "0.1"; "0.1"])].
Proof.
  split; [|split; [|reflexivity]].
  - intros type sources ontologies n H.
    assert (H' : BuildIndex.scan type sources = Ok ontologies) by (destruct H; exact H).
    clear H. apply scan_accumulate in H'. subst ontologies.
    rewrite accumulate_get.
    destruct (versions_of n (triples type sources)) as [|v0 vs] eqn:E; auto.
    cbn [name versions]. repeat split.
    + intros v. apply Permutation_count_occ, list_sort_reverse_perm.
    + apply list_sort_reverse_sorted; [apply String.leb_total | apply string_leb_trans].
    + apply list_sort_reverse_idem, String.leb_total.
  - intros ontologies n v. eexists. split; [|split].
    + unfold BuildIndex.add_version. apply dict_get_set_same.
    + unfold BuildLocal.add_version. apply dict_get_set_same.
    + destruct (dict_get n ontologies); reflexivity.
Qed.

Lemma versions_accumulated_with_duplicates_witness :
  match dict_get "m" [("m", mk_ontology "m" ["0.1"; "0.1"])] with
  | None => versions_of "m" (triples "modules" ["ontology/modules/m/0.1/a.ttl";
                                                "ontology/modules/m/0.1/b.ttl"]) = []
  | Some o =>
      name o = "m" /\
      versions o = list_sort_reverse String.leb
                     (versions_of "m" (triples "modules" ["ontology/modules/m/0.1/a.ttl";
                                                          "ontology/modules/m/0.1/b.ttl"])) /\
      (forall v, count_occ string_dec (versions o) v
                 = count_occ string_dec
                     (versions_of "m" (triples "modules" ["ontology/modules/m/0.1/a.ttl";
                                                          "ontology/modules/m/0.1/b.ttl"])) v) /\
      Sorted (descending String.leb) (versions o) /\
      list_sort_reverse String.leb (versions o) = versions o
  end.
Proof.
  apply (proj1 versions_accumulated_with_duplicates "modules"
           ["ontology/modules/m/0.1/a.ttl"; "ontology/modules/m/0.1/b.ttl"]).
  left. reflexivity.
Defined.

(** ** The driver's control flow *)

Lemma build_data_Raise (w : index_world) (e : exn) :
  BuildIndex.build_data w = Raise e -> e = AttributeError.
Proof.
  unfold BuildIndex.build_data, types. cbn [for_each].
  unfold BuildIndex.process_type at 1.
  destruct (BuildIndex.scan "modules" _) as [om|e1] eqn:Em; cbn [bind].
  - unfold BuildIndex.process_type at 1.
    destruct (BuildIndex.scan "demo" _) as [od|e2] eqn:Ed; cbn [bind].
    + discriminate.
    + intros [= <-]. eapply scan_Raise. exact Ed.
  - intros [= <-]. eapply scan_Raise. exact Em.
Qed.

(** A source with the extension that the pattern does not match makes the
    aggregation raise. *)
Lemma build_data_malformed (w : index_world) (type source : string) :
  In type types -> In source (glob w (glob_pattern type)) ->
  endswith source ".ttl" = true -> re_match type source = None ->
  BuildIndex.build_data w = Raise AttributeError.
Proof.
  intros Ht Hin He Hm.
  destruct (BuildIndex.build_data w) as [d|e] eqn:E.
  - exfalso. apply build_data_spec in E as [Em [Ed _]].
    assert (Hex : exists n v, re_match type source = Some (n, v)).
    { destruct Ht as [<-|[<-|[]]]; eapply scan_Ok_matches; eauto. }
    destruct Hex as [n [v Hex]]. congruence.
  - apply build_data_Raise in E. congruence.
Qed.

Lemma scan_filter (type : string) (sources : list string) (st : dict ontology) :
  for_each (BuildIndex.scan_source type) sources st =
  for_each (BuildIndex.scan_source type)
           (filter (fun source => endswith source ".ttl") sources) st.
Proof.
  revert st. induction sources as [|s sources IH]; intros st; [reflexivity|].
  simpl. destruct (endswith s ".ttl") eqn:E.
  - simpl. destruct (BuildIndex.scan_source type st s); simpl; auto.
  - unfold BuildIndex.scan_source at 1. rewrite E. simpl. apply IH.
Qed.

(** The run of [main] once the prerequisites are there, the batch is not
    empty and the loop over the files has returned its counters. *)
Lemma main_run (w : BuildLocal.world) (ver : string) (f : path) (rest : list path)
  (l : list BuildLocal.event) (s fl : nat) :
  BuildLocal.java_version w = Ok ver ->
  BuildLocal.jar_exists w = true ->
  BuildLocal.ontology_files w = f :: rest ->
  BuildLocal.io_for (BuildLocal.count_file w) (f :: rest) (0, 0)%nat = (l, Ok (s, fl)) ->
  BuildLocal.main w =
  let start := [BuildLocal.JavaFound; BuildLocal.JarFound;
                BuildLocal.Found (S (length rest))] ++ l in
  let steps :=
    if (0 <? s)%nat then
      BuildLocal.io_bind (BuildLocal.create_latest_folders (BuildLocal.docs w))
        (fun _ =>
           BuildLocal.io_bind (BuildLocal.create_index_file (BuildLocal.index w))
             (fun indexed =>
                if negb indexed then BuildLocal.say BuildLocal.IndexWarning
                else BuildLocal.ret tt))
    else BuildLocal.ret tt in
  match steps with
  | (l2, Ok _) =>
      (start ++ l2 ++ [BuildLocal.Summary (S (length rest)) s fl] ++
         (if (0 <? fl)%nat then [BuildLocal.SomeFailed] else [BuildLocal.AllSucceeded]),
       if (0 <? fl)%nat then Raise (SystemExit 1) else Ok tt)
  | (l2, Raise e) => (start ++ l2, Raise e)
  end.
Proof.
  intros Hj Hjar Hf Hloop.
  unfold BuildLocal.main, BuildLocal.check_java, BuildLocal.check_widoco.
  rewrite Hj, Hjar, Hf.
  cbn [BuildLocal.io_bind BuildLocal.say BuildLocal.ret negb app length].
  rewrite Hloop. cbn [fst snd BuildLocal.io_bind app].
  destruct (if (0 <? s)%nat then _ else _) as [l2 [u|e]].
  - cbn [BuildLocal.io_bind BuildLocal.say app].
    destruct (0 <? fl)%nat; cbn; rewrite ?app_nil_r; reflexivity.
  - cbn. reflexivity.
Qed.

Lemma main_documented (w : BuildLocal.world) (l : list BuildLocal.event) (s fl : nat) :
  documented w l s fl ->
  BuildLocal.main w =
  match (if (0 <? s)%nat then
           BuildLocal.io_bind (BuildLocal.create_latest_folders (BuildLocal.docs w))
             (fun _ =>
                BuildLocal.io_bind (BuildLocal.create_index_file (BuildLocal.index w))
                  (fun indexed =>
                     if negb indexed then BuildLocal.say BuildLocal.IndexWarning
                     else BuildLocal.ret tt))
         else BuildLocal.ret tt)
  with
  | (l2, Ok _) => (before_index w l l2 ++ summary_events w s fl, summary_result fl)
  | (l2, Raise e) => (before_index w l l2, Raise e)
  end.
Proof.
  intros [[ver Hj] [Hjar [Hne Hloop]]].
  destruct (BuildLocal.ontology_files w) as [|f rest] eqn:Hf; [congruence|].
  rewrite (main_run w ver f rest l s fl Hj Hjar Hf Hloop). cbv zeta.
  unfold before_index, summary_events, summary_result. rewrite Hf.
  destruct (if (0 <? s)%nat then _ else _) as [l2 [u|e]]; cbn [length];
    rewrite <- ?app_assoc; reflexivity.
Qed.

(** [main] when the latest folders are made and the index step raises. *)
Lemma main_index_raises (w : BuildLocal.world) (l l2 : list BuildLocal.event)
  (s fl : nat) (t : node) (e : exn) :
  documented w l s fl -> (0 < s)%nat ->
  BuildLocal.create_latest_folders (BuildLocal.docs w) = (l2, Ok t) ->
  BuildLocal.build_data (BuildLocal.index w) = Raise e ->
  BuildLocal.main w = (before_index w l l2, Raise e).
Proof.
  intros Hdoc Hs Hlatest Hdata.
  rewrite (main_documented w l s fl Hdoc).
  apply Nat.ltb_lt in Hs. rewrite Hs, Hlatest.
  unfold BuildLocal.create_index_file. rewrite Hdata.
  cbn. rewrite app_nil_r. reflexivity.
Qed.

(** [main] when the latest folders are made, the data is built and the
    template or the write raises an [Exception]. *)
Lemma main_index_fails (w : BuildLocal.world) (l l2 : list BuildLocal.event)
  (s fl : nat) (t : node) (d : index_data) (e : exn) :
  documented w l s fl -> (0 < s)%nat ->
  BuildLocal.create_latest_folders (BuildLocal.docs w) = (l2, Ok t) ->
  BuildLocal.build_data (BuildLocal.index w) = Ok d ->
  BuildLocal.write_index (BuildLocal.index w) d = Raise e ->
  is_Exception e = true ->
  BuildLocal.main w =
    (before_index w l l2 ++
       [BuildLocal.IndexFailed e; BuildLocal.IndexWarning] ++ summary_events w s fl,
     summary_result fl).
Proof.
  intros Hdoc Hs Hlatest Hdata Hwrite He.
  rewrite (main_documented w l s fl Hdoc).
  apply Nat.ltb_lt in Hs. rewrite Hs, Hlatest.
  unfold BuildLocal.create_index_file. rewrite Hdata.
  cbn [BuildLocal.lift BuildLocal.io_bind]. rewrite Hwrite, He.
  cbn. unfold before_index. rewrite <- !app_assoc. reflexivity.
Qed.

(** ** The path scanner *)

(** C8.  In either script a source that does not end with the indexable
    extension leaves the dict as it is, and a scan is the scan of the sources
    that have the extension; a source that has the extension and that the
    pattern of its type does not match raises [AttributeError], which nothing
    catches: the aggregation, the standalone [main] and the driver's index
    step all end with it, and so does the driver's [main] when it reaches
    the index step. *)
Theorem non_indexable_skipped_malformed_fatal :
  (forall (type : string) (ontologies : dict ontology) (source : string),
    endswith source ".ttl" = false ->
    BuildIndex.scan_source type ontologies source = Ok ontologies /\
    BuildLocal.scan_source type ontologies source = Ok ontologies) /\
  (forall (type : string) (sources : list string),
    BuildIndex.scan type sources
      = BuildIndex.scan type (filter (fun source => endswith source ".ttl") sources) /\
    BuildLocal.scan type sources
      = BuildLocal.scan type (filter (fun source => endswith source ".ttl") sources)) /\
  (forall (type : string) (ontologies : dict ontology) (source : string),
    endswith source ".ttl" = true -> re_match type source = None ->
    BuildIndex.scan_source type ontologies source = Raise AttributeError /\
    BuildLocal.scan_source type ontologies source = Raise AttributeError) /\
  (forall (w : index_world),
    malformed w ->
    BuildIndex.build_data w = Raise AttributeError /\
    BuildLocal.build_data w = Raise AttributeError /\
    (forall args, BuildIndex.main w args = Raise AttributeError) /\
    BuildLocal.create_index_file w = ([], Raise AttributeError)) /\
  (forall (w : BuildLocal.world) (l l2 : list BuildLocal.event) (s fl : nat) (t : node),
    documented w l s fl -> (0 < s)%nat ->
    BuildLocal.create_latest_folders (BuildLocal.docs w) = (l2, Ok t) ->
    malformed (BuildLocal.index w) ->
    BuildLocal.main w = (before_index w l l2, Raise AttributeError) /\
    exit_status (snd (BuildLocal.main w)) <> 0%Z).
Proof.
  assert (Hmal : forall w, malformed w -> BuildIndex.build_data w = Raise AttributeError).
  { intros w [type [source [Ht [Hin [He Hm]]]]].
    eapply build_data_malformed; eassumption. }
  split; [|split; [|split; [|split]]].
  - intros type ontologies source He.
    unfold BuildLocal.scan_source, BuildIndex.scan_source. rewrite He. auto.
  - intros type sources. split; apply scan_filter.
  - intros type ontologies source He Hm.
    unfold BuildLocal.scan_source, BuildIndex.scan_source. rewrite He, Hm. auto.
  - intros w Hw. apply Hmal in Hw. repeat split.
    + assumption.
    + rewrite build_data_agree. assumption.
    + intros args. unfold BuildIndex.main, BuildIndex.create_index_file.
      rewrite Hw. reflexivity.
    + unfold BuildLocal.create_index_file. rewrite build_data_agree, Hw. reflexivity.
  - intros w l l2 s fl t Hdoc Hs Hlatest Hw. apply Hmal in Hw.
    rewrite <- build_data_agree in Hw.
    rewrite (main_index_raises w l l2 s fl t AttributeError Hdoc Hs Hlatest Hw).
    split; [reflexivity | discriminate].
Qed.

Lemma non_indexable_skipped_malformed_fatal_witness :
  BuildIndex.scan_source "modules" [] "ontology/modules/m/0.1/README.md" = Ok [] /\
  BuildIndex.scan_source "modules" [] "ontology/modules\m\0.1\m.ttl"
    = Raise AttributeError /\
  BuildIndex.main malformed_world [] = Raise AttributeError /\
  snd (BuildLocal.main (driver_world one_file (fun _ => 0%Z) malformed_world))
    = Raise AttributeError.
Proof.
  destruct non_indexable_skipped_malformed_fatal as [Hskip [_ [Hfatal [Hrun Hmain]]]].
  assert (Hw : malformed malformed_world).
  { exists "modules", "ontology/modules\m\0.1\m.ttl".
    repeat split; simpl; auto. }
  split; [|split; [|split]].
  - apply (Hskip "modules" [] "ontology/modules/m/0.1/README.md"). reflexivity.
  - apply (Hfatal "modules" [] "ontology/modules\m\0.1\m.ttl"); reflexivity.
  - apply (Hrun malformed_world Hw).
  - pose (w := driver_world one_file (fun _ => 0%Z) malformed_world).
    destruct (Hmain w
                (fst (BuildLocal.io_for (BuildLocal.count_file w) one_file (0, 0)%nat))
                (fst (BuildLocal.create_latest_folders (BuildLocal.docs w)))
                1%nat 0%nat
                (Dir [("modules",
                       Dir [("m", Dir [("0.2", Dir [("index.html", File "a")]);
                                       ("0.10", Dir [("index.html", File "b")]);
                                       ("1.0", Dir [("index.html", File "c")]);
                                       ("latest", Dir [("index.html", File "c")])])])]))
      as [Hm _].
    + repeat split; [eexists; reflexivity | discriminate].
    + lia.
    + reflexivity.
    + exact Hw.
    + fold w. rewrite Hm. reflexivity.
Defined.

(** ** The two copies of the aggregator *)

(** C9.  For every outside world the aggregation of the standalone index
    builder and the one inside the local-build driver give the same result:
    the same data, bucket by bucket and entry by entry in the same orders,
    or the same exception; the membership tables are the same, the renamed
    observation table included. *)
Theorem aggregators_agree :
  (forall w : index_world, BuildLocal.build_data w = BuildIndex.build_data w) /\
  (forall type sources, BuildLocal.scan type sources = BuildIndex.scan type sources) /\
  (forall type d kv, BuildLocal.split_entry type d kv = BuildIndex.split_entry type d kv) /\
  (forall d, BuildLocal.sort_buckets d = BuildIndex.sort_buckets d) /\
  BuildLocal.core_names = BuildIndex.core_names /\
  BuildLocal.core_actor = BuildIndex.core_actor /\
  BuildLocal.core_process = BuildIndex.core_process /\
  BuildLocal.core_resource = BuildIndex.core_resource /\
  BuildLocal.core_observation = BuildIndex.core_obsrvation /\
  BuildLocal.core_supplementary = BuildIndex.core_supplementary.
Proof.
  split.
  - intros w.
    unfold BuildLocal.build_data, BuildIndex.build_data.
    assert (Hstep : forall d type,
               BuildLocal.process_type w d type = BuildIndex.process_type w d type).
    { intros d type. unfold BuildLocal.process_type, BuildIndex.process_type.
      unfold BuildLocal.scan, BuildIndex.scan.
      replace (for_each (BuildLocal.scan_source type)) with
        (for_each (BuildIndex.scan_source type)) by reflexivity.
      destruct (for_each (BuildIndex.scan_source type) _ []) as [o|e];
        reflexivity. }
    unfold types. cbn [for_each]. rewrite Hstep.
    destruct (BuildIndex.process_type w empty_data "modules") as [d1|e1];
      cbn [bind]; [|reflexivity].
    rewrite Hstep.
    destruct (BuildIndex.process_type w d1 "demo") as [d2|e2]; reflexivity.
  - repeat split.
Qed.

(** ** Failures of the template and of the write *)

Lemma exit_status_Exception (e : exn) :
  is_Exception e = true -> exit_status (Raise e) = 1%Z.
Proof. destruct e; simpl; congruence. Qed.

Lemma write_index_raises (w : index_world) (index_file : string)
  (d : index_data) (e : exn) :
  BuildIndex.write_index w index_file d = Raise e <->
  index_output_raises w index_file d e.
Proof.
  unfold BuildIndex.write_index, index_output_raises. split.
  - destruct (read_template w) as [src|e0]; cbn [bind]; [|intros H; left; congruence].
    intros H. right. exists src. split; [reflexivity|].
    destruct (compile_template w src) as [[]|e1]; cbn [bind] in H;
      [|left; congruence].
    right. split; [reflexivity|].
    destruct (open_output w index_file) as [[]|e2]; cbn [bind] in H;
      [|left; congruence].
    right. split; [reflexivity|].
    destruct (render w src d) as [text|e3]; cbn [bind] in H; [|left; congruence].
    right. exists text. auto.
  - intros [H|[src [Hr H]]]; [rewrite H; reflexivity|].
    rewrite Hr. cbn [bind].
    destruct H as [H|[Hc H]]; [rewrite H; reflexivity|]. rewrite Hc. cbn [bind].
    destruct H as [H|[Ho H]]; [rewrite H; reflexivity|]. rewrite Ho. cbn [bind].
    destruct H as [H|[text [Ht H]]]; [rewrite H; reflexivity|].
    rewrite Ht. exact H.
Qed.

Lemma write_index_local (w : index_world) (d : index_data) :
  BuildLocal.write_index w d = BuildIndex.write_index w BuildLocal.index_file d.
Proof. reflexivity. Qed.

(** C4.  In both scripts the template is read and compiled, the output is
    opened, the template is applied and the text is written, in this order,
    and what the sequence raises is what its first failing step raises.  An
    [Exception] raised by any of these steps is caught by the driver's index
    step, which reports it and returns false; [main] then prints its warning
    and goes on to the summary, ending as the failure counter alone decides.
    In the standalone script the same exception leaves [create_index_file]
    and [main] uncaught and the process ends with a nonzero status. *)
Theorem template_failure_caught_locally_fatal_standalone :
  (forall (w : index_world) (index_file : string) (d : index_data) (e : exn),
    BuildIndex.write_index w index_file d = Raise e <->
    index_output_raises w index_file d e) /\
  (forall (w : index_world) (d : index_data) (e : exn),
    BuildLocal.write_index w d = Raise e <->
    index_output_raises w BuildLocal.index_file d e) /\
  (forall (w : index_world) (d : index_data) (e : exn),
    BuildLocal.build_data w = Ok d ->
    index_output_raises w BuildLocal.index_file d e ->
    is_Exception e = true ->
    BuildLocal.create_index_file w = ([BuildLocal.IndexFailed e], Ok false)) /\
  (forall (w : BuildLocal.world) (l l2 : list BuildLocal.event) (s fl : nat)
          (t : node) (d : index_data) (e : exn),
    documented w l s fl -> (0 < s)%nat ->
    BuildLocal.create_latest_folders (BuildLocal.docs w) = (l2, Ok t) ->
    BuildLocal.build_data (BuildLocal.index w) = Ok d ->
    index_output_raises (BuildLocal.index w) BuildLocal.index_file d e ->
    is_Exception e = true ->
    BuildLocal.main w =
      (before_index w l l2 ++
         [BuildLocal.IndexFailed e; BuildLocal.IndexWarning] ++ summary_events w s fl,
       summary_result fl)) /\
  (forall (w : index_world) (args : list string) (d : index_data) (e : exn),
    BuildIndex.build_data w = Ok d ->
    index_output_raises w (match args with a :: _ => a | [] => "docs/index.html" end) d e ->
    is_Exception e = true ->
    BuildIndex.create_index_file w
      (match args with a :: _ => a | [] => "docs/index.html" end) = Raise e /\
    BuildIndex.main w args = Raise e /\
    exit_status (BuildIndex.main w args) = 1%Z) /\
  BuildLocal.create_index_file unwritable_world
    = ([BuildLocal.IndexFailed OSError], Ok false) /\
  BuildIndex.main unwritable_world [] = Raise OSError.
Proof.
  split; [exact write_index_raises|].
  split; [intros w d e; rewrite write_index_local; apply write_index_raises|].
  split; [|split; [|split; [|split; reflexivity]]].
  - intros w d e Hd Hw He.
    apply write_index_raises in Hw. rewrite <- write_index_local in Hw.
    unfold BuildLocal.create_index_file. rewrite Hd.
    cbn [BuildLocal.lift BuildLocal.io_bind]. rewrite Hw, He. reflexivity.
  - intros w l l2 s fl t d e Hdoc Hs Hlatest Hd Hw He.
    apply write_index_raises in Hw. rewrite <- write_index_local in Hw.
    apply (main_index_fails w l l2 s fl t d e); assumption.
  - intros w args d e Hd Hw He. apply write_index_raises in Hw.
    assert (Hc : BuildIndex.create_index_file w
                   (match args with a :: _ => a | [] => "docs/index.html" end) = Raise e).
    { unfold BuildIndex.create_index_file. rewrite Hd. exact Hw. }
    assert (Hmain : BuildIndex.main w args = Raise e) by exact Hc.
    repeat split; auto. rewrite Hmain. apply exit_status_Exception. assumption.
Qed.

Lemma template_failure_caught_locally_fatal_standalone_witness :
  BuildLocal.create_index_file failing_template_world
    = ([BuildLocal.IndexFailed TemplateError], Ok false) /\
  snd (BuildLocal.main (driver_world one_file (fun _ => 0%Z) failing_template_world))
    = Ok tt /\
  BuildIndex.main failing_template_world [] = Raise TemplateError.
Proof.
  destruct template_failure_caught_locally_fatal_standalone
    as [_ [_ [Hstep [Hmain [Halone _]]]]].
  assert (Hraises : forall file,
             index_output_raises failing_template_world file example_data TemplateError).
  { intros file. right. exists "{{#each data.core}}". split; [reflexivity|].
    right. split; [reflexivity|]. right. split; [reflexivity|].
    left. reflexivity. }
  split; [|split].
  - apply (Hstep failing_template_world example_data TemplateError);
      [reflexivity | apply Hraises | reflexivity].
  - set (w := driver_world one_file (fun _ => 0%Z) failing_template_world).
    rewrite (Hmain w
               (fst (BuildLocal.io_for (BuildLocal.count_file w) one_file (0, 0)%nat))
               (fst (BuildLocal.create_latest_folders (BuildLocal.docs w)))
               1%nat 0%nat
               (Dir [("modules",
                      Dir [("m", Dir [("0.2", Dir [("index.html", File "a")]);
                                      ("0.10", Dir [("index.html", File "b")]);
                                      ("1.0", Dir [("index.html", File "c")]);
                                      ("latest", Dir [("index.html", File "c")])])])])
               example_data TemplateError).
    + reflexivity.
    + repeat split; [eexists; reflexivity | discriminate].
    + lia.
    + reflexivity.
    + reflexivity.
    + apply Hraises.
    + reflexivity.
  - apply (Halone failing_template_world [] example_data TemplateError);
      [reflexivity | apply Hraises | reflexivity].
Defined.

(** ** Documentation generation over the batch *)

Lemma runs_app (l1 l2 : list BuildLocal.event) : runs (l1 ++ l2) = runs l1 ++ runs l2.
Proof. unfold runs. apply flat_map_app. Qed.

Lemma processed_app (l1 l2 : list BuildLocal.event) :
  processed (l1 ++ l2) = processed l1 ++ processed l2.
Proof. unfold processed. apply flat_map_app. Qed.

Ltac io_cases :=
  repeat match goal with
         | |- context [match ?x with Ok _ => _ | Raise _ => _ end] => destruct x
         | |- context [if ?b then _ else _] => destruct b
         | |- context [BuildLocal.handle_run_error ?f ?e] =>
             destruct (BuildLocal.handle_run_error f e) as [? [?|?]]
         end;
  reflexivity.

(** The start of [generate_documentation] when the output directory can be
    computed and made. *)
Lemma generate_documentation_start (w : BuildLocal.world) (f out : path) :
  output_dir_of f = Ok out -> BuildLocal.mkdir w out = Ok tt ->
  BuildLocal.generate_documentation w f =
  BuildLocal.io_bind
    ([BuildLocal.Processing f; BuildLocal.RunWidoco (BuildLocal.widoco_cmd f out) 300],
     Ok tt)
    (fun _ =>
       match BuildLocal.run w (BuildLocal.widoco_cmd f out) 300 with
       | Ok (returncode, _) =>
           if (returncode =? 0)%Z then
             BuildLocal.io_bind (BuildLocal.say (BuildLocal.DocGenerated f))
               (fun _ =>
                  if BuildLocal.exists_file w (out ++ ["index-en.html"]) then
                    match BuildLocal.rename w (out ++ ["index-en.html"])
                                            (out ++ ["index.html"]) with
                    | Ok _ => BuildLocal.io_bind (BuildLocal.say (BuildLocal.Renamed f))
                                (fun _ => BuildLocal.ret true)
                    | Raise e => BuildLocal.handle_run_error f e
                    end
                  else BuildLocal.ret true)
           else BuildLocal.io_bind
                  (BuildLocal.say (BuildLocal.DocFailed f (BuildLocal.ReturnCode returncode)))
                  (fun _ => BuildLocal.ret false)
       | Raise e => BuildLocal.handle_run_error f e
       end).
Proof.
  unfold output_dir_of, BuildLocal.generate_documentation. intros Hout Hmk.
  destruct (relative_to f BuildLocal.ONTOLOGY_DIR) as [rel|e]; [|discriminate].
  cbn [bind] in Hout.
  assert (Eo : BuildLocal.DOCS_DIR ++ parent rel = out) by congruence.
  clear Hout.
  cbn [BuildLocal.io_bind BuildLocal.say BuildLocal.lift app].
  rewrite Eo, Hmk. cbn [BuildLocal.io_bind app].
  destruct (BuildLocal.run w _ 300) as [[rc err]|e]; [destruct (rc =? 0)%Z|];
    cbn [BuildLocal.io_bind BuildLocal.say app]; io_cases.
Qed.

Lemma handle_run_error_Exception (f : path) (e : exn) :
  is_Exception e = true ->
  exists why, BuildLocal.handle_run_error f e = ([BuildLocal.DocFailed f why], Ok false) /\
              (e = TimeoutExpired -> why = BuildLocal.TimedOut) /\
              (e <> TimeoutExpired -> why = BuildLocal.Error e).
Proof.
  intros He. destruct e; try discriminate He;
    (eexists; split; [reflexivity | split; [intros; congruence | intros; congruence]]).
Qed.

(** A file for which nothing but the tool fails is run once, and the result
    tells whether the tool succeeded. *)
Lemma generate_documentation_well_behaved (w : BuildLocal.world) (f : path) :
  well_behaved w f ->
  exists l,
    BuildLocal.generate_documentation w f = (l, Ok (doc_ok w f)) /\
    runs l = expected_run f /\ processed l = [f].
Proof.
  intros [out [Hout [Hmk [Hrun Hren]]]].
  rewrite (generate_documentation_start w f out Hout Hmk).
  unfold doc_ok, expected_run. rewrite Hout.
  destruct (BuildLocal.run w (BuildLocal.widoco_cmd f out) 300) as [[rc err]|e] eqn:Er.
  - destruct (rc =? 0)%Z; [|eexists; split; [reflexivity|split; reflexivity]].
    destruct (BuildLocal.exists_file w (out ++ ["index-en.html"]));
      [|eexists; split; [reflexivity|split; reflexivity]].
    destruct (BuildLocal.rename w _ _) as [u|e] eqn:En;
      [eexists; split; [reflexivity|split; reflexivity]|].
    destruct (handle_run_error_Exception f e (Hren e eq_refl)) as [why [Hh _]].
    rewrite Hh. eexists; split; [reflexivity|split; reflexivity].
  - destruct (handle_run_error_Exception f e (Hrun e eq_refl)) as [why [Hh _]].
    rewrite Hh. eexists; split; [reflexivity|split; reflexivity].
Qed.

Lemma count_file_well_behaved (w : BuildLocal.world) (f : path) (counts : nat * nat) :
  well_behaved w f ->
  exists l,
    BuildLocal.count_file w counts f
      = (l, Ok (if doc_ok w f then (S (fst counts), snd counts)
                else (fst counts, S (snd counts)))) /\
    runs l = expected_run f /\ processed l = [f].
Proof.
  intros Hwb.
  destruct (generate_documentation_well_behaved w f Hwb) as [l [Hg [Hr Hp]]].
  exists l. unfold BuildLocal.count_file. rewrite Hg.
  destruct (doc_ok w f); cbn; rewrite app_nil_r; auto.
Qed.

(** The loop goes on whatever the counters a file leaves. *)
Lemma io_for_cons (w : BuildLocal.world) (f : path) (rest : list path)
  (counts counts' : nat * nat) (l : list BuildLocal.event) :
  BuildLocal.count_file w counts f = (l, Ok counts') ->
  BuildLocal.io_for (BuildLocal.count_file w) (f :: rest) counts =
  (l ++ fst (BuildLocal.io_for (BuildLocal.count_file w) rest counts'),
   snd (BuildLocal.io_for (BuildLocal.count_file w) rest counts')).
Proof.
  intros H. cbn [BuildLocal.io_for]. rewrite H. cbn [BuildLocal.io_bind].
  destruct (BuildLocal.io_for (BuildLocal.count_file w) rest counts'). reflexivity.
Qed.

Lemma loop_well_behaved (w : BuildLocal.world) (files : list path) (counts : nat * nat) :
  (forall f, In f files -> well_behaved w f) ->
  exists l,
    BuildLocal.io_for (BuildLocal.count_file w) files counts
      = (l, Ok (fst counts + length (filter (doc_ok w) files),
                snd counts + length (filter (fun f => negb (doc_ok w f)) files))%nat) /\
    runs l = flat_map expected_run files /\ processed l = files.
Proof.
  revert counts. induction files as [|f files IH]; intros [s fl] Hwb.
  - exists []. cbn. rewrite !Nat.add_0_r. auto.
  - destruct (count_file_well_behaved w f (s, fl) (Hwb f (or_introl eq_refl)))
      as [l [Hc [Hr Hp]]].
    rewrite (io_for_cons w f files _ _ l Hc).
    destruct (IH (if doc_ok w f then (S s, fl) else (s, S fl))) as [l' [Hl [Hr' Hp']]].
    { intros g Hg. apply Hwb. right. assumption. }
    cbn [fst snd] in *. rewrite Hl. cbn [fst snd].
    exists (l ++ l'). split; [|split].
    + cbn [filter]. destruct (doc_ok w f); cbn [negb length fst snd];
        do 2 f_equal; apply f_equal2; lia.
    + rewrite runs_app, Hr, Hr'. reflexivity.
    + rewrite processed_app, Hp, Hp'. reflexivity.
Qed.

(** C5.  For a file whose output directory can be made, a nonzero exit code
    of the external tool, the timeout of its run, invoked with the bound of
    300 seconds, and any other [Exception] of the invocation each end
    [generate_documentation] with false after a single invocation; the loop
    adds one to the failure counter and goes on with the rest of the batch.
    Over a batch in which nothing but the tool fails, the loop returns:
    every file is processed once, in order, with one invocation each, and
    the counters are the numbers of files that succeeded and that failed. *)
Theorem documentation_failures_counted_batch_continues :
  (forall (w : BuildLocal.world) (f out : path) (counts : nat * nat),
    output_dir_of f = Ok out -> BuildLocal.mkdir w out = Ok tt ->
    let cmd := BuildLocal.widoco_cmd f out in
    let failed why :=
      ([BuildLocal.Processing f; BuildLocal.RunWidoco cmd 300;
        BuildLocal.DocFailed f why], Ok (fst counts, S (snd counts))) in
    (forall code err, BuildLocal.run w cmd 300 = Ok (code, err) -> code <> 0%Z ->
       BuildLocal.count_file w counts f = failed (BuildLocal.ReturnCode code)) /\
    (BuildLocal.run w cmd 300 = Raise TimeoutExpired ->
       BuildLocal.count_file w counts f = failed BuildLocal.TimedOut) /\
    (forall e, BuildLocal.run w cmd 300 = Raise e -> is_Exception e = true ->
       e <> TimeoutExpired ->
       BuildLocal.count_file w counts f = failed (BuildLocal.Error e))) /\
  (forall (w : BuildLocal.world) (f : path) (rest : list path)
          (counts : nat * nat) (l : list BuildLocal.event),
    BuildLocal.count_file w counts f = (l, Ok (fst counts, S (snd counts))) ->
    BuildLocal.io_for (BuildLocal.count_file w) (f :: rest) counts =
    (l ++ fst (BuildLocal.io_for (BuildLocal.count_file w) rest (fst counts, S (snd counts))),
     snd (BuildLocal.io_for (BuildLocal.count_file w) rest (fst counts, S (snd counts))))) /\
  (forall (w : BuildLocal.world) (files : list path),
    (forall f, In f files -> well_behaved w f) ->
    exists l,
      BuildLocal.io_for (BuildLocal.count_file w) files (0, 0)%nat
        = (l, Ok (length (filter (doc_ok w) files),
                  length (filter (fun f => negb (doc_ok w f)) files))) /\
      processed l = files /\
      runs l = flat_map expected_run files).
Proof.
  split; [|split].
  - intros w f out counts Hout Hmk cmd failed. subst cmd failed.
    unfold BuildLocal.count_file.
    rewrite (generate_documentation_start w f out Hout Hmk).
    split; [|split].
    + intros code err Hr Hc. rewrite Hr.
      apply Z.eqb_neq in Hc. rewrite Hc. reflexivity.
    + intros Hr. rewrite Hr. reflexivity.
    + intros e Hr He Hne. rewrite Hr.
      destruct e; try discriminate He; try congruence; reflexivity.
  - intros w f rest counts l. apply io_for_cons.
  - intros w files Hwb.
    destruct (loop_well_behaved w files (0, 0)%nat Hwb) as [l [Hl [Hr Hp]]].
    exists l. auto.
Qed.

Lemma documentation_failures_counted_batch_continues_witness :
  exists l,
    BuildLocal.io_for
      (BuildLocal.count_file (driver_world two_files fails_on_first example_world))
      two_files (0, 0)%nat = (l, Ok (1, 1)%nat) /\
    processed l = two_files.
Proof.
  destruct documentation_failures_counted_batch_continues as [_ [_ Hbatch]].
  destruct (Hbatch (driver_world two_files fails_on_first example_world) two_files)
    as [l [Hl [Hp _]]].
  - intros f [<-|[<-|[]]];
      (eexists; split; [reflexivity|split; [reflexivity|split; intros e H; discriminate H]]).
  - exists l. split; assumption.
Defined.

(** ** Exit status of the driver *)

Lemma main_steps_return (w : BuildLocal.world) (l : list BuildLocal.event) (s fl : nat) :
  documented w l s fl -> ((0 < s)%nat -> steps_return w) ->
  exists l2,
    BuildLocal.main w = (before_index w l l2 ++ summary_events w s fl, summary_result fl).
Proof.
  intros Hdoc Hsteps. rewrite (main_documented w l s fl Hdoc).
  destruct (0 <? s)%nat eqn:Es.
  - apply Nat.ltb_lt in Es.
    destruct (Hsteps Es) as [[l2 [t Hl]] [l3 [b Hi]]].
    rewrite Hl, Hi. destruct b; cbn; eexists; reflexivity.
  - exists []. reflexivity.
Qed.

Lemma main_never_returns_after_failure (w : BuildLocal.world)
  (l : list BuildLocal.event) (s fl : nat) :
  documented w l s fl -> (0 < fl)%nat -> exists e, snd (BuildLocal.main w) = Raise e.
Proof.
  intros Hdoc Hfl. rewrite (main_documented w l s fl Hdoc).
  destruct (if (0 <? s)%nat then _ else _) as [l2 [u|e]].
  - unfold summary_result. apply Nat.ltb_lt in Hfl. rewrite Hfl. eexists; reflexivity.
  - eexists; reflexivity.
Qed.

Lemma documented_well_behaved (w : BuildLocal.world) :
  prerequisites w -> BuildLocal.ontology_files w <> [] ->
  (forall f, In f (BuildLocal.ontology_files w) -> well_behaved w f) ->
  exists l,
    documented w l
      (length (filter (doc_ok w) (BuildLocal.ontology_files w)))
      (length (filter (fun f => negb (doc_ok w f)) (BuildLocal.ontology_files w))).
Proof.
  intros [Hj Hjar] Hne Hwb.
  destruct (loop_well_behaved w _ (0, 0)%nat Hwb) as [l [Hl _]].
  exists l. repeat split; assumption.
Qed.

Lemma filter_length_pos {A : Type} (p : A -> bool) (l : list A) (x : A) :
  In x l -> p x = true -> (0 < length (filter p l))%nat.
Proof.
  intros Hin Hp. assert (H : In x (filter p l)) by (apply filter_In; auto).
  destruct (filter p l); [destruct H | simpl; lia].
Qed.

Lemma filter_length_zero {A : Type} (p : A -> bool) (l : list A) :
  (forall x, In x l -> p x = false) -> length (filter p l) = 0%nat.
Proof.
  induction l as [|a l IH]; simpl; intros H; auto.
  rewrite (H a) by auto. apply IH. intros x Hx. apply H. auto.
Qed.

(** C6, as the claim states its last part: with Java and the jar present and
    no file failing, the driver would not exit nonzero.  With an empty batch
    both hold and the driver exits with status 1; so it does when the only
    file succeeds and the latest-folder step then raises on a version
    directory that is not numeric. *)
Lemma empty_batch_exits_nonzero :
  (prerequisites empty_batch_world /\
   (forall f, In f (BuildLocal.ontology_files empty_batch_world) ->
              doc_ok empty_batch_world f = true) /\
   BuildLocal.main empty_batch_world
     = ([BuildLocal.JavaFound; BuildLocal.JarFound; BuildLocal.NoOntologyFiles],
        Raise (SystemExit 1)) /\
   exit_status (snd (BuildLocal.main empty_batch_world)) <> 0%Z) /\
  (prerequisites release_candidate_world /\
   (forall f, In f (BuildLocal.ontology_files release_candidate_world) ->
              doc_ok release_candidate_world f = true) /\
   snd (BuildLocal.main release_candidate_world) = Raise ValueError /\
   exit_status (snd (BuildLocal.main release_candidate_world)) <> 0%Z).
Proof.
  split; repeat split.
  - exists "openjdk version 17". reflexivity.
  - intros f [].
  - discriminate.
  - exists "openjdk version 17". reflexivity.
  - intros f [<-|[]]. reflexivity.
  - discriminate.
Qed.

(** C6, amended.  The driver exits with status 1, having run nothing, when
    Java is missing, when the jar is missing, and when no ontology file is
    found.  With the prerequisites there and a batch in which nothing but
    the tool fails: if some file failed, [main] never returns normally, and
    it exits with status 1 after the summary when the steps after the loop
    return; if the batch is not empty, every file succeeded and the steps
    after the loop return, [main] returns normally, with status 0. *)
Theorem driver_exit_status :
  (forall w : BuildLocal.world,
    BuildLocal.java_version w = Raise FileNotFoundError ->
    BuildLocal.main w = ([BuildLocal.JavaMissing], Raise (SystemExit 1))) /\
  (forall w : BuildLocal.world,
    (exists ver, BuildLocal.java_version w = Ok ver) ->
    BuildLocal.jar_exists w = false ->
    BuildLocal.main w
      = ([BuildLocal.JavaFound; BuildLocal.JarMissing], Raise (SystemExit 1))) /\
  (forall w : BuildLocal.world,
    prerequisites w -> BuildLocal.ontology_files w = [] ->
    BuildLocal.main w
      = ([BuildLocal.JavaFound; BuildLocal.JarFound; BuildLocal.NoOntologyFiles],
         Raise (SystemExit 1))) /\
  (forall (w : BuildLocal.world) (f : path),
    prerequisites w ->
    (forall g, In g (BuildLocal.ontology_files w) -> well_behaved w g) ->
    In f (BuildLocal.ontology_files w) -> doc_ok w f = false ->
    (exists e, snd (BuildLocal.main w) = Raise e) /\
    (((0 < length (filter (doc_ok w) (BuildLocal.ontology_files w)))%nat ->
      steps_return w) ->
     snd (BuildLocal.main w) = Raise (SystemExit 1) /\
     exit_status (snd (BuildLocal.main w)) = 1%Z /\
     exists total s fl, In (BuildLocal.Summary total s fl) (fst (BuildLocal.main w)))) /\
  (forall w : BuildLocal.world,
    prerequisites w -> BuildLocal.ontology_files w <> [] ->
    (forall g, In g (BuildLocal.ontology_files w) ->
               well_behaved w g /\ doc_ok w g = true) ->
    steps_return w ->
    snd (BuildLocal.main w) = Ok tt /\
    exit_status (snd (BuildLocal.main w)) = 0%Z).
Proof.
  split; [|split; [|split; [|split]]].
  - intros w Hj. unfold BuildLocal.main, BuildLocal.check_java. rewrite Hj. reflexivity.
  - intros w [ver Hj] Hjar.
    unfold BuildLocal.main, BuildLocal.check_java, BuildLocal.check_widoco.
    rewrite Hj, Hjar. reflexivity.
  - intros w [[ver Hj] Hjar] Hf.
    unfold BuildLocal.main, BuildLocal.check_java, BuildLocal.check_widoco.
    rewrite Hj, Hjar, Hf. reflexivity.
  - intros w f Hpre Hwb Hin Hfail.
    assert (Hne : BuildLocal.ontology_files w <> [])
      by (intros E; rewrite E in Hin; destruct Hin).
    destruct (documented_well_behaved w Hpre Hne Hwb) as [l Hdoc].
    assert (Hfl : (0 < length (filter (fun g => negb (doc_ok w g))
                                      (BuildLocal.ontology_files w)))%nat).
    { apply (filter_length_pos _ _ f); auto. rewrite Hfail. reflexivity. }
    split.
    + eapply main_never_returns_after_failure; eassumption.
    + intros Hsteps.
      destruct (main_steps_return w l _ _ Hdoc Hsteps) as [l2 Hmain].
      rewrite Hmain. cbn [fst snd]. unfold summary_result.
      apply Nat.ltb_lt in Hfl. rewrite Hfl. repeat split.
      do 3 eexists. apply in_or_app. right. left. reflexivity.
  - intros w Hpre Hne Hall Hsteps.
    assert (Hwb : forall g, In g (BuildLocal.ontology_files w) -> well_behaved w g)
      by (intros g Hg; apply Hall; assumption).
    destruct (documented_well_behaved w Hpre Hne Hwb) as [l Hdoc].
    destruct (main_steps_return w l _ _ Hdoc (fun _ => Hsteps)) as [l2 Hmain].
    rewrite Hmain. cbn [snd].
    rewrite filter_length_zero.
    + split; reflexivity.
    + intros g Hg. destruct (Hall g Hg) as [_ ->]. reflexivity.
Qed.

Lemma driver_exit_status_witness :
  BuildLocal.main no_java_world = ([BuildLocal.JavaMissing], Raise (SystemExit 1)) /\
  snd (BuildLocal.main (driver_world one_file (fun _ => 0%Z) example_world)) = Ok tt /\
  snd (BuildLocal.main (driver_world two_files fails_on_first example_world))
    = Raise (SystemExit 1).
Proof.
  destruct driver_exit_status as [Hjava [_ [_ [Hfail Hgood]]]].
  split; [|split].
  - apply (Hjava no_java_world). reflexivity.
  - apply (Hgood (driver_world one_file (fun _ => 0%Z) example_world)).
    + split; [eexists|]; reflexivity.
    + discriminate.
    + intros g [<-|[]]. split; [|reflexivity].
      eexists; split; [reflexivity|split; [reflexivity|split; intros e H; discriminate H]].
    + split; do 2 eexists; reflexivity.
  - apply (Hfail (driver_world two_files fails_on_first example_world)
                 ["ontology"; "modules"; "m"; "0.1"; "m.ttl"]).
    + split; [eexists|]; reflexivity.
    + intros g [<-|[<-|[]]];
        (eexists; split; [reflexivity|split; [reflexivity|split; intros e H; discriminate H]]).
    + left. reflexivity.
    + reflexivity.
    + intros _. split; do 2 eexists; reflexivity.
Defined.

(** ** The latest folder *)

Lemma filter_result_Ok {A : Type} (p : A -> result bool) (xs ys : list A) :
  filter_result p xs = Ok ys ->
  forall x, In x ys <-> In x xs /\ p x = Ok true.
Proof.
  revert ys. induction xs as [|a xs IH]; simpl; intros ys H x.
  - injection H as <-. simpl. tauto.
  - destruct (p a) as [b|e] eqn:Ep; [|discriminate]. cbn [bind] in H.
    destruct (filter_result p xs) as [zs|e]; [|discriminate]. cbn [bind] in H.
    injection H as <-. specialize (IH zs eq_refl x).
    destruct b; simpl; rewrite IH; intuition (subst; auto; congruence).
Qed.

Lemma filter_result_total {A : Type} (p : A -> result bool) (xs : list A) :
  (forall x, In x xs -> exists b, p x = Ok b) -> exists ys, filter_result p xs = Ok ys.
Proof.
  induction xs as [|a xs IH]; simpl; intros H.
  - eexists; reflexivity.
  - destruct (H a (or_introl eq_refl)) as [b ->].
    destruct IH as [ys ->]; [auto|]. eexists; reflexivity.
Qed.

Lemma map_result_Ok {A B : Type} (f : A -> result B) (xs : list A) (ys : list B) :
  map_result f xs = Ok ys ->
  (forall y, In y ys -> exists x, In x xs /\ f x = Ok y) /\
  (forall x, In x xs -> exists y, In y ys /\ f x = Ok y).
Proof.
  revert ys. induction xs as [|a xs IH]; simpl; intros ys H.
  - injection H as <-. split; intros ? [].
  - destruct (f a) as [b|e] eqn:Ef; [|discriminate]. cbn [bind] in H.
    destruct (map_result f xs) as [zs|e]; [|discriminate]. cbn [bind] in H.
    injection H as <-. destruct (IH zs eq_refl) as [IH1 IH2]. split.
    + intros y [<-|Hy]; [eauto|].
      destruct (IH1 y Hy) as [x [Hx Hf]]. eauto.
    + intros x [<-|Hx]; [exists b; simpl; auto|].
      destruct (IH2 x Hx) as [y [Hy Hf]]. exists y. simpl. auto.
Qed.

Lemma map_result_total {A B : Type} (f : A -> result B) (xs : list A) :
  (forall x, In x xs -> exists y, f x = Ok y) -> exists ys, map_result f xs = Ok ys.
Proof.
  induction xs as [|a xs IH]; simpl; intros H.
  - eexists; reflexivity.
  - destruct (H a (or_introl eq_refl)) as [b ->].
    destruct IH as [ys ->]; [auto|]. eexists; reflexivity.
Qed.


Lemma last_map {A B : Type} (f : A -> B) (l : list A) (d : A) :
  last (map f l) (f d) = f (last l d).
Proof.
  induction l as [|a l IH]; simpl; auto.
  destruct l; simpl in *; auto.
Qed.

Lemma last_In {A : Type} (l : list A) (d : A) : l <> [] -> In (last l d) l.
Proof.
  induction l as [|a l IH]; [congruence|]. intros _.
  destruct l as [|b l]; [left; reflexivity|].
  right. apply IH. discriminate.
Qed.

Lemma key_leb_refl (a : list Z * (string * node)) : BuildLocal.key_leb a a = true.
Proof.
  unfold BuildLocal.key_leb.
  destruct (list_Z_leb_total (fst a) (fst a)); assumption.
Qed.


(** The keyed list of the sort pairs every directory with its key. *)
Lemma keyed_spec (version_dirs : list (string * node))
  (keyed : list (list Z * (string * node))) :
  map_result (fun d => k <- BuildLocal.version_key (fst d) ;; Ok (k, d)) version_dirs
    = Ok keyed ->
  (forall kd, In kd keyed ->
     In (snd kd) version_dirs /\ BuildLocal.version_key (fst (snd kd)) = Ok (fst kd)) /\
  (forall d, In d version_dirs ->
     exists k, In (k, d) keyed /\ BuildLocal.version_key (fst d) = Ok k).
Proof.
  intros H. apply map_result_Ok in H as [H1 H2]. split.
  - intros kd Hin. destruct (H1 kd Hin) as [d [Hd Hf]].
    destruct (BuildLocal.version_key (fst d)) as [k|e] eqn:Ek; [|discriminate].
    cbn [bind] in Hf. injection Hf as <-. simpl. auto.
  - intros d Hin. destruct (H2 d Hin) as [kd [Hkd Hf]].
    destruct (BuildLocal.version_key (fst d)) as [k|e] eqn:Ek; [|discriminate].
    cbn [bind] in Hf. injection Hf as <-. eauto.
Qed.

(** The directory chosen as latest is a version directory whose key no
    other version directory's key exceeds. *)
Lemma latest_version_max (entries : list (string * node)) (v : string * node) :
  BuildLocal.latest_version entries = Ok (Some v) ->
  In v entries /\ BuildLocal.is_version_dir v = Ok true /\
  exists kv, BuildLocal.version_key (fst v) = Ok kv /\
    forall d, In d entries -> BuildLocal.is_version_dir d = Ok true ->
      exists kd, BuildLocal.version_key (fst d) = Ok kd /\ list_Z_leb kd kv = true.
Proof.
  unfold BuildLocal.latest_version.
  destruct (filter_result BuildLocal.is_version_dir entries) as [vds|e] eqn:Ef;
    [|discriminate].
  cbn [bind]. pose proof (filter_result_Ok _ _ _ Ef) as Hvds.
  destruct vds as [|d0 vds']; [discriminate|].
  set (vds := d0 :: vds') in *.
  unfold BuildLocal.sort_version_dirs.
  destruct (map_result _ vds) as [keyed|e] eqn:Ek; [|discriminate].
  cbn [bind]. intros H. injection H as <-.
  destruct (keyed_spec vds keyed Ek) as [K1 K2].
  change ("", Dir []) with (snd (@nil Z, ("", Dir []))).
  rewrite last_map.
  set (top := last (list_sort BuildLocal.key_leb keyed) ([], ("", Dir []))).
  assert (Hne : keyed <> []).
  { destruct (K2 d0 (or_introl eq_refl)) as [k [Hk _]].
    intros E. rewrite E in Hk. destruct Hk. }
  assert (Htop : In top keyed).
  { apply (In_list_sort BuildLocal.key_leb). apply last_In.
    intros E. apply Hne. apply Permutation_nil.
    rewrite <- E. apply list_sort_perm. }
  destruct (K1 top Htop) as [Hin Hkey].
  apply Hvds in Hin as [Hin Hv].
  split; [assumption|]. split; [assumption|].
  exists (fst top). split; [assumption|].
  intros d Hd Hdv.
  destruct (K2 d (proj2 (Hvds d) (conj Hd Hdv))) as [k [Hk Hkd]].
  exists k. split; [assumption|].
  change (BuildLocal.key_leb (k, d) top = true).
  apply last_list_sort_max; auto.
  - intros a b. apply list_Z_leb_total.
  - intros a b c. apply list_Z_leb_trans.
  - apply key_leb_refl.
Qed.

Lemma dict_get_app {V : Type} (k : string) (a b : dict V) :
  dict_get k (a ++ b) = match dict_get k a with
                        | Some v => Some v
                        | None => dict_get k b
                        end.
Proof.
  induction a as [|[k' v'] a IH]; simpl; auto.
  destruct (String.eqb k k'); auto.
Qed.

Lemma lookup_remove_entry (nm k : string) (entries : list (string * node)) :
  lookup k (remove_entry nm entries) = if String.eqb k nm then None else lookup k entries.
Proof.
  unfold lookup, remove_entry.
  induction entries as [|[k' n] entries IH]; simpl.
  - destruct (String.eqb k nm); reflexivity.
  - destruct (String.eqb_spec k' nm) as [->|Hne]; simpl.
    + rewrite IH. destruct (String.eqb_spec k nm) as [->|Hk]; auto.
    + rewrite IH. destruct (String.eqb_spec k k') as [->|Hk]; auto.
      apply String.eqb_neq in Hne. rewrite Hne. reflexivity.
Qed.

Lemma replace_latest_spec (entries : list (string * node)) (latest : node) :
  (forall content, lookup "latest" entries <> Some (File content)) ->
  BuildLocal.replace_latest entries latest
    = Ok (remove_entry "latest" entries ++ [("latest", latest)]) /\
  lookup "latest" (remove_entry "latest" entries ++ [("latest", latest)]) = Some latest /\
  forall nm, nm <> "latest" ->
    lookup nm (remove_entry "latest" entries ++ [("latest", latest)]) = lookup nm entries.
Proof.
  intros Hfile. split; [|split].
  - unfold BuildLocal.replace_latest.
    destruct (lookup "latest" entries) as [[content|sub]|] eqn:E; auto.
    exfalso. eapply Hfile. reflexivity.
  - unfold lookup at 1. rewrite dict_get_app.
    fold (lookup "latest" (remove_entry "latest" entries)).
    rewrite lookup_remove_entry. reflexivity.
  - intros nm Hne. unfold lookup at 1. rewrite dict_get_app.
    fold (lookup nm (remove_entry "latest" entries)).
    rewrite lookup_remove_entry.
    apply String.eqb_neq in Hne. rewrite Hne.
    destruct (lookup nm entries) eqn:E; auto.
    simpl. rewrite Hne. reflexivity.
Qed.



(** *** Names that are not numeric *)











Lemma length_append (a b : string) :
  String.length (a ++ b) = (String.length a + String.length b)%nat.
Proof. induction a as [|c a IH]; simpl; congruence. Qed.









Lemma is_version_dir_true (d : string * node) :
  BuildLocal.is_version_dir d = Ok true <->
  is_dir (snd d) = true /\ fst d <> "latest" /\ fst d <> "" /\
  begins_with_digit (fst d) = true.
Proof.
  unfold BuildLocal.is_version_dir. destruct d as [nm nd]. cbn [fst snd].
  destruct (is_dir nd); cbn [negb].
  - destruct (String.eqb_spec nm "latest") as [->|Hne].
    + split; [discriminate|]. intros [_ [H _]]. congruence.
    + destruct nm as [|c rest].
      * split; [discriminate|]. intros [_ [_ [H _]]]. congruence.
      * unfold first_isdigit. fold (begins_with_digit (String c rest)). split.
        -- intros H. injection H as H. repeat split; auto. discriminate.
        -- intros [_ [_ [_ H]]]. rewrite H. reflexivity.
  - split; [discriminate|]. intros [H _]. discriminate.
Qed.





(** *** What [int] accepts beyond the unsigned integers *)









(** *** When the step returns *)











(** * Further properties *)

(** ** The pattern of the path scanner *)

Lemma append_assoc (a b c : string) : ((a ++ b) ++ c = a ++ (b ++ c))%string.
Proof. induction a as [|x a IH]; simpl; congruence. Qed.

Lemma strip_prefix_append (p s : string) : strip_prefix p (p ++ s)%string = Some s.
Proof.
  induction p as [|a p IH]; simpl; auto.
  rewrite Ascii.eqb_refl. exact IH.
Qed.

Lemma strip_prefix_Some (p s r : string) :
  strip_prefix p s = Some r -> s = (p ++ r)%string.
Proof.
  revert s. induction p as [|a p IH]; simpl; intros s H.
  - congruence.
  - destruct s as [|b s]; [discriminate|].
    destruct (Ascii.eqb_spec a b) as [->|Hne]; [|discriminate].
    f_equal. apply IH. assumption.
Qed.

Lemma span_not_slash_append (m r : string) :
  slash_free m = true -> component_end r = true ->
  span_not_slash (m ++ r)%string = (m, r).
Proof.
  unfold slash_free. induction m as [|c m IH]; simpl; intros Hm Hr.
  - destruct r as [|c r]; simpl in *; auto. rewrite Hr. reflexivity.
  - apply andb_true_iff in Hm as [Hc Hm].
    apply negb_true_iff in Hc. rewrite Hc, (IH Hm Hr). reflexivity.
Qed.

Lemma span_not_slash_spec (s m r : string) :
  span_not_slash s = (m, r) ->
  s = (m ++ r)%string /\ slash_free m = true /\ component_end r = true.
Proof.
  unfold slash_free. revert m r. induction s as [|c s IH]; simpl; intros m r H.
  - injection H as <- <-. auto.
  - destruct (Ascii.eqb c "/") eqn:Ec.
    + injection H as <- <-. simpl. rewrite Ec. auto.
    + destruct (span_not_slash s) as [m' r'].
      injection H as <- <-.
      destruct (IH m' r' eq_refl) as [-> [Hm Hr]].
      simpl. rewrite Ec. auto.
Qed.

Lemma re_match_source_of (type n v rest : string) :
  slash_free n = true -> slash_free v = true -> component_end rest = true ->
  re_match type (source_of type n v rest) = Some (n, v).
Proof.
  intros Hn Hv Hr. unfold re_match, source_of.
  replace ("ontology/" ++ type ++ "/" ++ n ++ "/" ++ v ++ rest)%string
    with (("ontology/" ++ type ++ "/") ++ (n ++ "/" ++ v ++ rest))%string
    by (rewrite !append_assoc; reflexivity).
  rewrite strip_prefix_append.
  rewrite (span_not_slash_append n ("/" ++ v ++ rest)) by auto.
  cbn [append Ascii.eqb Bool.eqb].
  rewrite (span_not_slash_append v rest) by auto.
  reflexivity.
Qed.

Lemma re_match_Some (type source n v : string) :
  re_match type source = Some (n, v) ->
  slash_free n = true /\ slash_free v = true /\
  exists rest, component_end rest = true /\ source = source_of type n v rest.
Proof.
  unfold re_match, source_of.
  destruct (strip_prefix _ source) as [r0|] eqn:Ep; [|discriminate].
  apply strip_prefix_Some in Ep.
  destruct (span_not_slash r0) as [g1 r1] eqn:E1.
  apply span_not_slash_spec in E1 as [-> [Hg1 Hr1]].
  destruct r1 as [|c r2]; [discriminate|].
  destruct (Ascii.eqb_spec c "/") as [->|Hne]; [|discriminate].
  destruct (span_not_slash r2) as [g2 r3] eqn:E2.
  apply span_not_slash_spec in E2 as [-> [Hg2 Hr3]].
  intros H. injection H as <- <-.
  repeat split; auto. exists r3. split; auto.
  rewrite Ep, !append_assoc. reflexivity.
Qed.

(** X1.  The pattern matches a source exactly when the source is the
    directory of the type followed by two components free of slashes and
    then nothing or a further slash; the groups are those two components.
    So every path of the shape the glob pattern lists, whatever its file
    name, yields its name and version directories. *)
Theorem re_match_characterised (type source n v : string) :
  re_match type source = Some (n, v) <->
  slash_free n = true /\ slash_free v = true /\
  exists rest, component_end rest = true /\ source = source_of type n v rest.
Proof.
  split.
  - apply re_match_Some.
  - intros [Hn [Hv [rest [Hr ->]]]]. apply re_match_source_of; assumption.
Qed.

(** ** When the aggregation returns *)

Lemma scan_Raise_source (type : string) (sources : list string)
  (st : dict ontology) (e : exn) :
  for_each (BuildIndex.scan_source type) sources st = Raise e ->
  exists source, In source sources /\ endswith source ".ttl" = true /\
                 re_match type source = None.
Proof.
  revert st. induction sources as [|s sources IH]; simpl; intros st H; [discriminate|].
  unfold BuildIndex.scan_source in H at 1.
  destruct (endswith s ".ttl") eqn:Ee; simpl in H.
  - destruct (re_match type s) as [[n v]|] eqn:Em; simpl in H.
    + destruct (IH _ H) as [source [Hin Hs]]. eauto.
    + exists s. auto.
  - destruct (IH _ H) as [source [Hin Hs]]. eauto.
Qed.

Lemma build_data_Raise_malformed (w : index_world) (e : exn) :
  BuildIndex.build_data w = Raise e -> malformed w.
Proof.
  unfold BuildIndex.build_data, types. cbn [for_each].
  unfold BuildIndex.process_type at 1.
  destruct (BuildIndex.scan "modules" _) as [om|e1] eqn:Em; cbn [bind].
  - unfold BuildIndex.process_type at 1.
    destruct (BuildIndex.scan "demo" _) as [od|e2] eqn:Ed; cbn [bind].
    + discriminate.
    + intros _. apply scan_Raise_source in Ed as [source [Hin [He Hm]]].
      exists "demo", source. simpl. auto.
  - intros _. apply scan_Raise_source in Em as [source [Hin [He Hm]]].
    exists "modules", source. simpl. auto.
Qed.

(** The two ways the aggregation ends. *)
Lemma build_data_cases (w : index_world) :
  (malformed w /\ BuildIndex.build_data w = Raise AttributeError) \/
  (~ malformed w /\ BuildIndex.build_data w = Ok (expected_data w)).
Proof.
  destruct (BuildIndex.build_data w) as [d|e] eqn:E.
  - right. split.
    + intros [type [source [Ht [Hin [He Hm]]]]].
      rewrite (build_data_malformed w type source Ht Hin He Hm) in E. discriminate.
    + f_equal. apply (build_data_buckets w d E).
  - left. pose proof (build_data_Raise w e E) as ->.
    split; [eapply build_data_Raise_malformed; eassumption | reflexivity].
Qed.

Lemma glob_shaped_not_malformed (w : index_world) : glob_shaped w -> ~ malformed w.
Proof.
  intros Hshape [type [source [Ht [Hin [He Hm]]]]].
  destruct (Hshape type source Ht Hin) as [n [v [file [Hn [Hv ->]]]]].
  rewrite re_match_source_of in Hm by auto. discriminate.
Qed.

Lemma re_match_characterised_witness :
  re_match "modules" "ontology/modules/actorODP/0.1/actorODP.ttl"
  = Some ("actorODP", "0.1").
Proof.
  apply (proj2 (re_match_characterised "modules"
                  "ontology/modules/actorODP/0.1/actorODP.ttl" "actorODP" "0.1")).
  split; [reflexivity|]. split; [reflexivity|].
  exists "/actorODP.ttl". split; reflexivity.
Defined.

(** X2.  In either script the aggregation returns its data exactly when no
    source with the indexable extension fails the pattern, and raises
    [AttributeError] otherwise; the data is then the one determined by the
    pairs of the two listings. *)
Theorem build_data_returns_iff_well_formed (w : index_world) :
  ((exists d, BuildIndex.build_data w = Ok d) <-> ~ malformed w) /\
  ((exists d, BuildLocal.build_data w = Ok d) <-> ~ malformed w) /\
  (BuildIndex.build_data w = Raise AttributeError <-> malformed w) /\
  (forall d, BuildIndex.build_data w = Ok d -> d = expected_data w).
Proof.
  change (BuildLocal.build_data w) with (BuildIndex.build_data w).
  destruct (build_data_cases w) as [[Hm E]|[Hm E]]; rewrite E.
  - repeat split; try tauto; try discriminate.
    + intros [d H]. discriminate.
    + intros [d H]. discriminate.
  - repeat split; try tauto; try discriminate; eauto.
    intros d H. congruence.
Qed.

Lemma build_data_returns_iff_well_formed_witness :
  exists d, BuildIndex.build_data example_world = Ok d.
Proof.
  apply (proj2 (proj1 (build_data_returns_iff_well_formed example_world))).
  intros [type [source [Ht [Hin [He Hm]]]]].
  destruct Ht as [<-|[<-|[]]]; simpl in Hin; [|destruct Hin].
  destruct Hin as [<-|[<-|[<-|[<-|[]]]]]; discriminate.
Defined.

(** X3.  When every listed source has the shape that the glob pattern
    lists (type directory, name, version, file name, the name and the
    version free of slashes), the aggregation of either script returns: the
    failed match cannot arise from such a listing. *)
Theorem glob_shaped_listing_never_aborts (w : index_world) :
  glob_shaped w ->
  BuildIndex.build_data w = Ok (expected_data w) /\
  BuildLocal.build_data w = Ok (expected_data w).
Proof.
  intros Hshape. change (BuildLocal.build_data w) with (BuildIndex.build_data w).
  destruct (build_data_cases w) as [[Hm _]|[_ E]].
  - exfalso. exact (glob_shaped_not_malformed w Hshape Hm).
  - auto.
Qed.

Lemma glob_shaped_listing_never_aborts_witness :
  BuildIndex.build_data example_world = Ok (expected_data example_world) /\
  BuildLocal.build_data example_world = Ok (expected_data example_world).
Proof.
  apply glob_shaped_listing_never_aborts.
  intros type source [<-|[<-|[]]] Hin; simpl in Hin; [|destruct Hin].
  destruct Hin as [<-|[<-|[<-|[<-|[]]]]].
  - exists "widgetX", "0.1", "widgetX.ttl". repeat split.
  - exists "actorODP", "0.1", "actorODP.ttl". repeat split.
  - exists "actorODP", "0.2", "actorODP.ttl". repeat split.
  - exists "actorODP", "0.2", "README.md". repeat split.
Defined.

(** ** Independence of the listing order *)

Lemma StronglySorted_perm_eq {A : Type} (R : A -> A -> Prop) (l1 l2 : list A) :
  StronglySorted R l1 -> StronglySorted R l2 -> Permutation l1 l2 ->
  (forall x y, In x l1 -> In y l1 -> R x y -> R y x -> x = y) ->
  l1 = l2.
Proof.
  intros H1. revert l2. induction H1 as [|x t1 Hs1 IH Hall1]; intros l2 H2 Hp Hanti.
  - apply Permutation_nil in Hp. congruence.
  - destruct l2 as [|y t2].
    + symmetry in Hp. apply Permutation_nil in Hp. discriminate.
    + apply StronglySorted_inv in H2 as [Hs2 Hall2].
      assert (Hxy : x = y).
      { assert (Hx : In x (y :: t2)) by (eapply Permutation_in; [exact Hp|left; auto]).
        assert (Hy : In y (x :: t1))
          by (eapply Permutation_in; [symmetry; exact Hp|left; auto]).
        destruct Hx as [->|Hx]; auto.
        destruct Hy as [->|Hy]; auto.
        rewrite Forall_forall in Hall1, Hall2.
        apply Hanti; [left; auto | right; auto | auto | auto]. }
      subst y. f_equal. apply IH; auto.
      * eapply Permutation_cons_inv. exact Hp.
      * intros a b Ha Hb. apply Hanti; right; assumption.
Qed.

Lemma Permutation_filter_compat {A : Type} (f : A -> bool) (l l' : list A) :
  Permutation l l' -> Permutation (filter f l) (filter f l').
Proof.
  induction 1 as [|x l l' Hp IH|x y l|l l' l'' H1 IH1 H2 IH2]; simpl.
  - constructor.
  - destruct (f x); auto.
  - destruct (f x), (f y); auto. constructor.
  - etransitivity; eassumption.
Qed.

Lemma list_sort_string_perm (l l' : list string) :
  Permutation l l' -> list_sort String.leb l = list_sort String.leb l'.
Proof.
  intros Hp.
  apply (StronglySorted_perm_eq (ascending String.leb)).
  - apply list_sort_strongly; [apply String.leb_total | apply string_leb_trans].
  - apply list_sort_strongly; [apply String.leb_total | apply string_leb_trans].
  - rewrite !list_sort_perm. assumption.
  - intros x y _ _. apply String.leb_antisym.
Qed.

Lemma versions_of_perm (n : string) (pairs pairs' : list (string * string)) :
  Permutation pairs pairs' ->
  list_sort_reverse String.leb (versions_of n pairs)
  = list_sort_reverse String.leb (versions_of n pairs').
Proof.
  intros Hp. unfold list_sort_reverse. f_equal.
  apply list_sort_string_perm.
  rewrite <- !Permutation_rev. unfold versions_of.
  apply Permutation_map, Permutation_filter_compat. assumption.
Qed.

Lemma name_leb_trans (a b c : ontology) :
  name_leb a b = true -> name_leb b c = true -> name_leb a c = true.
Proof. apply string_leb_trans. Qed.

(** A bucket depends on the pairs up to their order only. *)
Lemma bucket_of_perm (p : string -> bool) (pairs pairs' : list (string * string)) :
  Permutation pairs pairs' -> bucket_of p pairs = bucket_of p pairs'.
Proof.
  intros Hp.
  assert (Hin : forall o, In o (bucket_of p pairs) <-> In o (bucket_of p pairs')).
  { intros o. rewrite !bucket_In.
    rewrite (versions_of_perm (name o) pairs pairs' Hp).
    assert (Hne : versions_of (name o) pairs <> [] <-> versions_of (name o) pairs' <> []).
    { assert (Hv : Permutation (versions_of (name o) pairs) (versions_of (name o) pairs'))
        by (unfold versions_of; apply Permutation_map, Permutation_filter_compat; exact Hp).
      split; intros H E; apply H.
      - rewrite E in Hv. apply Permutation_nil. symmetry. assumption.
      - rewrite E in Hv. apply Permutation_nil. assumption. }
    tauto. }
  apply (StronglySorted_perm_eq (ascending name_leb)).
  - apply list_sort_strongly; [apply name_leb_total | apply name_leb_trans].
  - apply list_sort_strongly; [apply name_leb_total | apply name_leb_trans].
  - apply NoDup_Permutation; auto.
    + eapply NoDup_map_inv. apply bucket_NoDup.
    + eapply NoDup_map_inv. apply bucket_NoDup.
  - intros x y Hx Hy Hxy Hyx.
    assert (En : name x = name y) by (apply String.leb_antisym; assumption).
    apply bucket_In in Hx as [_ [_ Ex]]. apply bucket_In in Hy as [_ [_ Ey]].
    destruct x as [nx vx], y as [ny vy]. simpl in *. congruence.
Qed.

Lemma triples_perm (type : string) (sources sources' : list string) :
  Permutation sources sources' ->
  Permutation (triples type sources) (triples type sources').
Proof. intros Hp. unfold triples. apply Permutation_flat_map. assumption. Qed.

(** X4.  The result of the aggregation does not depend on the order in
    which [glob] lists the paths of a type: two listings that are
    permutations of each other give the same data, or the same exception,
    in either script. *)
Theorem build_data_independent_of_listing_order (w w' : index_world) :
  (forall type, In type types ->
     Permutation (glob w (glob_pattern type)) (glob w' (glob_pattern type))) ->
  BuildIndex.build_data w = BuildIndex.build_data w' /\
  BuildLocal.build_data w = BuildLocal.build_data w'.
Proof.
  intros Hp.
  change (BuildLocal.build_data w) with (BuildIndex.build_data w).
  change (BuildLocal.build_data w') with (BuildIndex.build_data w').
  assert (Hmal : malformed w <-> malformed w').
  { split; intros [type [source [Ht [Hin [He Hm]]]]];
      exists type, source; repeat split; auto;
      (eapply Permutation_in; [|exact Hin]);
      [apply Hp | symmetry; apply Hp]; assumption. }
  assert (Hdata : expected_data w = expected_data w').
  { unfold expected_data. cbv zeta.
    assert (Hm : Permutation (triples "modules" (glob w (glob_pattern "modules")))
                             (triples "modules" (glob w' (glob_pattern "modules"))))
      by (apply triples_perm, Hp; simpl; auto).
    assert (Hd : Permutation (triples "demo" (glob w (glob_pattern "demo")))
                             (triples "demo" (glob w' (glob_pattern "demo"))))
      by (apply triples_perm, Hp; simpl; auto).
    f_equal; apply bucket_of_perm; assumption. }
  destruct (build_data_cases w) as [[Hm E]|[Hm E]];
    destruct (build_data_cases w') as [[Hm' E']|[Hm' E']];
    rewrite E, E'; try tauto.
  rewrite Hdata. auto.
Qed.

Lemma build_data_independent_of_listing_order_witness :
  BuildIndex.build_data example_world = BuildIndex.build_data example_world_reordered /\
  BuildLocal.build_data example_world = BuildLocal.build_data example_world_reordered.
Proof.
  apply build_data_independent_of_listing_order.
  intros type [<-|[<-|[]]]; simpl; [|constructor].
  apply Permutation_rev.
Defined.

(** ** What the buckets hold *)

Lemma build_data_expected (w : index_world) (d : index_data) :
  BuildIndex.build_data w = Ok d \/ BuildLocal.build_data w = Ok d ->
  d = expected_data w.
Proof. intros H. apply build_data_either in H. apply (build_data_buckets w d H). Qed.

(** Every bucket of the expected data is the bucket of some test and some
    list of pairs. *)
Lemma expected_data_buckets (w : index_world) (bucket : list ontology) :
  In bucket (data_values (expected_data w)) ->
  exists p pairs, bucket = bucket_of p pairs.
Proof.
  unfold expected_data. cbv zeta.
  cbn [data_values core other demo actor observation process resource supplementary].
  intros [<-|[<-|[<-|[<-|[<-|[<-|[<-|[<-|[]]]]]]]]]; do 2 eexists; reflexivity.
Qed.

Lemma string_geb_trans (a b c : string) :
  descending String.leb a b -> descending String.leb b c -> descending String.leb a c.
Proof. unfold descending. intros H1 H2. eapply string_leb_trans; eassumption. Qed.

(** X5.  On a returning run of either script every entry of every bucket
    lists at least one version, and its first version is the greatest of
    its versions in the order of strings: the template can take the head of
    the list as the newest. *)
Theorem entries_list_greatest_version_first (w : index_world) (d : index_data) :
  BuildIndex.build_data w = Ok d \/ BuildLocal.build_data w = Ok d ->
  forall bucket o, In bucket (data_values d) -> In o bucket ->
    exists newest older,
      versions o = newest :: older /\
      forall v, In v (versions o) -> String.leb v newest = true.
Proof.
  intros H bucket o Hb Ho. apply build_data_expected in H. subst d.
  destruct (expected_data_buckets w bucket Hb) as [p [pairs ->]].
  pose proof (bucket_versions_sorted p pairs o Ho) as Hs.
  apply bucket_In in Ho as [_ [Hne Ev]].
  destruct (versions o) as [|newest older] eqn:E.
  - exfalso. apply Hne. apply Permutation_nil.
    etransitivity; [|apply list_sort_reverse_perm].
    rewrite <- Ev. reflexivity.
  - exists newest, older. split; auto.
    apply Sorted_StronglySorted in Hs; [|exact string_geb_trans].
    apply StronglySorted_inv in Hs as [_ Hall].
    rewrite Forall_forall in Hall.
    intros v [<-|Hv]; [apply string_leb_refl | apply Hall; assumption].
Qed.

Lemma entries_list_greatest_version_first_witness :
  exists newest older,
    versions (mk_ontology "actorODP" ["0.2"; "0.1"]) = newest :: older /\
    forall v, In v (versions (mk_ontology "actorODP" ["0.2"; "0.1"])) ->
              String.leb v newest = true.
Proof.
  apply (entries_list_greatest_version_first example_world example_data
           (or_introl eq_refl) (core example_data)); simpl; auto.
Defined.

Lemma in_list_In (x : string) (l : list string) : in_list x l = true <-> In x l.
Proof.
  unfold in_list. rewrite existsb_exists. split.
  - intros [y [Hy E]]. apply String.eqb_eq in E. congruence.
  - intros H. exists x. split; auto. apply String.eqb_refl.
Qed.

(** Every core name is in the table of exactly one secondary tag. *)
Lemma core_name_one_tag (n : string) :
  in_list n BuildIndex.core_names = true ->
  exists table,
    In table [BuildIndex.core_actor; BuildIndex.core_process; BuildIndex.core_resource;
              BuildIndex.core_obsrvation; BuildIndex.core_supplementary] /\
    in_list n table = true /\
    forall table',
      In table' [BuildIndex.core_actor; BuildIndex.core_process; BuildIndex.core_resource;
                 BuildIndex.core_obsrvation; BuildIndex.core_supplementary] ->
      in_list n table' = true -> table' = table.
Proof.
  intros H. apply in_list_In in H.
  destruct H as [<-|[<-|[<-|[<-|[<-|[<-|[]]]]]]].
  - exists BuildIndex.core_actor. split; [simpl; tauto|]. split; [reflexivity|].
    intros t [<-|[<-|[<-|[<-|[<-|[]]]]]] E; try reflexivity; discriminate E.
  - exists BuildIndex.core_obsrvation. split; [simpl; tauto|]. split; [reflexivity|].
    intros t [<-|[<-|[<-|[<-|[<-|[]]]]]] E; try reflexivity; discriminate E.
  - exists BuildIndex.core_process. split; [simpl; tauto|]. split; [reflexivity|].
    intros t [<-|[<-|[<-|[<-|[<-|[]]]]]] E; try reflexivity; discriminate E.
  - exists BuildIndex.core_resource. split; [simpl; tauto|]. split; [reflexivity|].
    intros t [<-|[<-|[<-|[<-|[<-|[]]]]]] E; try reflexivity; discriminate E.
  - exists BuildIndex.core_resource. split; [simpl; tauto|]. split; [reflexivity|].
    intros t [<-|[<-|[<-|[<-|[<-|[]]]]]] E; try reflexivity; discriminate E.
  - exists BuildIndex.core_supplementary. split; [simpl; tauto|]. split; [reflexivity|].
    intros t [<-|[<-|[<-|[<-|[<-|[]]]]]] E; try reflexivity; discriminate E.
Qed.

Lemma tag_buckets_expected (w : index_world) (table : list string)
  (bucket : list ontology) :
  In (table, bucket) (tag_buckets (expected_data w)) <->
  In table [BuildIndex.core_actor; BuildIndex.core_process; BuildIndex.core_resource;
            BuildIndex.core_obsrvation; BuildIndex.core_supplementary] /\
  bucket = bucket_of (tagged table)
             (triples "modules" (glob w (glob_pattern "modules"))).
Proof.
  unfold tag_buckets, expected_data. cbv zeta.
  cbn [actor observation process resource supplementary]. split.
  - intros [H|[H|[H|[H|[H|[]]]]]]; injection H as <- <-; simpl; tauto.
  - intros [[<-|[<-|[<-|[<-|[<-|[]]]]]] ->]; simpl; tauto.
Qed.

(** X6.  On a returning run of either script the secondary buckets
    partition the core bucket: every entry of a secondary bucket is an entry
    of the core bucket, and every entry of the core bucket is in one
    secondary bucket and in no other. *)
Theorem secondary_buckets_partition_core (w : index_world) (d : index_data) :
  BuildIndex.build_data w = Ok d \/ BuildLocal.build_data w = Ok d ->
  (forall table bucket o,
      In (table, bucket) (tag_buckets d) -> In o bucket -> In o (core d)) /\
  (forall o, In o (core d) ->
      exists table bucket,
        In (table, bucket) (tag_buckets d) /\ In o bucket /\
        forall table' bucket',
          In (table', bucket') (tag_buckets d) -> In o bucket' ->
          table' = table /\ bucket' = bucket).
Proof.
  intros H. apply build_data_expected in H. subst d.
  set (pm := triples "modules" (glob w (glob_pattern "modules"))).
  assert (Hcore : core (expected_data w)
                  = bucket_of (fun n => in_list n BuildIndex.core_names) pm)
    by reflexivity.
  rewrite Hcore. split.
  - intros table bucket o Hin Ho.
    apply tag_buckets_expected in Hin as [_ ->]. fold pm in Ho.
    apply bucket_In in Ho as [Ht Hv]. apply bucket_In. split; auto.
    unfold tagged in Ht. apply andb_true_iff in Ht. tauto.
  - intros o Ho. apply bucket_In in Ho as [Hc Hv].
    destruct (core_name_one_tag (name o) Hc) as [table [Htab [Hin Huniq]]].
    exists table, (bucket_of (tagged table) pm).
    split; [apply tag_buckets_expected; auto|].
    split.
    + apply bucket_In. split; auto. unfold tagged. rewrite Hc, Hin. reflexivity.
    + intros table' bucket' Hin' Ho'.
      apply tag_buckets_expected in Hin' as [Htab' ->]. fold pm in Ho'.
      apply bucket_In in Ho' as [Ht' _].
      unfold tagged in Ht'. apply andb_true_iff in Ht' as [_ Ht'].
      rewrite (Huniq table' Htab' Ht'). auto.
Qed.

Lemma secondary_buckets_partition_core_witness :
  In (mk_ontology "actorODP" ["0.2"; "0.1"]) (core example_data).
Proof.
  apply (proj1 (secondary_buckets_partition_core example_world example_data
                  (or_introl eq_refl))
           BuildIndex.core_actor (actor example_data)); simpl; auto.
Defined.

(** ** Listings without indexable files *)

Lemma triples_nil (type : string) (sources : list string) :
  (forall source, In source sources -> endswith source ".ttl" = false) ->
  triples type sources = [].
Proof.
  induction sources as [|s sources IH]; simpl; intros H; auto.
  rewrite (H s) by auto. simpl. apply IH. intros x Hx. apply H. auto.
Qed.

(** X7.  When [glob] lists no file with the indexable extension, for
    either type, the aggregation of either script returns the data with all
    eight buckets empty; when it lists none for the demo type, the demo
    bucket of a returning run is empty.  An absence of files is not an
    error. *)
Theorem no_indexable_files_empty_buckets (w : index_world) :
  ((forall type source, In type types -> In source (glob w (glob_pattern type)) ->
                        endswith source ".ttl" = false) ->
   BuildIndex.build_data w = Ok empty_data /\
   BuildLocal.build_data w = Ok empty_data) /\
  ((forall source, In source (glob w (glob_pattern "demo")) ->
                   endswith source ".ttl" = false) ->
   forall d, BuildIndex.build_data w = Ok d \/ BuildLocal.build_data w = Ok d ->
             demo d = []).
Proof.
  split.
  - intros Hnone. change (BuildLocal.build_data w) with (BuildIndex.build_data w).
    destruct (build_data_cases w) as [[Hm _]|[_ E]].
    + exfalso. destruct Hm as [type [source [Ht [Hin [He _]]]]].
      rewrite (Hnone type source Ht Hin) in He. discriminate.
    + rewrite E. unfold expected_data. cbv zeta.
      rewrite !triples_nil; [auto| |];
        intros source Hin; eapply Hnone; try exact Hin; simpl; auto.
  - intros Hnone d H. apply build_data_expected in H. subst d.
    unfold expected_data. cbv zeta. cbn [demo].
    rewrite (triples_nil "demo") by assumption. reflexivity.
Qed.

Lemma no_indexable_files_empty_buckets_witness :
  BuildIndex.build_data unindexable_world = Ok empty_data /\
  BuildLocal.build_data unindexable_world = Ok empty_data.
Proof.
  apply (proj1 (no_indexable_files_empty_buckets unindexable_world)).
  intros type source [<-|[<-|[]]] Hin; simpl in Hin; [|destruct Hin].
  destruct Hin as [<-|[<-|[]]]; reflexivity.
Defined.

(** ** Discovery of the ontology files *)

Lemma path_leb_total (a b : path) :
  BuildLocal.path_leb a b = true \/ BuildLocal.path_leb b a = true.
Proof.
  revert b. induction a as [|x a IH]; intros [|y b]; simpl; auto.
  rewrite (String.compare_antisym y x).
  destruct (String.compare x y); simpl; auto.
Qed.

Lemma fnmatch_extensions (nm : string) :
  existsb (BuildLocal.fnmatch nm) BuildLocal.extensions = ontology_extension nm.
Proof.
  unfold BuildLocal.extensions, ontology_extension. simpl.
  rewrite orb_false_r, orb_assoc. reflexivity.
Qed.

(** What [rglob] lists: the entries reached below the node whose name
    matches. *)
Lemma rglob_spec (pattern : string) (n : node) :
  forall (here f : path),
    In f (BuildLocal.rglob pattern here n) <->
    exists rel nm, f = here ++ rel ++ [nm] /\
                   BuildLocal.fnmatch nm pattern = true /\ reaches n (rel ++ [nm]).
Proof.
  induction n as [content|entries IH] using node_induction; intros here f.
  - simpl. split; [intros []|].
    intros [rel [nm [_ [_ H]]]]. destruct rel; exact H.
  - cbn [BuildLocal.rglob]. rewrite in_flat_map. rewrite Forall_forall in IH. split.
    + intros [[nm0 child] [Hin Hf]]. apply in_app_or in Hf as [Hf|Hf].
      * destruct (BuildLocal.fnmatch nm0 pattern) eqn:Em; [|destruct Hf].
        destruct Hf as [<-|[]]. exists [], nm0. simpl. eauto.
      * apply (IH (nm0, child) Hin) in Hf as [rel [nm [-> [Hm Hr]]]].
        exists (nm0 :: rel), nm. rewrite <- app_assoc. simpl. eauto.
    + intros [rel [nm [-> [Hm Hr]]]]. destruct rel as [|nm0 rel].
      * destruct Hr as [child [Hin _]]. exists (nm, child). split; auto.
        apply in_or_app. left. rewrite Hm. left. reflexivity.
      * destruct Hr as [child [Hin Hr]]. exists (nm0, child). split; auto.
        apply in_or_app. right. apply (IH (nm0, child) Hin).
        exists rel, nm. rewrite <- app_assoc. simpl. auto.
Qed.

Lemma search_folder_spec (cwd : node) (folder f : path) :
  In f (BuildLocal.search_folder cwd folder) <->
  exists n rel nm,
    BuildLocal.lookup_path cwd folder = Some n /\ reaches n (rel ++ [nm]) /\
    ontology_extension nm = true /\ f = folder ++ rel ++ [nm].
Proof.
  unfold BuildLocal.search_folder.
  destruct (BuildLocal.lookup_path cwd folder) as [n|].
  - rewrite in_flat_map. split.
    + intros [ext [Hext Hf]]. apply rglob_spec in Hf as [rel [nm [-> [Hm Hr]]]].
      exists n, rel, nm. repeat split; auto.
      rewrite <- fnmatch_extensions. apply existsb_exists. eauto.
    + intros [n' [rel [nm [Hn [Hr [Hm ->]]]]]]. injection Hn as <-.
      rewrite <- fnmatch_extensions in Hm.
      apply existsb_exists in Hm as [ext [Hext Hm]].
      exists ext. split; auto. apply rglob_spec. eauto.
  - split; [intros []|]. intros [n [rel [nm [Hn _]]]]. discriminate.
Qed.

Lemma lookup_path_app (cwd : node) (p q : path) :
  BuildLocal.lookup_path cwd (p ++ q) =
  match BuildLocal.lookup_path cwd p with
  | Some n => BuildLocal.lookup_path n q
  | None => None
  end.
Proof.
  revert cwd. induction p as [|nm p IH]; intros cwd; simpl; auto.
  destruct cwd as [c|entries]; auto.
  destruct (lookup nm entries); auto.
Qed.

Lemma find_ontology_files_spec (cwd : node) (f : path) :
  In f (BuildLocal.find_ontology_files cwd) <->
  exists folder n rel nm,
    In folder ["modules"; "demo"] /\
    BuildLocal.lookup_path cwd ["ontology"; folder] = Some n /\
    reaches n (rel ++ [nm]) /\
    ontology_extension nm = true /\
    f = ["ontology"; folder] ++ rel ++ [nm].
Proof.
  unfold BuildLocal.find_ontology_files. cbv zeta.
  assert (Hsearch :
    In f (BuildLocal.search_folder cwd (BuildLocal.ONTOLOGY_DIR ++ ["modules"]) ++
          BuildLocal.search_folder cwd (BuildLocal.ONTOLOGY_DIR ++ ["demo"])) <->
    exists folder n rel nm,
      In folder ["modules"; "demo"] /\
      BuildLocal.lookup_path cwd ["ontology"; folder] = Some n /\
      reaches n (rel ++ [nm]) /\ ontology_extension nm = true /\
      f = ["ontology"; folder] ++ rel ++ [nm]).
  { rewrite in_app_iff, !search_folder_spec. split.
    - intros [[n [rel [nm H]]]|[n [rel [nm H]]]].
      + exists "modules", n, rel, nm. simpl. tauto.
      + exists "demo", n, rel, nm. simpl. tauto.
    - intros [folder [n [rel [nm [[<-|[<-|[]]] H]]]]]; [left|right];
        exists n, rel, nm; exact H. }
  destruct (BuildLocal.lookup_path cwd BuildLocal.ONTOLOGY_DIR) as [o|] eqn:Eo.
  - rewrite In_list_sort. exact Hsearch.
  - split; [intros []|].
    intros [folder [n [rel [nm [_ [Hn _]]]]]].
    change ["ontology"; folder] with (BuildLocal.ONTOLOGY_DIR ++ [folder]) in Hn.
    rewrite lookup_path_app, Eo in Hn. discriminate.
Qed.

(** X8.  [find_ontology_files] returns exactly the paths of the entries
    that lie at any depth below ontology/modules or ontology/demo and whose
    name ends with .owl, .ttl or .rdf, directories of such a name
    included. *)
Theorem find_ontology_files_sound_complete (cwd : node) (f : path) :
  In f (BuildLocal.find_ontology_files cwd) <->
  exists folder n rel nm,
    In folder ["modules"; "demo"] /\
    BuildLocal.lookup_path cwd ["ontology"; folder] = Some n /\
    reaches n (rel ++ [nm]) /\
    ontology_extension nm = true /\
    f = ["ontology"; folder] ++ rel ++ [nm].
Proof. apply find_ontology_files_spec. Qed.

Lemma relative_to_app (base rest : path) : relative_to (base ++ rest) base = Ok rest.
Proof.
  induction base as [|b base IH]; [destruct rest; reflexivity|].
  cbn [relative_to app]. rewrite String.eqb_refl. exact IH.
Qed.

Lemma removelast_snoc {A : Type} (l : list A) (x : A) : removelast (l ++ [x]) = l.
Proof. rewrite removelast_app by discriminate. simpl. apply app_nil_r. Qed.

(** The output directory mirrors the directory of the file below
    ontology. *)
Lemma output_dir_of_mirror (dirs : path) (file : string) :
  output_dir_of (BuildLocal.ONTOLOGY_DIR ++ dirs ++ [file])
  = Ok (BuildLocal.DOCS_DIR ++ dirs).
Proof.
  unfold output_dir_of. rewrite relative_to_app. cbn [bind].
  unfold parent. rewrite removelast_snoc. reflexivity.
Qed.

(** X9.  The list [find_ontology_files] returns is sorted ascending in the
    order of paths, and each of its files lies below the ontology directory:
    [generate_documentation] computes for it, without raising, the output
    directory below docs/dev that mirrors the file's directory, and, when
    that directory can be made, invokes the external tool for it. *)
Theorem discovered_files_sorted_and_documentable (cwd : node) :
  Sorted (ascending BuildLocal.path_leb) (BuildLocal.find_ontology_files cwd) /\
  forall f, In f (BuildLocal.find_ontology_files cwd) ->
    exists folder dirs file,
      In folder ["modules"; "demo"] /\
      f = ["ontology"; folder] ++ dirs ++ [file] /\
      relative_to f BuildLocal.ONTOLOGY_DIR = Ok (folder :: dirs ++ [file]) /\
      output_dir_of f = Ok (["docs"; "dev"; folder] ++ dirs) /\
      forall w, BuildLocal.mkdir w (["docs"; "dev"; folder] ++ dirs) = Ok tt ->
        exists l r,
          BuildLocal.generate_documentation w f =
            (BuildLocal.Processing f ::
             BuildLocal.RunWidoco
               (BuildLocal.widoco_cmd f (["docs"; "dev"; folder] ++ dirs)) 300 :: l, r).
Proof.
  split.
  - unfold BuildLocal.find_ontology_files. cbv zeta.
    destruct (BuildLocal.lookup_path cwd BuildLocal.ONTOLOGY_DIR); [|constructor].
    apply list_sort_sorted. exact path_leb_total.
  - intros f Hf.
    apply find_ontology_files_spec in Hf
      as [folder [n [rel [nm [Hfolder [_ [_ [_ ->]]]]]]]].
    exists folder, rel, nm. split; [assumption|]. split; [reflexivity|].
    assert (Hout : output_dir_of (["ontology"; folder] ++ rel ++ [nm])
                   = Ok (["docs"; "dev"; folder] ++ rel)).
    { change (["ontology"; folder] ++ rel ++ [nm])
        with (BuildLocal.ONTOLOGY_DIR ++ (folder :: rel) ++ [nm]).
      rewrite output_dir_of_mirror. reflexivity. }
    split; [reflexivity|]. split; [exact Hout|].
    intros w Hmk.
    rewrite (generate_documentation_start w _ _ Hout Hmk).
    cbn [BuildLocal.io_bind].
    destruct (match BuildLocal.run w _ 300 with Ok _ => _ | Raise _ => _ end) as [l r].
    exists l, r. reflexivity.
Qed.

Lemma discovered_files_sorted_and_documentable_witness :
  BuildLocal.find_ontology_files example_cwd
  = [["ontology"; "demo"; "d.ttl"];
     ["ontology"; "modules"; "m"; "0.10"; "m.owl"];
     ["ontology"; "modules"; "m"; "0.2"; "m.ttl"];
     ["ontology"; "modules"; "top.rdf"]] /\
  exists out, output_dir_of ["ontology"; "modules"; "m"; "0.2"; "m.ttl"] = Ok out.
Proof.
  split; [reflexivity|].
  destruct (proj2 (discovered_files_sorted_and_documentable example_cwd)
              ["ontology"; "modules"; "m"; "0.2"; "m.ttl"])
    as [folder [dirs [file [_ [_ [_ [Hout _]]]]]]].
  - simpl. tauto.
  - eexists. exact Hout.
Defined.

(** ** More on the latest folders *)

Lemma bind_Ok_id {A : Type} (r : result A) : bind r (fun a => Ok a) = r.
Proof. destruct r; reflexivity. Qed.

Lemma is_version_dir_latest (n : node) : BuildLocal.is_version_dir ("latest", n) = Ok false.
Proof. unfold BuildLocal.is_version_dir. simpl. destruct (is_dir n); reflexivity. Qed.

Lemma filter_result_remove_latest (entries : list (string * node)) :
  filter_result BuildLocal.is_version_dir (remove_entry "latest" entries)
  = filter_result BuildLocal.is_version_dir entries.
Proof.
  unfold remove_entry.
  induction entries as [|[k n] entries IH]; [reflexivity|].
  cbn [filter fst]. destruct (String.eqb_spec k "latest") as [->|Hne]; cbn [negb].
  - cbn [filter_result]. rewrite is_version_dir_latest. cbn [bind].
    rewrite IH. destruct (filter_result _ entries); reflexivity.
  - cbn [filter_result]. rewrite IH. reflexivity.
Qed.

Lemma filter_result_snoc_false {A : Type} (p : A -> result bool) (l : list A) (x : A) :
  p x = Ok false -> filter_result p (l ++ [x]) = filter_result p l.
Proof.
  intros Hx. induction l as [|a l IH]; simpl.
  - rewrite Hx. reflexivity.
  - rewrite IH. reflexivity.
Qed.

(** The latest folder does not count among the versions: the selection is
    the same with it replaced. *)
Lemma latest_version_replaced (entries : list (string * node)) (n : node) :
  BuildLocal.latest_version (remove_entry "latest" entries ++ [("latest", n)])
  = BuildLocal.latest_version entries.
Proof.
  unfold BuildLocal.latest_version.
  rewrite filter_result_snoc_false by apply is_version_dir_latest.
  rewrite filter_result_remove_latest. reflexivity.
Qed.

Lemma remove_entry_replaced (entries : list (string * node)) (n : node) :
  remove_entry "latest" (remove_entry "latest" entries ++ [("latest", n)])
  = remove_entry "latest" entries.
Proof.
  unfold remove_entry. rewrite filter_app. simpl. rewrite app_nil_r.
  induction entries as [|[k x] entries IH]; simpl; auto.
  destruct (negb (String.eqb k "latest")) eqn:E; simpl; rewrite ?E, IH; reflexivity.
Qed.

(** What [process_module] returns, when it returns. *)
Lemma process_module_Ok (category : string) (m m' : string * node)
  (l : list BuildLocal.event) :
  BuildLocal.process_module category m = (l, Ok m') ->
  (l = [] /\ m' = m) \/
  exists entries v,
    snd m = Dir entries /\
    BuildLocal.latest_version entries = Ok (Some v) /\
    is_dir (snd v) = true /\
    l = [BuildLocal.LatestCreated category (fst m) (fst v)] /\
    m' = (fst m, Dir (remove_entry "latest" entries ++ [("latest", snd v)])).
Proof.
  unfold BuildLocal.process_module. destruct m as [nm [content|entries]]; cbn [fst snd].
  - intros H. injection H as <- <-. auto.
  - destruct (BuildLocal.latest_version entries) as [[v|]|e] eqn:El;
      cbn [BuildLocal.lift BuildLocal.io_bind].
    + unfold BuildLocal.replace_latest.
      destruct (lookup "latest" entries) as [[c|sub]|]; cbn; intros H;
        try discriminate H; injection H as <- <-;
        right; exists entries, v; repeat split; auto;
        apply latest_version_max in El as [_ [Hv _]];
        apply is_version_dir_true in Hv; tauto.
    + cbn. intros H. injection H as <- <-. auto.
    + cbn. discriminate.
Qed.

Lemma process_module_again (category : string) (m m' : string * node)
  (l : list BuildLocal.event) :
  BuildLocal.process_module category m = (l, Ok m') ->
  BuildLocal.process_module category m' = (l, Ok m').
Proof.
  intros H. destruct (process_module_Ok _ _ _ _ H)
    as [[-> ->]|[entries [v [Em [El [Hd [-> ->]]]]]]]; [exact H|].
  unfold BuildLocal.process_module. cbn [fst snd].
  rewrite latest_version_replaced, El. cbn [BuildLocal.lift BuildLocal.io_bind].
  unfold BuildLocal.replace_latest.
  destruct (replace_latest_spec entries (snd v)) as [_ [Hl _]].
  - intros content Hc.
    destruct (BuildLocal.process_module category m) as [l0 r0] eqn:E0.
    unfold BuildLocal.process_module in E0. rewrite Em, El in E0.
    cbn [BuildLocal.lift BuildLocal.io_bind] in E0.
    unfold BuildLocal.replace_latest in E0. rewrite Hc in E0.
    cbn in E0. rewrite <- E0 in H. discriminate H.
  - rewrite Hl. destruct (snd v) as [c|sub] eqn:Ev; [discriminate Hd|].
    rewrite remove_entry_replaced. reflexivity.
Qed.

Lemma process_module_without_latest (category : string) (m m' : string * node)
  (l : list BuildLocal.event) :
  BuildLocal.process_module category m = (l, Ok m') ->
  module_without_latest m' = module_without_latest m.
Proof.
  intros H. destruct (process_module_Ok _ _ _ _ H)
    as [[-> ->]|[entries [v [Em [El [Hd [-> ->]]]]]]]; [reflexivity|].
  unfold module_without_latest. cbn [fst snd]. rewrite Em, remove_entry_replaced.
  reflexivity.
Qed.

(** Lifting through the comprehension. *)
Lemma io_map_again {A : Type} (f : A -> BuildLocal.io A) (xs ys : list A)
  (l : list BuildLocal.event) :
  (forall x y l', f x = (l', Ok y) -> f y = (l', Ok y)) ->
  BuildLocal.io_map f xs = (l, Ok ys) -> BuildLocal.io_map f ys = (l, Ok ys).
Proof.
  intros Hf. revert ys l. induction xs as [|x xs IH]; intros ys l H.
  - cbn in H. injection H as <- <-. reflexivity.
  - cbn [BuildLocal.io_map] in H.
    destruct (f x) as [l1 [y|e]] eqn:Ex; [|discriminate H].
    cbn [BuildLocal.io_bind] in H.
    destruct (BuildLocal.io_map f xs) as [l2 [ys'|e]] eqn:Exs; [|discriminate H].
    cbn in H. injection H as <- <-.
    cbn [BuildLocal.io_map]. rewrite (Hf x y l1 Ex). cbn [BuildLocal.io_bind].
    rewrite (IH ys' l2 eq_refl). reflexivity.
Qed.

Lemma io_map_preserves {A B : Type} (f : A -> BuildLocal.io A) (g : A -> B)
  (xs ys : list A) (l : list BuildLocal.event) :
  (forall x y l', f x = (l', Ok y) -> g y = g x) ->
  BuildLocal.io_map f xs = (l, Ok ys) -> map g ys = map g xs.
Proof.
  intros Hf. revert ys l. induction xs as [|x xs IH]; intros ys l H.
  - cbn in H. injection H as <- <-. reflexivity.
  - cbn [BuildLocal.io_map] in H.
    destruct (f x) as [l1 [y|e]] eqn:Ex; [|discriminate H].
    cbn [BuildLocal.io_bind] in H.
    destruct (BuildLocal.io_map f xs) as [l2 [ys'|e]] eqn:Exs; [|discriminate H].
    cbn in H. injection H as <- <-.
    simpl. rewrite (Hf x y l1 Ex), (IH ys' l2 eq_refl). reflexivity.
Qed.

(** What [process_category] returns, when it returns. *)
Lemma process_category_Ok (c c' : string * node) (l : list BuildLocal.event) :
  BuildLocal.process_category c = (l, Ok c') ->
  (l = [] /\ c' = c) \/
  exists modules modules',
    snd c = Dir modules /\
    BuildLocal.io_map (BuildLocal.process_module (fst c)) modules = (l, Ok modules') /\
    String.eqb (fst c) "dev" = false /\
    c' = (fst c, Dir modules').
Proof.
  unfold BuildLocal.process_category. destruct c as [cn [content|modules]]; cbn [fst snd].
  - intros H. injection H as <- <-. auto.
  - destruct (String.eqb cn "dev") eqn:Ed.
    + intros H. injection H as <- <-. auto.
    + destruct (BuildLocal.io_map _ modules) as [l1 [modules'|e]] eqn:Em;
        cbn; intros H; [|discriminate H].
      injection H as <- <-. rewrite app_nil_r.
      right. exists modules, modules'. auto.
Qed.

Lemma process_category_again (c c' : string * node) (l : list BuildLocal.event) :
  BuildLocal.process_category c = (l, Ok c') ->
  BuildLocal.process_category c' = (l, Ok c').
Proof.
  intros H. destruct (process_category_Ok _ _ _ H)
    as [[-> ->]|[modules [modules' [Ec [Em [Ed ->]]]]]]; [exact H|].
  unfold BuildLocal.process_category. cbn [fst snd]. rewrite Ed.
  rewrite (io_map_again _ modules modules' l
             (process_module_again (fst c)) Em).
  cbn. rewrite app_nil_r. reflexivity.
Qed.

Lemma process_category_without_latest (c c' : string * node) (l : list BuildLocal.event) :
  BuildLocal.process_category c = (l, Ok c') ->
  category_without_latest c' = category_without_latest c.
Proof.
  intros H. destruct (process_category_Ok _ _ _ H)
    as [[-> ->]|[modules [modules' [Ec [Em [Ed ->]]]]]]; [reflexivity|].
  unfold category_without_latest. cbn [fst snd]. rewrite Ec.
  rewrite (io_map_preserves _ module_without_latest modules modules' l
             (process_module_without_latest (fst c)) Em).
  reflexivity.
Qed.

(** X10.  [create_latest_folders] is idempotent: run on the tree that a
    returning run leaves, it returns that same tree and reports the same
    latest versions. *)
Theorem create_latest_folders_idempotent (docs_tree docs_tree' : node)
  (l : list BuildLocal.event) :
  BuildLocal.create_latest_folders docs_tree = (l, Ok docs_tree') ->
  BuildLocal.create_latest_folders docs_tree' = (l, Ok docs_tree').
Proof.
  unfold BuildLocal.create_latest_folders.
  destruct docs_tree as [content|categories]; [discriminate|].
  destruct (BuildLocal.io_map BuildLocal.process_category categories)
    as [l1 [categories'|e]] eqn:Ec; cbn; intros H; [|discriminate H].
  injection H as <- <-. rewrite app_nil_r.
  rewrite (io_map_again _ categories categories' l1 process_category_again Ec).
  cbn. rewrite app_nil_r. reflexivity.
Qed.

Lemma create_latest_folders_idempotent_witness :
  BuildLocal.create_latest_folders
    (Dir [("modules",
           Dir [("m", Dir [("0.2", Dir [("index.html", File "a")]);
                           ("0.10", Dir [("index.html", File "b")]);
                           ("1.0", Dir [("index.html", File "c")]);
                           ("latest", Dir [("index.html", File "c")])])])])
  = ([BuildLocal.LatestCreated "modules" "m" "1.0"],
     Ok (Dir [("modules",
               Dir [("m", Dir [("0.2", Dir [("index.html", File "a")]);
                               ("0.10", Dir [("index.html", File "b")]);
                               ("1.0", Dir [("index.html", File "c")]);
                               ("latest", Dir [("index.html", File "c")])])])])).
Proof.
  apply (create_latest_folders_idempotent example_docs). reflexivity.
Defined.

(** X11.  A returning run of [create_latest_folders] changes nothing but
    latest folders: with the entries called latest left out of every
    module, the tree it leaves is the tree it was given, category by
    category, module by module and entry by entry in the same order. *)
Theorem create_latest_folders_touches_only_latest (docs_tree docs_tree' : node)
  (l : list BuildLocal.event) :
  BuildLocal.create_latest_folders docs_tree = (l, Ok docs_tree') ->
  without_latest docs_tree' = without_latest docs_tree.
Proof.
  unfold BuildLocal.create_latest_folders.
  destruct docs_tree as [content|categories]; [discriminate|].
  destruct (BuildLocal.io_map BuildLocal.process_category categories)
    as [l1 [categories'|e]] eqn:Ec; cbn; intros H; [|discriminate H].
  injection H as <- <-. cbn [without_latest]. f_equal.
  apply (io_map_preserves _ category_without_latest categories categories' l1
           process_category_without_latest Ec).
Qed.

Lemma create_latest_folders_touches_only_latest_witness :
  without_latest
    (Dir [("modules",
           Dir [("m", Dir [("0.2", Dir [("index.html", File "a")]);
                           ("0.10", Dir [("index.html", File "b")]);
                           ("1.0", Dir [("index.html", File "c")]);
                           ("latest", Dir [("index.html", File "c")])])])])
  = without_latest example_docs.
Proof.
  apply (create_latest_folders_touches_only_latest example_docs _
           [BuildLocal.LatestCreated "modules" "m" "1.0"]).
  reflexivity.
Defined.

Lemma list_Z_leb_antisym (a b : list Z) :
  list_Z_leb a b = true -> list_Z_leb b a = true -> a = b.
Proof.
  revert b. induction a as [|x a IH]; intros [|y b]; simpl; try congruence.
  destruct (Z.ltb_spec x y); destruct (Z.ltb_spec y x); try congruence; try lia.
  intros H1 H2. f_equal; [lia | auto].
Qed.

Lemma filter_result_Ok_all {A : Type} (p : A -> result bool) (xs ys : list A) :
  filter_result p xs = Ok ys -> forall x, In x xs -> exists b, p x = Ok b.
Proof.
  revert ys. induction xs as [|a xs IH]; simpl; intros ys H x Hx; [destruct Hx|].
  destruct (p a) as [b|e] eqn:Ep; [|discriminate]. cbn [bind] in H.
  destruct (filter_result p xs) as [zs|e]; [|discriminate].
  destruct Hx as [<-|Hx]; eauto.
Qed.

Lemma latest_version_Some_inv (entries : list (string * node)) (v : string * node) :
  BuildLocal.latest_version entries = Ok (Some v) ->
  exists vds keyed,
    filter_result BuildLocal.is_version_dir entries = Ok vds /\ vds <> [] /\
    map_result (fun d => k <- BuildLocal.version_key (fst d) ;; Ok (k, d)) vds = Ok keyed.
Proof.
  unfold BuildLocal.latest_version.
  destruct (filter_result BuildLocal.is_version_dir entries) as [vds|e]; [|discriminate].
  cbn [bind]. destruct vds as [|d0 vds']; [discriminate|].
  unfold BuildLocal.sort_version_dirs.
  destruct (map_result _ (d0 :: vds')) as [keyed|e] eqn:Ek; [|discriminate].
  intros _. exists (d0 :: vds'), keyed. repeat split; auto. discriminate.
Qed.

Lemma latest_version_Some_intro (entries vds : list (string * node))
  (keyed : list (list Z * (string * node))) :
  filter_result BuildLocal.is_version_dir entries = Ok vds -> vds <> [] ->
  map_result (fun d => k <- BuildLocal.version_key (fst d) ;; Ok (k, d)) vds = Ok keyed ->
  exists v, BuildLocal.latest_version entries = Ok (Some v).
Proof.
  intros Hf Hne Hk. unfold BuildLocal.latest_version. rewrite Hf. cbn [bind].
  destruct vds as [|d0 vds']; [congruence|].
  unfold BuildLocal.sort_version_dirs. rewrite Hk. cbn. eauto.
Qed.

(** The selection returns for every listing of the same entries. *)
Lemma latest_version_perm_returns (entries entries' : list (string * node))
  (v : string * node) :
  Permutation entries entries' ->
  BuildLocal.latest_version entries = Ok (Some v) ->
  exists v', BuildLocal.latest_version entries' = Ok (Some v').
Proof.
  intros Hp H.
  destruct (latest_version_Some_inv entries v H) as [vds [keyed [Hf [Hne Hk]]]].
  destruct (filter_result_total BuildLocal.is_version_dir entries') as [vds' Hf'].
  { intros x Hx. eapply filter_result_Ok_all; [exact Hf|].
    eapply Permutation_in; [symmetry; exact Hp|exact Hx]. }
  assert (Hsame : forall d, In d vds' <-> In d vds).
  { intros d. rewrite (filter_result_Ok _ _ _ Hf d), (filter_result_Ok _ _ _ Hf' d).
    split; intros [Hin Hv]; (split; [|exact Hv]).
    - eapply Permutation_in; [symmetry; exact Hp | exact Hin].
    - eapply Permutation_in; [exact Hp | exact Hin]. }
  destruct (keyed_spec vds keyed Hk) as [_ K2].
  destruct (map_result_total
              (fun d => k <- BuildLocal.version_key (fst d) ;; Ok (k, d)) vds')
    as [keyed' Hk'].
  { intros d Hd. apply Hsame in Hd. destruct (K2 d Hd) as [k [_ Hkey]].
    rewrite Hkey. cbn. eauto. }
  apply (latest_version_Some_intro entries' vds' keyed' Hf'); auto.
  intros E. destruct vds as [|d0 vds0]; [congruence|].
  assert (Hd0 : In d0 vds') by (apply Hsame; left; reflexivity).
  rewrite E in Hd0. destruct Hd0.
Qed.

(** X12.  When no two version directories of a module have the same key,
    the directory selected as latest does not depend on the order in which
    the module's entries are listed.  With equal keys it does: of 1.0 and
    01.0 the one listed last is selected. *)
Theorem latest_version_independent_of_listing_order :
  (forall (entries entries' : list (string * node)) (v : string * node),
    distinct_keys entries -> Permutation entries entries' ->
    BuildLocal.latest_version entries = Ok (Some v) ->
    BuildLocal.latest_version entries' = Ok (Some v)) /\
  BuildLocal.latest_version [("1.0", Dir [("index.html", File "a")]); ("01.0", Dir [])]
    = Ok (Some ("01.0", Dir [])) /\
  BuildLocal.latest_version [("01.0", Dir []); ("1.0", Dir [("index.html", File "a")])]
    = Ok (Some ("1.0", Dir [("index.html", File "a")])).
Proof.
  split; [|split; reflexivity].
  intros entries entries' v Hdistinct Hp H.
  destruct (latest_version_perm_returns entries entries' v Hp H) as [v' H'].
  rewrite H'. do 2 f_equal.
  destruct (latest_version_max entries v H) as [Hin [Hv [kv [Hkv Hmax]]]].
  destruct (latest_version_max entries' v' H') as [Hin' [Hv' [kv' [Hkv' Hmax']]]].
  assert (Hin2 : In v' entries)
    by (eapply Permutation_in; [symmetry; exact Hp|exact Hin']).
  assert (Hin3 : In v entries') by (eapply Permutation_in; [exact Hp|exact Hin]).
  destruct (Hmax v' Hin2 Hv') as [k1 [Hk1 Hle1]].
  destruct (Hmax' v Hin3 Hv) as [k2 [Hk2 Hle2]].
  assert (k1 = kv') by congruence. assert (k2 = kv) by congruence. subst k1 k2.
  apply Hdistinct; auto.
  rewrite Hkv, Hkv'. f_equal. apply list_Z_leb_antisym; assumption.
Qed.

Lemma latest_version_independent_of_listing_order_witness :
  BuildLocal.latest_version [("1.0", Dir []); ("0.10", Dir []); ("0.2", Dir [])]
  = Ok (Some ("1.0", Dir [])).
Proof.
  apply (proj1 latest_version_independent_of_listing_order
           [("0.2", Dir []); ("0.10", Dir []); ("1.0", Dir [])]).
  - intros d d' [<-|[<-|[<-|[]]]] [<-|[<-|[<-|[]]]] _ _ E;
      try reflexivity; discriminate E.
  - apply Permutation_rev.
  - reflexivity.
Defined.

(** ** More on the driver *)

Lemma io_for_app {A S : Type} (body : S -> A -> BuildLocal.io S) (pre rest : list A)
  (st : S) :
  BuildLocal.io_for body (pre ++ rest) st =
  BuildLocal.io_bind (BuildLocal.io_for body pre st) (BuildLocal.io_for body rest).
Proof.
  revert st. induction pre as [|x pre IH]; intros st.
  - cbn. destruct (BuildLocal.io_for body rest st). reflexivity.
  - cbn [app BuildLocal.io_for]. destruct (body st x) as [l1 [st'|e]]; [|reflexivity].
    cbn [BuildLocal.io_bind]. rewrite IH.
    destruct (BuildLocal.io_for body pre st') as [l2 [st''|e]]; cbn [BuildLocal.io_bind].
    + destruct (BuildLocal.io_for body rest st'') as [l3 r]. rewrite app_assoc. reflexivity.
    + reflexivity.
Qed.

(** [main] when the loop over the batch raises. *)
Lemma main_loop_raises (w : BuildLocal.world) (l : list BuildLocal.event) (e : exn) :
  prerequisites w -> BuildLocal.ontology_files w <> [] ->
  BuildLocal.io_for (BuildLocal.count_file w) (BuildLocal.ontology_files w) (0, 0)%nat
    = (l, Raise e) ->
  BuildLocal.main w =
    ([BuildLocal.JavaFound; BuildLocal.JarFound;
      BuildLocal.Found (length (BuildLocal.ontology_files w))] ++ l, Raise e).
Proof.
  intros [[ver Hj] Hjar] Hne Hloop.
  unfold BuildLocal.main, BuildLocal.check_java, BuildLocal.check_widoco.
  rewrite Hj, Hjar.
  destruct (BuildLocal.ontology_files w) as [|f rest] eqn:Hf; [congruence|].
  cbn [BuildLocal.io_bind BuildLocal.say BuildLocal.ret negb app].
  rewrite Hloop. reflexivity.
Qed.

(** What is outside the [try] of [generate_documentation] is not caught. *)
Lemma generate_documentation_mkdir_raises (w : BuildLocal.world) (f out : path) (e : exn) :
  output_dir_of f = Ok out -> BuildLocal.mkdir w out = Raise e ->
  BuildLocal.generate_documentation w f = ([BuildLocal.Processing f], Raise e).
Proof.
  unfold output_dir_of, BuildLocal.generate_documentation. intros Hout Hmk.
  destruct (relative_to f BuildLocal.ONTOLOGY_DIR) as [rel|e0]; [|discriminate].
  cbn [bind] in Hout.
  assert (Eo : BuildLocal.DOCS_DIR ++ parent rel = out) by congruence.
  cbn [BuildLocal.io_bind BuildLocal.say BuildLocal.lift app].
  rewrite Eo, Hmk. reflexivity.
Qed.

(** X13.  A failure to make the output directory of a file is not counted
    as a failed file: the exception leaves [generate_documentation] and
    [main] uncaught.  The files before it have been processed, the external
    tool is not run for the file, the files after it are never processed,
    and no summary is printed. *)
Theorem mkdir_failure_aborts_the_run (w : BuildLocal.world) (pre post : list path)
  (f out : path) (e : exn) :
  prerequisites w ->
  BuildLocal.ontology_files w = pre ++ f :: post ->
  (forall g, In g pre -> well_behaved w g) ->
  output_dir_of f = Ok out -> BuildLocal.mkdir w out = Raise e ->
  exists l,
    BuildLocal.main w =
      ([BuildLocal.JavaFound; BuildLocal.JarFound;
        BuildLocal.Found (length (pre ++ f :: post))] ++ l ++ [BuildLocal.Processing f],
       Raise e) /\
    processed l = pre /\ runs l = flat_map expected_run pre.
Proof.
  intros Hpre Hfiles Hwb Hout Hmk.
  destruct (loop_well_behaved w pre (0, 0)%nat Hwb) as [l [Hl [Hr Hp]]].
  exists l. split; [|auto].
  rewrite <- Hfiles. apply main_loop_raises; auto.
  - rewrite Hfiles. destruct pre; discriminate.
  - rewrite Hfiles, io_for_app, Hl. cbn [BuildLocal.io_bind BuildLocal.io_for].
    unfold BuildLocal.count_file at 1.
    rewrite (generate_documentation_mkdir_raises w f out e Hout Hmk). reflexivity.
Qed.

Lemma mkdir_failure_aborts_the_run_witness :
  exists l,
    BuildLocal.main mkdir_fails_world =
      ([BuildLocal.JavaFound; BuildLocal.JarFound; BuildLocal.Found 2] ++ l ++
       [BuildLocal.Processing ["ontology"; "modules"; "m"; "0.2"; "m.ttl"]],
       Raise OSError) /\
    processed l = [["ontology"; "modules"; "m"; "0.1"; "m.ttl"]] /\
    runs l = flat_map expected_run [["ontology"; "modules"; "m"; "0.1"; "m.ttl"]].
Proof.
  apply (mkdir_failure_aborts_the_run mkdir_fails_world
           [["ontology"; "modules"; "m"; "0.1"; "m.ttl"]] []
           ["ontology"; "modules"; "m"; "0.2"; "m.ttl"]
           ["docs"; "dev"; "modules"; "m"; "0.2"] OSError).
  - split; [eexists|]; reflexivity.
  - reflexivity.
  - intros g [<-|[]].
    eexists; split; [reflexivity|split; [reflexivity|split; intros e H; discriminate H]].
  - reflexivity.
  - reflexivity.
Defined.

Lemma filter_length_split {A : Type} (p : A -> bool) (l : list A) :
  (length (filter p l) + length (filter (fun x => negb (p x)) l) = length l)%nat.
Proof.
  induction l as [|a l IH]; simpl; auto.
  destruct (p a); simpl; lia.
Qed.

(** X14.  When the prerequisites are there, nothing but the tool fails and
    the tool fails for every file of the batch, [main] makes no latest
    folder and no index page: after the loop it prints the summary with no
    success and exits with status 1. *)
Theorem no_success_skips_latest_and_index (w : BuildLocal.world) :
  prerequisites w -> BuildLocal.ontology_files w <> [] ->
  (forall f, In f (BuildLocal.ontology_files w) ->
             well_behaved w f /\ doc_ok w f = false) ->
  exists l,
    BuildLocal.main w =
      ([BuildLocal.JavaFound; BuildLocal.JarFound;
        BuildLocal.Found (length (BuildLocal.ontology_files w))] ++ l ++
       [BuildLocal.Summary (length (BuildLocal.ontology_files w)) 0
                           (length (BuildLocal.ontology_files w));
        BuildLocal.SomeFailed],
       Raise (SystemExit 1)) /\
    processed l = BuildLocal.ontology_files w /\
    runs l = flat_map expected_run (BuildLocal.ontology_files w).
Proof.
  intros Hpre Hne Hall.
  destruct (loop_well_behaved w (BuildLocal.ontology_files w) (0, 0)%nat)
    as [l [Hl [Hr Hp]]]; [intros f Hf; apply Hall; assumption|].
  assert (Hs : length (filter (doc_ok w) (BuildLocal.ontology_files w)) = 0%nat).
  { apply filter_length_zero. intros f Hf. apply Hall. assumption. }
  assert (Hfl : length (filter (fun f => negb (doc_ok w f)) (BuildLocal.ontology_files w))
                = length (BuildLocal.ontology_files w)).
  { pose proof (filter_length_split (doc_ok w) (BuildLocal.ontology_files w)). lia. }
  cbn [fst snd] in Hl. rewrite Hs, Hfl in Hl. cbn [Nat.add] in Hl.
  exists l. split; [|auto].
  assert (Hdoc : documented w l 0 (length (BuildLocal.ontology_files w))).
  { destruct Hpre as [Hj Hjar]. repeat split; assumption. }
  rewrite (main_documented w l _ _ Hdoc). cbn.
  unfold before_index, summary_events, summary_result.
  destruct (BuildLocal.ontology_files w) as [|f rest]; [congruence|].
  cbn. rewrite app_nil_r. reflexivity.
Qed.

Lemma no_success_skips_latest_and_index_witness :
  exists l,
    BuildLocal.main (driver_world two_files always_fails example_world) =
      ([BuildLocal.JavaFound; BuildLocal.JarFound; BuildLocal.Found 2] ++ l ++
       [BuildLocal.Summary 2 0 2; BuildLocal.SomeFailed],
       Raise (SystemExit 1)) /\
    processed l = two_files /\
    runs l = flat_map expected_run two_files.
Proof.
  apply (no_success_skips_latest_and_index
           (driver_world two_files always_fails example_world)).
  - split; [eexists|]; reflexivity.
  - discriminate.
  - intros f [<-|[<-|[]]]; (split; [|reflexivity]);
      (eexists; split; [reflexivity|split; [reflexivity|split; intros e H; discriminate H]]).
Defined.

(** X15.  When the prerequisites are there, nothing but the tool fails
    in a batch that is not empty, and the steps after the loop return when
    they run, [main] reaches the summary; the successes and failures it
    reports are the numbers of files for which the tool succeeded and
    failed, and they add up to the number of files. *)
Theorem summary_counts_add_up (w : BuildLocal.world) :
  prerequisites w -> BuildLocal.ontology_files w <> [] ->
  (forall f, In f (BuildLocal.ontology_files w) -> well_behaved w f) ->
  ((exists f, In f (BuildLocal.ontology_files w) /\ doc_ok w f = true) ->
   steps_return w) ->
  exists l l2 s fl,
    BuildLocal.main w =
      (before_index w l l2 ++
       [BuildLocal.Summary (length (BuildLocal.ontology_files w)) s fl] ++
       (if (0 <? fl)%nat then [BuildLocal.SomeFailed] else [BuildLocal.AllSucceeded]),
       if (0 <? fl)%nat then Raise (SystemExit 1) else Ok tt) /\
    s = length (filter (doc_ok w) (BuildLocal.ontology_files w)) /\
    fl = length (filter (fun f => negb (doc_ok w f)) (BuildLocal.ontology_files w)) /\
    (s + fl = length (BuildLocal.ontology_files w))%nat /\
    processed l = BuildLocal.ontology_files w.
Proof.
  intros Hpre Hne Hwb Hsteps.
  destruct (loop_well_behaved w (BuildLocal.ontology_files w) (0, 0)%nat Hwb)
    as [l [Hl [Hr Hp]]].
  cbn [fst snd Nat.add] in Hl.
  set (s := length (filter (doc_ok w) (BuildLocal.ontology_files w))) in *.
  set (fl := length (filter (fun f => negb (doc_ok w f)) (BuildLocal.ontology_files w))) in *.
  assert (Hdoc : documented w l s fl).
  { destruct Hpre as [Hj Hjar]. repeat split; assumption. }
  destruct (main_steps_return w l s fl Hdoc) as [l2 Hmain].
  { intros Hs. apply Hsteps.
    destruct (filter (doc_ok w) (BuildLocal.ontology_files w)) as [|f fs] eqn:Ef.
    - unfold s in Hs. rewrite ?Ef in Hs. simpl in Hs. lia.
    - exists f. apply filter_In. rewrite Ef. left. reflexivity. }
  exists l, l2, s, fl. split; [exact Hmain|].
  repeat split; auto. apply filter_length_split.
Qed.

Lemma summary_counts_add_up_witness :
  exists l l2 s fl,
    BuildLocal.main (driver_world two_files fails_on_first example_world) =
      (before_index (driver_world two_files fails_on_first example_world) l l2 ++
       [BuildLocal.Summary 2 s fl] ++
       (if (0 <? fl)%nat then [BuildLocal.SomeFailed] else [BuildLocal.AllSucceeded]),
       if (0 <? fl)%nat then Raise (SystemExit 1) else Ok tt) /\
    s = 1%nat /\ fl = 1%nat /\ (s + fl = 2)%nat /\ processed l = two_files.
Proof.
  apply (summary_counts_add_up (driver_world two_files fails_on_first example_world)).
  - split; [eexists|]; reflexivity.
  - discriminate.
  - intros f [<-|[<-|[]]];
      (eexists; split; [reflexivity|split; [reflexivity|split; intros e H; discriminate H]]).
  - intros _. split; do 2 eexists; reflexivity.
Defined.

(** X16.  After an exit code 0 of the external tool the file counts as
    documented when there is no generated page to rename or when the rename
    returns; when the rename raises an [Exception], the file counts as
    failed although its documentation was reported as generated. *)
Theorem rename_decides_after_success (w : BuildLocal.world) (f out : path)
  (counts : nat * nat) (err : string) :
  output_dir_of f = Ok out -> BuildLocal.mkdir w out = Ok tt ->
  BuildLocal.run w (BuildLocal.widoco_cmd f out) 300 = Ok (0%Z, err) ->
  let start := [BuildLocal.Processing f;
                BuildLocal.RunWidoco (BuildLocal.widoco_cmd f out) 300;
                BuildLocal.DocGenerated f] in
  (BuildLocal.exists_file w (out ++ ["index-en.html"]) = false ->
   BuildLocal.count_file w counts f = (start, Ok (S (fst counts), snd counts))) /\
  (BuildLocal.exists_file w (out ++ ["index-en.html"]) = true ->
   BuildLocal.rename w (out ++ ["index-en.html"]) (out ++ ["index.html"]) = Ok tt ->
   BuildLocal.count_file w counts f
     = (start ++ [BuildLocal.Renamed f], Ok (S (fst counts), snd counts))) /\
  (forall e,
     BuildLocal.exists_file w (out ++ ["index-en.html"]) = true ->
     BuildLocal.rename w (out ++ ["index-en.html"]) (out ++ ["index.html"]) = Raise e ->
     is_Exception e = true ->
     exists why,
       BuildLocal.count_file w counts f
         = (start ++ [BuildLocal.DocFailed f why], Ok (fst counts, S (snd counts)))).
Proof.
  intros Hout Hmk Hrun start. subst start.
  unfold BuildLocal.count_file.
  rewrite (generate_documentation_start w f out Hout Hmk), Hrun.
  cbn [Z.eqb]. split; [|split].
  - intros He. rewrite He. reflexivity.
  - intros He Hr. rewrite He, Hr. reflexivity.
  - intros e He Hr Hex. rewrite He, Hr.
    destruct (handle_run_error_Exception f e Hex) as [why [Hh _]].
    rewrite Hh. exists why. reflexivity.
Qed.

Lemma rename_decides_after_success_witness :
  exists why,
    BuildLocal.count_file rename_fails_world (0, 0)%nat
      ["ontology"; "modules"; "m"; "0.1"; "m.ttl"]
    = ([BuildLocal.Processing ["ontology"; "modules"; "m"; "0.1"; "m.ttl"];
        BuildLocal.RunWidoco
          (BuildLocal.widoco_cmd ["ontology"; "modules"; "m"; "0.1"; "m.ttl"]
                                 ["docs"; "dev"; "modules"; "m"; "0.1"]) 300;
        BuildLocal.DocGenerated ["ontology"; "modules"; "m"; "0.1"; "m.ttl"]] ++
       [BuildLocal.DocFailed ["ontology"; "modules"; "m"; "0.1"; "m.ttl"] why],
       Ok (0, 1)%nat).
Proof.
  apply (proj2 (proj2 (rename_decides_after_success rename_fails_world
                         ["ontology"; "modules"; "m"; "0.1"; "m.ttl"]
                         ["docs"; "dev"; "modules"; "m"; "0.1"] (0, 0)%nat ""
                         eq_refl eq_refl eq_refl)) OSError); reflexivity.
Defined.

(** ** What escapes the error handling *)

Lemma handle_run_error_cases (f : path) (e : exn) :
  (is_Exception e = true /\
   exists why, BuildLocal.handle_run_error f e = ([BuildLocal.DocFailed f why], Ok false)) \/
  (is_Exception e = false /\ BuildLocal.handle_run_error f e = ([], Raise e)).
Proof. destruct e; cbn; eauto. Qed.

(** X17.  Whatever the outside world does, one call of
    [generate_documentation] invokes the external tool at most once, and an
    exception leaves it only when it was raised before the [try] (by
    [relative_to] or by making the output directory) or is outside
    [Exception]. *)
Theorem generate_documentation_runs_once_and_catches (w : BuildLocal.world) (f : path)
  (l : list BuildLocal.event) (r : result bool) :
  BuildLocal.generate_documentation w f = (l, r) ->
  (length (runs l) <= 1)%nat /\
  forall e, r = Raise e ->
    relative_to f BuildLocal.ONTOLOGY_DIR = Raise e \/
    (exists out, output_dir_of f = Ok out /\ BuildLocal.mkdir w out = Raise e) \/
    is_Exception e = false.
Proof.
  destruct (output_dir_of f) as [out|e0] eqn:Hout.
  - destruct (BuildLocal.mkdir w out) as [[]|e1] eqn:Hmk.
    + rewrite (generate_documentation_start w f out Hout Hmk).
      destruct (BuildLocal.run w _ 300) as [[rc err]|e2].
      * destruct (rc =? 0)%Z.
        -- destruct (BuildLocal.exists_file w _).
           ++ destruct (BuildLocal.rename w _ _) as [u|e3].
              ** cbn. intros H. injection H as <- <-. split; [simpl; lia|discriminate].
              ** destruct (handle_run_error_cases f e3) as [[_ [why Hh]]|[He Hh]];
                   rewrite Hh; cbn; intros H; injection H as <- <-;
                   (split; [simpl; lia|]); [discriminate|].
                 intros e [= <-]. auto.
           ++ cbn. intros H. injection H as <- <-. split; [simpl; lia|discriminate].
        -- cbn. intros H. injection H as <- <-. split; [simpl; lia|discriminate].
      * destruct (handle_run_error_cases f e2) as [[_ [why Hh]]|[He Hh]];
          rewrite Hh; cbn; intros H; injection H as <- <-;
          (split; [simpl; lia|]); [discriminate|].
        intros e [= <-]. auto.
    + rewrite (generate_documentation_mkdir_raises w f out e1 Hout Hmk).
      intros H. injection H as <- <-. split; [simpl; lia|].
      intros e [= <-]. right. left. eauto.
  - unfold output_dir_of in Hout. unfold BuildLocal.generate_documentation.
    destruct (relative_to f BuildLocal.ONTOLOGY_DIR) as [rel|e1]; [discriminate|].
    cbn. intros H. injection H as <- <-. split; [simpl; lia|].
    intros e [= <-]. auto.
Qed.

Lemma generate_documentation_runs_once_and_catches_witness :
  (length (runs [BuildLocal.Processing ["ontology"; "modules"; "m"; "0.2"; "m.ttl"]]) <= 1)%nat /\
  forall e, @Raise bool OSError = Raise e ->
    relative_to ["ontology"; "modules"; "m"; "0.2"; "m.ttl"] BuildLocal.ONTOLOGY_DIR
      = Raise e \/
    (exists out, output_dir_of ["ontology"; "modules"; "m"; "0.2"; "m.ttl"] = Ok out /\
                 BuildLocal.mkdir mkdir_fails_world out = Raise e) \/
    is_Exception e = false.
Proof.
  apply (generate_documentation_runs_once_and_catches mkdir_fails_world
           ["ontology"; "modules"; "m"; "0.2"; "m.ttl"]).
  reflexivity.
Defined.

(** X18.  The index step of the driver ends in one of four ways: it
    returns true, having built the data and written the page; it returns
    false, having built the data and caught an [Exception] of the template
    or of the write; it raises the [AttributeError] of a source that the
    pattern does not match; or it passes on an exception outside
    [Exception].  No other [Exception] leaves it. *)
Theorem index_step_outcomes (w : index_world) (l : list BuildLocal.event)
  (r : result bool) :
  BuildLocal.create_index_file w = (l, r) ->
  (r = Ok true /\ l = [BuildLocal.IndexGenerated] /\
   exists d, BuildLocal.build_data w = Ok d /\ BuildLocal.write_index w d = Ok tt) \/
  (exists e, r = Ok false /\ l = [BuildLocal.IndexFailed e] /\ is_Exception e = true /\
   exists d, BuildLocal.build_data w = Ok d /\ BuildLocal.write_index w d = Raise e) \/
  (r = Raise AttributeError /\ l = [] /\ malformed w) \/
  (exists e, r = Raise e /\ l = [] /\ is_Exception e = false /\
   exists d, BuildLocal.build_data w = Ok d /\ BuildLocal.write_index w d = Raise e).
Proof.
  unfold BuildLocal.create_index_file.
  destruct (BuildLocal.build_data w) as [d|e] eqn:Ed;
    cbn [BuildLocal.lift BuildLocal.io_bind].
  - destruct (BuildLocal.write_index w d) as [[]|e] eqn:Ew.
    + cbn. intros H. injection H as <- <-. left.
      split; [reflexivity|]. split; [reflexivity|]. exists d. auto.
    + destruct (is_Exception e) eqn:Ee; cbn; intros H; injection H as <- <-.
      * right. left. exists e.
        split; [reflexivity|]. split; [reflexivity|]. split; [assumption|].
        exists d. auto.
      * right. right. right. exists e.
        split; [reflexivity|]. split; [reflexivity|]. split; [assumption|].
        exists d. auto.
  - intros H. injection H as <- <-. right. right. left.
    change (BuildLocal.build_data w) with (BuildIndex.build_data w) in Ed.
    pose proof (build_data_Raise w e Ed) as ->.
    repeat split. eapply build_data_Raise_malformed. exact Ed.
Qed.

Lemma index_step_outcomes_witness :
  exists d e,
    BuildLocal.build_data failing_template_world = Ok d /\
    BuildLocal.write_index failing_template_world d = Raise e /\
    is_Exception e = true.
Proof.
  destruct (index_step_outcomes failing_template_world
              [BuildLocal.IndexFailed TemplateError] (Ok false) eq_refl)
    as [[H _]|[[e [_ [_ [He [d [Hd Hw]]]]]]|[[H _]|[e [H _]]]]];
    try discriminate H.
  exists d, e. auto.
Defined.

Lemma find_ontology_files_sound_complete_witness :
  In ["ontology"; "modules"; "m"; "0.2"; "m.ttl"] (BuildLocal.find_ontology_files example_cwd).
Proof.
  apply (proj2 (find_ontology_files_sound_complete example_cwd
                  ["ontology"; "modules"; "m"; "0.2"; "m.ttl"])).
  exists "modules",
    (Dir [("m", Dir [("0.2", Dir [("m.ttl", File ""); ("notes.txt", File "")]);
                     ("0.10", Dir [("m.owl", File "")])]);
          ("top.rdf", File "")]),
    ["m"; "0.2"], "m.ttl".
  split; [simpl; tauto|]. split; [reflexivity|]. split; [|split; reflexivity].
  simpl. eexists. split; [left; reflexivity|].
  eexists. split; [left; reflexivity|].
  eexists. split; [left; reflexivity|]. exact I.
Defined.
